(** * flask-file-server: a shallow embedding of [file_server.py]

    The development follows the source file top to bottom: Python values and
    exceptions, the string and path helpers the handlers rely on, a model of
    the file system the handlers talk to, then [get_range],
    [partial_response], [sorted_contents], [paginate], the [File] class and
    the two methods of [PathView], and last the template filters [data_fmt]
    and [icon_fmt] and [File.get_absolute_url].

    Conventions.
    - A Python [str] is a Rocq [string]; every character stands for the code
      point with the same number (so the model covers code points below 256).
    - A Python [int] is a [Z]; file contents are [list byte].
    - A Python call that may raise returns a [result]; [Raise e] is the
      exception leaving the function.
    - The file system has directories, regular files, entries whose
      metadata cannot be read, and symbolic links; a link is followed
      wherever the system calls of the source follow it. *)

From Stdlib Require Import ZArith QArith List Ascii String Strings.Byte Lia.
From Stdlib Require Import Sorted Permutation OrderedTypeEx.
From stdpp Require Import base option list strings pretty gmap.

Open Scope Z_scope.

(** ** Python exceptions and results *)

Inductive exn :=
| TypeError (msg : string)
| ValueError (msg : string)
| AssertionError
| KeyError (key : string)
| AttributeError (msg : string)
| OSError (errno : Z) (strerror : string) (filename : string).

Inductive result (A : Type) :=
| Ok (a : A)
| Raise (e : exn).
Arguments Ok {A} a.
Arguments Raise {A} e.

#[global] Instance result_ret : MRet result := fun A a => Ok a.
#[global] Instance result_bind : MBind result := fun A B f m =>
  match m with
  | Ok a => f a
  | Raise e => Raise e
  end.

Definition is_Ok {A} (r : result A) : bool :=
  match r with Ok _ => true | Raise _ => false end.

(** ** Characters and strings *)

Definition chr (n : nat) : ascii := ascii_of_nat n.
Definition ord (c : ascii) : Z := Z.of_nat (nat_of_ascii c).

Definition str1 (c : ascii) : string := String c EmptyString.

Definition str_len (s : string) : Z := Z.of_nat (String.length s).

(** [s.startswith(p)] *)
Definition startswith (s p : string) : bool := String.prefix p s.

(** [s.endswith(c)] for a one-character suffix. *)
Fixpoint endswith_char (s : string) (c : ascii) : bool :=
  match s with
  | EmptyString => false
  | String a EmptyString => bool_decide (a = c)
  | String _ rest => endswith_char rest c
  end.

(** [s.lstrip(c)]: drop every leading [c]. *)
Fixpoint lstrip_char (c : ascii) (s : string) : string :=
  match s with
  | String a rest => if bool_decide (a = c) then lstrip_char c rest else s
  | EmptyString => EmptyString
  end.

(** [s.split(c)]: the pieces between the occurrences of [c]; never empty. *)
Fixpoint split_char (c : ascii) (s : string) : list string :=
  match s with
  | EmptyString => [EmptyString]
  | String a rest =>
      if bool_decide (a = c) then EmptyString :: split_char c rest
      else match split_char c rest with
           | piece :: pieces => String a piece :: pieces
           | [] => [str1 a]
           end
  end.

Definition is_digit (c : ascii) : bool :=
  (48 <=? ord c) && (ord c <=? 57).

(** The longest run of decimal digits at the start of [s], and the rest. *)
Fixpoint span_digits (s : string) : string * string :=
  match s with
  | String a rest =>
      if is_digit a then
        let '(ds, tl) := span_digits rest in (String a ds, tl)
      else (EmptyString, s)
  | EmptyString => (EmptyString, EmptyString)
  end.

(** Value of a string of decimal digits, most significant first. *)
Fixpoint digits_value (acc : Z) (s : string) : Z :=
  match s with
  | String a rest => digits_value (10 * acc + (ord a - 48)) rest
  | EmptyString => acc
  end.

(** [s[len(p):]] when [s] starts with [p]. *)
Fixpoint strip_prefix (p s : string) : option string :=
  match p, s with
  | EmptyString, _ => Some s
  | String a p', String b s' =>
      if bool_decide (a = b) then strip_prefix p' s' else None
  | String _ _, EmptyString => None
  end.

(** ** posixpath *)

Definition sep : ascii := "/"%char.

(** One step of [os.path.join]: add the component [b] to [path]. *)
Definition join2 (path b : string) : string :=
  if startswith b (str1 sep) then b
  else if bool_decide (path = EmptyString) || endswith_char path sep
       then path +:+ b
       else path +:+ str1 sep +:+ b.

(** [os.path.join(a, *p)] *)
Definition os_path_join (a : string) (p : list string) : string :=
  fold_left join2 p a.

(** [os.path.basename(p)]: what follows the last separator. *)
Definition os_path_basename (p : string) : string :=
  List.last (split_char sep p) EmptyString.

(** ** The [stat] module and [os.stat_result] *)

Definition S_IFMT (mode : Z) : Z := Z.land mode 61440.   (* 0o170000 *)
Definition S_IFDIR : Z := 16384.                         (* 0o040000 *)
Definition S_IFREG : Z := 32768.                         (* 0o100000 *)
Definition S_IFLNK : Z := 40960.                         (* 0o120000 *)

Definition S_ISDIR (mode : Z) : bool := S_IFMT mode =? S_IFDIR.
Definition S_ISREG (mode : Z) : bool := S_IFMT mode =? S_IFREG.
Definition S_ISLNK (mode : Z) : bool := S_IFMT mode =? S_IFLNK.

(** The ten fields of the tuple view of [os.stat_result] (whole seconds for
    the three times), and the attribute [st_mtime], a float.  A finite float
    is a rational number, and the source only orders timestamps. *)
Record stat_result := {
  st_mode : Z;
  st_ino : Z;
  st_dev : Z;
  st_nlink : Z;
  st_uid : Z;
  st_gid : Z;
  st_size : Z;
  st_atime_int : Z;
  st_mtime_int : Z;
  st_ctime_int : Z;
  st_mtime : Q
}.

Definition stat_tuple (st : stat_result) : list Z :=
  [st_mode st; st_ino st; st_dev st; st_nlink st; st_uid st; st_gid st;
   st_size st; st_atime_int st; st_mtime_int st; st_ctime_int st].

(** ** The file system seen by the server *)

(** An entry of the file system: the metadata it gives [os.stat] and the
    bytes it holds when it is a regular file.  An entry without metadata of
    its own is a symbolic link when [readlink] names a target for its place,
    and an entry one may not inspect otherwise. *)
Record node := {
  n_stat : option stat_result;
  n_data : list byte
}.

(** Entries are addressed by their components below [/]. *)
Definition location := list string.

Record World := {
  fs : list (location * node);        (* in directory order *)
  readlink : location -> option location; (* where a symbolic link leads in the end *)
  cwd : location;
  guess_type : string -> option string;     (* [mimetypes.guess_type(p)[0]] *)
  write_fault : string -> option exn; (* why a path cannot be opened for writing *)
  creat_stat : string -> list byte -> stat_result; (* metadata after a write *)
  nfkd_ascii : ascii -> string (* a non-ASCII character after NFKD, ASCII kept *)
}.

Definition with_fs (w : World) (fs' : list (location * node)) : World :=
  {| fs := fs'; readlink := readlink w; cwd := cwd w; guess_type := guess_type w;
     write_fault := write_fault w; creat_stat := creat_stat w;
     nfkd_ascii := nfkd_ascii w |}.

Fixpoint fs_lookup (l : list (location * node)) (k : location) : option node :=
  match l with
  | [] => None
  | (k', n) :: rest => if bool_decide (k' = k) then Some n else fs_lookup rest k
  end.

(** Replace the entry at [k], or add it after the existing ones. *)
Fixpoint fs_store (l : list (location * node)) (k : location) (n : node)
  : list (location * node) :=
  match l with
  | [] => [(k, n)]
  | (k', n') :: rest =>
      if bool_decide (k' = k) then (k, n) :: rest
      else (k', n') :: fs_store rest k n
  end.

Definition node_is_dir (n : node) : bool :=
  match n_stat n with
  | Some st => S_ISDIR (st_mode st)
  | None => false
  end.

Definition is_dir_at (l : list (location * node)) (k : location) : bool :=
  match fs_lookup l k with
  | Some n => node_is_dir n
  | None => false
  end.

(** Where one path component leads from [cur]; the lexical part. *)
Definition step_to (cur : location) (seg : string) : location :=
  if bool_decide (seg = EmptyString) || bool_decide (seg = ".") then cur
  else if bool_decide (seg = "..") then removelast cur
  else cur ++ [seg].

(** The target of the symbolic link at [loc], when there is a link. *)
Definition link_target (w : World) (loc : location) : option location :=
  match fs_lookup (fs w) loc with
  | Some n =>
      match n_stat n with
      | None => readlink w loc
      | Some _ => None
      end
  | None => None
  end.

Definition is_link_at (w : World) (loc : location) : bool :=
  bool_decide (is_Some (link_target w loc)).

(** Where one arrives at [loc]: at the target of a symbolic link, or at the
    place itself. *)
Definition follow (w : World) (loc : location) : location :=
  default loc (link_target w loc).

(** Path resolution as the kernel does it: every component is looked up in a
    directory, and a symbolic link met on the way is followed. *)
Fixpoint walk_path (w : World) (cur : location) (segs : list string)
  : option location :=
  match segs with
  | [] => Some cur
  | seg :: rest =>
      if is_dir_at (fs w) cur then walk_path w (follow w (step_to cur seg)) rest
      else None
  end.

Definition resolve (w : World) (path : string) : option location :=
  if bool_decide (path = EmptyString) then None
  else if startswith path (str1 sep)
       then walk_path w [] (split_char sep path)
       else walk_path w (cwd w) (split_char sep path).

(** The same without following a link in the last component, as [os.lstat]
    resolves a path. *)
Fixpoint walk_path_nofollow (w : World) (cur : location) (segs : list string)
  : option location :=
  match segs with
  | [] => Some cur
  | [seg] => if is_dir_at (fs w) cur then Some (step_to cur seg) else None
  | seg :: rest =>
      if is_dir_at (fs w) cur
      then walk_path_nofollow w (follow w (step_to cur seg)) rest
      else None
  end.

(** [os.path.islink(path)] *)
Definition os_path_islink (w : World) (path : string) : bool :=
  if bool_decide (path = EmptyString) then false
  else
    match walk_path_nofollow w (if startswith path (str1 sep) then [] else cwd w)
                             (split_char sep path) with
    | Some loc => is_link_at w loc
    | None => false
    end.

Definition ENOENT (path : string) : exn := OSError 2 "No such file or directory" path.
Definition EACCES (path : string) : exn := OSError 13 "Permission denied" path.
Definition ENOTDIR (path : string) : exn := OSError 20 "Not a directory" path.
Definition EISDIR (path : string) : exn := OSError 21 "Is a directory" path.
Definition EINVAL : exn := OSError 22 "Invalid argument" EmptyString.

Definition find_node (w : World) (path : string) : result node :=
  match resolve w path with
  | None => Raise (ENOENT path)
  | Some loc =>
      match fs_lookup (fs w) loc with
      | None => Raise (ENOENT path)
      | Some n => Ok n
      end
  end.

(** [os.stat(path)] *)
Definition os_stat (w : World) (path : string) : result stat_result :=
  n ← find_node w path;
  match n_stat n with
  | Some st => Ok st
  | None => Raise (EACCES path)
  end.

(** [os.path.isdir(path)]: false when [os.stat] fails. *)
Definition os_path_isdir (w : World) (path : string) : bool :=
  match os_stat w path with
  | Ok st => S_ISDIR (st_mode st)
  | Raise _ => false
  end.

(** [os.path.isfile(path)] *)
Definition os_path_isfile (w : World) (path : string) : bool :=
  match os_stat w path with
  | Ok st => S_ISREG (st_mode st)
  | Raise _ => false
  end.

(** [os.path.getsize(path)] *)
Definition os_path_getsize (w : World) (path : string) : result Z :=
  st ← os_stat w path;
  Ok (st_size st).

(** The names found in the directory at [loc], in directory order. *)
Definition children (l : list (location * node)) (loc : location) : list string :=
  omap (fun '(k, _) =>
          match List.rev k with
          | name :: parent =>
              if bool_decide (List.rev parent = loc) then Some name else None
          | [] => None
          end) l.

(** [os.listdir(path)] *)
Definition os_listdir (w : World) (path : string) : result (list string) :=
  n ← find_node w path;
  if node_is_dir n then
    match resolve w path with
    | Some loc => Ok (children (fs w) loc)
    | None => Raise (ENOENT path)
    end
  else Raise (ENOTDIR path).

(** [os.walk(top)], top down; a directory that cannot be listed contributes
    nothing, and a symbolic link to a directory is reported among the
    directories but not entered.  The nesting of directories is bounded by
    the number of entries, which is the fuel given by [os_walk]. *)
Fixpoint os_walk_fuel (fuel : nat) (w : World) (top : string)
  : list (string * list string * list string) :=
  match fuel with
  | O => []
  | S fuel' =>
      match os_listdir w top with
      | Raise _ => []
      | Ok names =>
          let is_dir := fun name => os_path_isdir w (os_path_join top [name]) in
          let dirs := List.filter is_dir names in
          let nondirs := List.filter (fun name => negb (is_dir name)) names in
          let entered :=
            List.filter (fun d => negb (os_path_islink w (os_path_join top [d]))) dirs in
          (top, dirs, nondirs)
            :: flat_map (fun d => os_walk_fuel fuel' w (os_path_join top [d])) entered
      end
  end.

Definition os_walk (w : World) (top : string)
  : list (string * list string * list string) :=
  os_walk_fuel (S (List.length (fs w))) w top.

(** [open(path, "rb")]: the bytes the descriptor reads from. *)
Definition open_rb (w : World) (path : string) : result (list byte) :=
  n ← find_node w path;
  match n_stat n with
  | None => Raise (EACCES path)
  | Some st => if S_ISDIR (st_mode st) then Raise (EISDIR path) else Ok (n_data n)
  end.

(** [fd.seek(pos)] *)
Definition fd_seek (pos : Z) : result Z :=
  if pos <? 0 then Raise EINVAL else Ok pos.

(** [fd.read(n)] at offset [pos] of a buffered binary file: at most [n]
    bytes, everything up to the end for [-1], an error below [-1]. *)
Definition fd_read (data : list byte) (pos n : Z) : result (list byte) :=
  if n <? -1 then Raise (ValueError "read length must be non-negative or -1")
  else if n =? -1 then Ok (drop (Z.to_nat pos) data)
  else Ok (take (Z.to_nat n) (drop (Z.to_nat pos) data)).

(** Opening [path] for writing and storing [data] in it, as
    [FileStorage.save(path)] does: the file is created or replaced. *)
Definition save_to (w : World) (path : string) (data : list byte) : result World :=
  match write_fault w path with
  | Some e => Raise e
  | None =>
      match resolve w path with
      | None => Raise (ENOENT path)
      | Some loc =>
          let fresh := {| n_stat := Some (creat_stat w path data); n_data := data |} in
          match fs_lookup (fs w) loc with
          | None => Ok (with_fs w (fs_store (fs w) loc fresh))
          | Some n =>
              match n_stat n with
              | None => Raise (EACCES path)
              | Some st =>
                  if S_ISDIR (st_mode st) then Raise (EISDIR path)
                  else Ok (with_fs w (fs_store (fs w) loc fresh))
              end
          end
      end
  end.

(** ** Python values, comparison and conversion *)

(** The values an attribute of a [File] can have, and the arguments the
    handlers pass around. *)
Inductive pyval :=
| VNone
| VInt (z : Z)
| VFloat (q : Q)
| VStr (s : string)
| VStat (st : stat_result)
| VMethod (name : string).

Definition type_name (v : pyval) : string :=
  match v with
  | VNone => "NoneType"
  | VInt _ => "int"
  | VFloat _ => "float"
  | VStr _ => "str"
  | VStat _ => "os.stat_result"
  | VMethod _ => "method"
  end.

(** Lexicographic order on integer tuples. *)
Fixpoint tuple_compare (a b : list Z) : comparison :=
  match a, b with
  | [], [] => Eq
  | [], _ :: _ => Lt
  | _ :: _, [] => Gt
  | x :: a', y :: b' =>
      match x ?= y with
      | Eq => tuple_compare a' b'
      | c => c
      end
  end.

(** Three-way comparison of two values when Python 3 orders them. *)
Definition py_compare (a b : pyval) : option comparison :=
  match a, b with
  | VInt x, VInt y => Some (x ?= y)
  | VInt x, VFloat y => Some (Qcompare (inject_Z x) y)
  | VFloat x, VInt y => Some (Qcompare x (inject_Z y))
  | VFloat x, VFloat y => Some (Qcompare x y)
  | VStr x, VStr y => Some (String.compare x y)
  | VStat x, VStat y => Some (tuple_compare (stat_tuple x) (stat_tuple y))
  | _, _ => None
  end.

(** [a < b]: a [TypeError] when the operands are not ordered. *)
Definition py_lt (a b : pyval) : result bool :=
  match py_compare a b with
  | Some Lt => Ok true
  | Some _ => Ok false
  | None =>
      Raise (TypeError ("'<' not supported between instances of '"
                          +:+ type_name a +:+ "' and '" +:+ type_name b +:+ "'"))
  end.

(** [sorted(l, reverse=reverse, key=key)].  [list.sort] is stable and
    compares keys with [<] only, and the stable arrangement of a list is
    unique, so insertion from the right describes its result.  With
    [reverse] the list is reversed before and after sorting, which is how
    CPython keeps equal keys in their original order. *)
Section Sorted.
Context {A : Type} (key : A -> pyval).

Fixpoint insert_by_key (x : A) (l : list A) : result (list A) :=
  match l with
  | [] => Ok [x]
  | y :: ys =>
      lt ← py_lt (key y) (key x);
      if lt : bool then (r ← insert_by_key x ys; Ok (y :: r))
      else Ok (x :: y :: ys)
  end.

Fixpoint stable_sort (l : list A) : result (list A) :=
  match l with
  | [] => Ok []
  | x :: xs => s ← stable_sort xs; insert_by_key x s
  end.

Definition sorted (l : list A) (reverse : bool) : result (list A) :=
  if reverse then r ← stable_sort (List.rev l); Ok (List.rev r)
  else stable_sort l.
End Sorted.

(** [l[start:stop]] *)
Definition adjust_index (len i : Z) : Z :=
  let i := if i <? 0 then i + len else i in
  if i <? 0 then 0 else if len <=? i then len else i.

Definition py_slice {A} (l : list A) (start stop : Z) : list A :=
  let len := Z.of_nat (List.length l) in
  let start := adjust_index len start in
  let stop := adjust_index len stop in
  take (Z.to_nat (stop - start)) (drop (Z.to_nat start) l).

(** White space as [str.isspace] sees it below code point 256. *)
Definition is_space (c : ascii) : bool :=
  let n := ord c in
  ((9 <=? n) && (n <=? 13)) || ((28 <=? n) && (n <=? 32))
  || (n =? 133) || (n =? 160).

(** White space that [int] skips around a number: the ASCII blanks and,
    above them, the two spaces below code point 256.  The separators
    [\x1c] to [\x1f] are white space for [str.isspace] but not for [int]. *)
Definition is_int_space (c : ascii) : bool :=
  let n := ord c in
  ((9 <=? n) && (n <=? 13)) || (n =? 32) || (n =? 133) || (n =? 160).

Fixpoint lstrip_space (s : list ascii) : list ascii :=
  match s with
  | c :: rest => if is_int_space c then lstrip_space rest else s
  | [] => []
  end.

Definition strip_space (s : list ascii) : list ascii :=
  List.rev (lstrip_space (List.rev (lstrip_space s))).

(** Digits with single underscores between them. *)
Fixpoint int_digits (acc : Z) (after_digit : bool) (s : list ascii) : option Z :=
  match s with
  | [] => if after_digit then Some acc else None
  | c :: rest =>
      if is_digit c then int_digits (10 * acc + (ord c - 48)) true rest
      else if bool_decide (c = "_"%char) && after_digit then
        match rest with
        | d :: _ => if is_digit d then int_digits acc false rest else None
        | [] => None
        end
      else None
  end.

(** [int(s)] for a string: surrounding white space, a sign, decimal digits. *)
Definition int_of_str (s : string) : option Z :=
  match strip_space (list_ascii_of_string s) with
  | "-"%char :: ds => Z.opp <$> int_digits 0 false ds
  | "+"%char :: ds => int_digits 0 false ds
  | ds => int_digits 0 false ds
  end.

(** [int(v)] *)
Definition py_int (v : pyval) : result Z :=
  match v with
  | VInt z => Ok z
  | VFloat q => Ok (Z.quot (Qnum q) (Z.pos (Qden q)))
  | VStr s =>
      match int_of_str s with
      | Some z => Ok z
      | None => Raise (ValueError "invalid literal for int() with base 10")
      end
  | _ => Raise (TypeError "int() argument must be a string, a bytes-like object or a number")
  end.

(** ** Requests and responses (Flask) *)

(** An uploaded file: [werkzeug.FileStorage]. *)
Record FileStorage := {
  filename : string;
  stream : list byte
}.

Record Request := {
  args : list (string * string);      (* query string *)
  cookies : list (string * string);
  headers : list (string * string);
  files : list (string * FileStorage) (* multipart fields *)
}.

(** [d.get(key)] on a multi-dict: the first value of the key. *)
Fixpoint dict_get {V} (d : list (string * V)) (key : string) : option V :=
  match d with
  | [] => None
  | (k, v) :: rest => if bool_decide (k = key) then Some v else dict_get rest key
  end.

(** [d.getlist(key)] *)
Definition dict_getlist {V} (d : list (string * V)) (key : string) : list V :=
  omap (fun '(k, v) => if bool_decide (k = key) then Some v else None) d.

(** [d[key] = v] on a dict, which keeps the place of a key it already has. *)
Fixpoint dict_set {V} (d : list (string * V)) (key : string) (v : V)
  : list (string * V) :=
  match d with
  | [] => [(key, v)]
  | (k, v') :: rest =>
      if bool_decide (k = key) then (k, v) :: rest
      else (k, v') :: dict_set rest key v
  end.

Definition lower_char (c : ascii) : ascii :=
  if (65 <=? ord c) && (ord c <=? 90) then chr (nat_of_ascii c + 32) else c.

Fixpoint lower (s : string) : string :=
  match s with
  | EmptyString => EmptyString
  | String c rest => String (lower_char c) (lower rest)
  end.

(** [request.headers.get(name)]: header names ignore case. *)
Fixpoint headers_get (h : list (string * string)) (name : string) : option string :=
  match h with
  | [] => None
  | (k, v) :: rest =>
      if bool_decide (lower k = lower name) then Some v else headers_get rest name
  end.

Record File := {
  path : string;
  name : string;
  stat : option stat_result   (* the cached property: [None] when unreadable *)
}.

(** The keyword arguments of [render_template("index.html", ...)]. *)
Record TemplateContext := {
  ctx_path : string;
  ctx_page : Z;
  ctx_page_size : Z;
  ctx_contents : list File;
  ctx_total : gmap string Z;
  ctx_hide_dotfile : string;
  ctx_recursive : bool
}.

Inductive Body :=
| BBytes (data : list byte)
| BText (text : string)
| BTemplate (template : string) (ctx : TemplateContext).

(** A response: status, body, the [mimetype] argument, and the headers and
    cookies the source adds to it. *)
Record Response := {
  status : Z;
  body : Body;
  mimetype : option string;
  direct_passthrough : bool;
  resp_headers : list (string * string);
  resp_cookies : list (string * string * Z)  (* name, value, max_age *)
}.

Definition make_response (content : Body) (code : Z) : Response :=
  {| status := code; body := content; mimetype := None;
     direct_passthrough := false; resp_headers := []; resp_cookies := [] |}.

Definition headers_add (r : Response) (k v : string) : Response :=
  {| status := status r; body := body r; mimetype := mimetype r;
     direct_passthrough := direct_passthrough r;
     resp_headers := resp_headers r ++ [(k, v)];
     resp_cookies := resp_cookies r |}.

Definition set_cookie (r : Response) (k v : string) (max_age : Z) : Response :=
  {| status := status r; body := body r; mimetype := mimetype r;
     direct_passthrough := direct_passthrough r;
     resp_headers := resp_headers r;
     resp_cookies := resp_cookies r ++ [(k, v, max_age)] |}.

(** [flask.send_file(path)] as far as the handlers depend on it: it opens
    the file and answers 200 with the whole content as the body.  The
    library also falls back to the mimetype [application/octet-stream] and
    computes headers of its own for the file ([Content-Length],
    [Cache-Control], [Expires], [ETag], [Last-Modified]); these are not
    modelled, so [mimetype] is what [guess_type] says and [resp_headers]
    holds only what the source adds. *)
Definition send_file (w : World) (path : string) : result Response :=
  data ← open_rb w path;
  Ok {| status := 200; body := BBytes data;
        mimetype := guess_type w path;
        direct_passthrough := true; resp_headers := []; resp_cookies := [] |}.

(** ** file_server.py *)

Definition ignored : list string :=
  [".bzr"; "$RECYCLE.BIN"; ".DAV"; ".DS_Store"; ".git"; ".hg"; ".htaccess";
   ".htpasswd"; ".Spotlight-V100"; ".svn"; "__MACOSX"; "ehthumbs.db";
   "robots.txt"; "Thumbs.db"; "thumbs.tps"].

Definition len {A} (l : list A) : Z := Z.of_nat (List.length l).

Definition partial_response (w : World) (path : string) (start : Z)
    (end_ : option Z) : result Response :=
  file_size ← os_path_getsize w path;
  let end_ := match end_ with None => file_size - 1 | Some e => e end in
  let length := end_ - start + 1 in
  data ← open_rb w path;
  pos ← fd_seek start;
  bytes ← fd_read data pos length;
  if negb (len bytes =? length) then Raise AssertionError
  else
    let response :=
      {| status := 206; body := BBytes bytes;
         mimetype := guess_type w path;
         direct_passthrough := true; resp_headers := []; resp_cookies := [] |} in
    let response :=
      headers_add response "Content-Range"
        ("bytes " +:+ pretty start +:+ "-" +:+ pretty end_ +:+ "/" +:+ pretty file_size) in
    Ok (headers_add response "Accept-Ranges" "bytes").

(** [re.match(r"bytes=(?P<start>\d+)-(?P<end>\d+)?", s)]: the two groups.
    The match is anchored at the start of [s] only. *)
Definition range_match (s : string) : option (string * option string) :=
  match strip_prefix "bytes=" s with
  | None => None
  | Some r =>
      let '(ds, r1) := span_digits r in
      if bool_decide (ds = EmptyString) then None
      else match r1 with
           | String "-"%char r2 =>
               let '(de, _) := span_digits r2 in
               Some (ds, if bool_decide (de = EmptyString) then None else Some de)
           | _ => None
           end
  end.

Definition get_range (request : Request) : result (Z * option Z) :=
  match headers_get (headers request) "Range" with
  | None => Raise (TypeError "expected string or bytes-like object")
  | Some range =>
      match range_match range with
      | Some (start, end_) =>
          let start := digits_value 0 start in
          let end_ := digits_value 0 <$> end_ in
          Ok (start, end_)
      | None => Ok (0, None)
      end
  end.

(** [File.stat]: one retry, then [None]. *)
Definition File_stat (w : World) (path : string) : option stat_result :=
  match os_stat w path with
  | Ok st => Some st
  | Raise _ =>
      match os_stat w path with
      | Ok st => Some st
      | Raise _ => None
      end
  end.

(** [File(full_path, base_path)]; the cached [stat] is stored with the entry. *)
Definition File_init (w : World) (full_path base_path : string) : File :=
  {| path := full_path;
     name := os_path_basename full_path;
     stat := File_stat w full_path |}.

Definition File_type (f : File) : result string :=
  match stat f with
  | None => Raise (AttributeError "'NoneType' object has no attribute 'st_mode'")
  | Some st =>
      if negb (st_mode st =? 0) && (S_ISDIR (st_mode st) || S_ISLNK (st_mode st))
      then Ok "dir" else Ok "file"
  end.

Definition File_mtime (f : File) : pyval :=
  match stat f with
  | None => VNone
  | Some st => VFloat (st_mtime st)
  end.

Definition File_size (f : File) : pyval :=
  match stat f with
  | None => VNone
  | Some st => VInt (st_size st)
  end.

Definition File_ignored (f : File) : bool := bool_decide (name f ∈ ignored).

Definition File_hidden (f : File) : bool := startswith (name f) ".".

(** [getattr(f, key, None)] for the attributes the class defines; names that
    begin with an underscore belong to the interpreter and are not modelled. *)
Definition File_getattr (f : File) (key : string) : pyval :=
  if bool_decide (key = "path") then VStr (path f)
  else if bool_decide (key = "name") then VStr (name f)
  else if bool_decide (key = "stat") then
    match stat f with Some st => VStat st | None => VNone end
  else if bool_decide (key = "type") then
    match File_type f with Ok t => VStr t | Raise _ => VNone end
  else if bool_decide (key = "mtime") then File_mtime f
  else if bool_decide (key = "size") then File_size f
  else if bool_decide (key = "get_absolute_url") || bool_decide (key = "ignored")
          || bool_decide (key = "hidden") then VMethod key
  else VNone.

Definition iter_recursive_files (w : World) (path : string) : list File :=
  flat_map (fun '(_root, _dirs, _files) =>
              List.map (fun _filename =>
                          File_init w (os_path_join path [_root; _filename]) path)
                       _files)
           (os_walk w path).

Definition iter_files (w : World) (path : string) : result (list File) :=
  names ← os_listdir w path;
  Ok (List.map (fun filename => File_init w (os_path_join path [filename]) path) names).

Definition sorted_contents (contents : list File) (sorting : option string)
  : result (list File) :=
  match sorting with
  | None => Ok contents
  | Some sorting =>
      if bool_decide (sorting = EmptyString) then Ok contents
      else
        let reverse := startswith sorting "-" in
        let key := lstrip_char "-"%char sorting in
        sorted (fun f => File_getattr f key) contents reverse
  end.

(** [paginate(contents, page, page_size)]; the source's default of 100 for
    [page_size] is never used, [get] passes both. *)
Definition paginate {A} (contents : list A) (page page_size : pyval) : list A :=
  match py_int page with
  | Raise _ => contents
  | Ok page =>
      match py_int page_size with
      | Raise _ => contents
      | Ok page_size =>
          let start := page * page_size in
          let end_ := start + page_size in
          py_slice contents start end_
      end
  end.

(** ** werkzeug.secure_filename *)

(** [normalize("NFKD", s).encode("ascii", "ignore")]: ASCII characters stay,
    any other character leaves the ASCII part of its decomposition. *)
Definition to_ascii (w : World) (s : list ascii) : list ascii :=
  flat_map (fun c => if ord c <? 128 then [c]
                     else List.filter (fun d => ord d <? 128)
                                      (list_ascii_of_string (nfkd_ascii w c))) s.

Definition replace_char (a b : ascii) (s : list ascii) : list ascii :=
  List.map (fun c => if bool_decide (c = a) then b else c) s.

(** [s.split()]: the words between runs of white space. *)
Fixpoint words_from (cur : list ascii) (s : list ascii) : list (list ascii) :=
  match s with
  | [] => if bool_decide (cur = []) then [] else [List.rev cur]
  | c :: rest =>
      if is_space c then
        if bool_decide (cur = []) then words_from [] rest
        else List.rev cur :: words_from [] rest
      else words_from (c :: cur) rest
  end.

Definition split_words (s : list ascii) : list (list ascii) := words_from [] s.

(** [sep.join(parts)] *)
Fixpoint join_with (j : ascii) (parts : list (list ascii)) : list ascii :=
  match parts with
  | [] => []
  | [p] => p
  | p :: rest => p ++ j :: join_with j rest
  end.

Definition is_filename_char (c : ascii) : bool :=
  let n := ord c in
  ((65 <=? n) && (n <=? 90)) || ((97 <=? n) && (n <=? 122))
  || ((48 <=? n) && (n <=? 57))
  || (n =? 95) || (n =? 46) || (n =? 45).

Definition is_dot_or_underscore (c : ascii) : bool :=
  (ord c =? 46) || (ord c =? 95).

Fixpoint lstrip_if (f : ascii -> bool) (s : list ascii) : list ascii :=
  match s with
  | c :: rest => if f c then lstrip_if f rest else s
  | [] => []
  end.

Definition strip_if (f : ascii -> bool) (s : list ascii) : list ascii :=
  List.rev (lstrip_if f (List.rev (lstrip_if f s))).

(** Modelled from the spec: [secure_filename] is imported from werkzeug and
    its code is not part of the source file.  The spec asks for a name
    stripped of path separators and of the other characters unsafe for a
    bare file name; this is the library function on a POSIX system, which
    does so: the name is folded to ASCII, separators become spaces, the
    words are joined with [_], every character outside [A-Za-z0-9_.-] is
    dropped, and dots and underscores are stripped from both ends.  The
    result can be empty. *)
Definition secure_filename (w : World) (filename : string) : string :=
  let s := to_ascii w (list_ascii_of_string filename) in
  let s := replace_char sep " "%char s in
  let s := join_with "_"%char (split_words s) in
  let s := List.filter is_filename_char s in
  string_of_list_ascii (strip_if is_dot_or_underscore s).

(** ** [str(e)] and [json.JSONEncoder().encode] *)

Definition hex_digit (n : Z) : ascii :=
  if n <? 10 then chr (Z.to_nat (48 + n)) else chr (Z.to_nat (87 + n)).

Definition hex2 (c : ascii) : string :=
  String (hex_digit (ord c / 16)) (str1 (hex_digit (ord c mod 16))).

Definition backslash : ascii := chr 92.
Definition dquote : ascii := chr 34.
Definition squote : ascii := chr 39.

Definition escaped (c : ascii) : string := String backslash (str1 c).

Definition is_printable (c : ascii) : bool :=
  let n := ord c in
  ((32 <=? n) && (n <? 127)) || ((161 <=? n) && negb (n =? 173)).

Fixpoint contains_char (c : ascii) (s : string) : bool :=
  match s with
  | EmptyString => false
  | String a rest => bool_decide (a = c) || contains_char c rest
  end.

Fixpoint concat_map (f : ascii -> string) (s : string) : string :=
  match s with
  | EmptyString => EmptyString
  | String c rest => f c +:+ concat_map f rest
  end.

(** [repr(s)] for a string. *)
Definition repr_char (quote c : ascii) : string :=
  if bool_decide (c = backslash) || bool_decide (c = quote) then escaped c
  else if ord c =? 9 then escaped "t"
  else if ord c =? 10 then escaped "n"
  else if ord c =? 13 then escaped "r"
  else if is_printable c then str1 c
  else escaped "x" +:+ hex2 c.

Definition py_repr (s : string) : string :=
  let quote :=
    if contains_char squote s && negb (contains_char dquote s) then dquote
    else squote in
  str1 quote +:+ concat_map (repr_char quote) s +:+ str1 quote.

(** [str(e)] *)
Definition str_exn (e : exn) : string :=
  match e with
  | TypeError msg | ValueError msg | AttributeError msg => msg
  | AssertionError => EmptyString
  | KeyError key => py_repr key
  | OSError errno strerror fname =>
      "[Errno " +:+ pretty errno +:+ "] " +:+ strerror
        +:+ (if bool_decide (fname = EmptyString) then EmptyString
             else ": " +:+ py_repr fname)
  end.

(** A JSON string literal, with everything outside printable ASCII escaped. *)
Definition json_char (c : ascii) : string :=
  if bool_decide (c = dquote) || bool_decide (c = backslash) then escaped c
  else if ord c =? 10 then escaped "n"
  else if ord c =? 13 then escaped "r"
  else if ord c =? 9 then escaped "t"
  else if ord c =? 8 then escaped "b"
  else if ord c =? 12 then escaped "f"
  else if (32 <=? ord c) && (ord c <? 127) then str1 c
  else escaped "u" +:+ "00" +:+ hex2 c.

Definition json_string (s : string) : string :=
  str1 dquote +:+ concat_map json_char s +:+ str1 dquote.

Fixpoint json_items (d : list (string * string)) : string :=
  match d with
  | [] => EmptyString
  | [(k, v)] => json_string k +:+ ": " +:+ json_string v
  | (k, v) :: rest => json_string k +:+ ": " +:+ json_string v +:+ ", " +:+ json_items rest
  end.

(** [json.JSONEncoder().encode(d)] for a dict of strings. *)
Definition json_encode (d : list (string * string)) : string :=
  "{" +:+ json_items d +:+ "}".

(** ** PathView *)

Definition get_page (request : Request) : Z :=
  match dict_get (args request) "page" with
  | None => 0                                   (* TypeError *)
  | Some s => match int_of_str s with
              | Some n => n
              | None => 0                       (* ValueError *)
              end
  end.

Definition get_page_size (request : Request) : Z :=
  match dict_get (args request) "page_size" with
  | None => 100
  | Some s => match int_of_str s with
              | Some n => n
              | None => 100
              end
  end.

(** [total[key] += n] *)
Definition total_add (total : gmap string Z) (key : string) (n : pyval)
  : result (gmap string Z) :=
  match total !! key with
  | None => Raise (KeyError key)
  | Some v =>
      match n with
      | VInt z => Ok (<[key := v + z]> total)
      | _ => Raise (TypeError "unsupported operand type(s) for +=")
      end
  end.

(** The [for file in iterator] loop of [get]. *)
Fixpoint listing_loop (hide_dotfile : string) (iterator : list File)
    (contents : list File) (total : gmap string Z)
  : result (list File * gmap string Z) :=
  match iterator with
  | [] => Ok (contents, total)
  | file :: rest =>
      if File_ignored file then listing_loop hide_dotfile rest contents total
      else if bool_decide (hide_dotfile = "yes") && File_hidden file
      then listing_loop hide_dotfile rest contents total
      else if negb (bool_decide (is_Some (stat file)))
      then listing_loop hide_dotfile rest contents total
      else
        t ← File_type file;
        total ← total_add total t (VInt 1);
        total ← total_add total "size" (File_size file);
        listing_loop hide_dotfile rest (contents ++ [file]) total
  end.

Definition get (root : string) (w : World) (request : Request) (p : string)
  : result Response :=
  let hide_dotfile :=
    default (default "no" (dict_get (cookies request) "hide-dotfile"))
            (dict_get (args request) "hide-dotfile") in
  let recursive := bool_decide (dict_get (args request) "recursive" = Some "yes") in
  let sorting := dict_get (args request) "sorting" in
  let path := os_path_join root [p] in
  if os_path_isdir w path then
    let total : gmap string Z := <["file" := 0]> (<["dir" := 0]> (<["size" := 0]> ∅)) in
    iterator ← (if recursive then Ok (iter_recursive_files w path)
                else iter_files w path);
    '(contents, total) ← listing_loop hide_dotfile iterator [] total;
    contents ← sorted_contents contents sorting;
    let contents :=
      paginate contents (VInt (get_page request)) (VInt (get_page_size request)) in
    let response_content :=
      BTemplate "index.html"
        {| ctx_path := p; ctx_page := get_page request;
           ctx_page_size := get_page_size request;
           ctx_contents := contents; ctx_total := total;
           ctx_hide_dotfile := hide_dotfile; ctx_recursive := recursive |} in
    let res := make_response response_content 200 in
    Ok (set_cookie res "hide-dotfile" hide_dotfile 16070400)
  else if os_path_isfile w path then
    if bool_decide (is_Some (headers_get (headers request) "Range")) then
      '(start, end_) ← get_range request;
      partial_response w path start end_
    else
      res ← send_file w path;
      Ok (headers_add res "Content-Disposition" "attachment")
  else Ok (make_response (BText "Not found") 404).

(** The [for file in files] loop of [post]: the world after the saves and the
    [info] dict. *)
Fixpoint save_files (w : World) (path : string) (uploads : list FileStorage)
    (info : list (string * string)) : World * list (string * string) :=
  match uploads with
  | [] => (w, info)
  | file :: rest =>
      let filename := secure_filename w (filename file) in
      match save_to w (os_path_join path [filename]) (stream file) with
      | Raise e =>
          let info := dict_set info "status" "error" in
          let info := dict_set info "msg" (str_exn e) in
          save_files w path rest info
      | Ok w' =>
          let info := dict_set info "status" "success" in
          let info := dict_set info "msg" "File Saved" in
          save_files w' path rest info
      end
  end.

Definition post (root : string) (w : World) (request : Request) (p : string)
  : Response * World :=
  let path := os_path_join root [p] in
  let '(w', info) :=
    if os_path_isdir w path then
      save_files w path (dict_getlist (files request) "files[]") []
    else
      let info := dict_set [] "status" "error" in
      (w, dict_set info "msg" "Invalid Operation") in
  let res := make_response (BText (json_encode info)) 200 in
  (headers_add res "Content-type" "application/json", w').

(** ** Vocabulary of the statements *)

(** The entries the listing loop keeps. *)
Definition kept (hide_dotfile : string) (f : File) : bool :=
  negb (File_ignored f)
  && negb (bool_decide (hide_dotfile = "yes") && File_hidden f)
  && bool_decide (is_Some (stat f)).

Definition size_of (f : File) : Z :=
  match stat f with
  | Some st => st_size st
  | None => 0
  end.

Definition total_size (l : list File) : Z :=
  fold_right (fun f acc => size_of f + acc) 0 l.

Definition has_type (t : string) (f : File) : bool :=
  match File_type f with
  | Ok t' => bool_decide (t' = t)
  | Raise _ => false
  end.

Definition count_type (t : string) (l : list File) : Z :=
  len (List.filter (has_type t) l).

(** Order and equivalence of sort keys, as [<] decides them. *)
Definition key_le (a b : pyval) : Prop :=
  py_compare a b = Some Lt \/ py_compare a b = Some Eq.

Definition same_key (a b : pyval) : bool :=
  match py_compare a b with
  | Some Eq => true
  | _ => false
  end.

(** The sort keys the listing page offers. *)
Definition supported_keys : list string := ["name"; "type"; "size"; "mtime"].


Fixpoint all_digits (s : string) : bool :=
  match s with
  | EmptyString => true
  | String c rest => is_digit c && all_digits rest
  end.

(** A regular file at [path] holding [data], with consistent metadata. *)
Definition regular_file (w : World) (path : string) (st : stat_result)
    (data : list byte) : Prop :=
  find_node w path = Ok {| n_stat := Some st; n_data := data |}
  /\ S_ISREG (st_mode st) = true
  /\ st_size st = len data.

(** ** Sample data *)

Definition sample_stat (mode size : Z) : stat_result :=
  {| st_mode := mode; st_ino := 1; st_dev := 1; st_nlink := 1;
     st_uid := 0; st_gid := 0; st_size := size;
     st_atime_int := 0; st_mtime_int := 0; st_ctime_int := 0;
     st_mtime := 0%Q |}.

Definition sample_dir : node :=
  {| n_stat := Some (sample_stat 16877 4096); n_data := [] |}.

Definition sample_file (data : list byte) : node :=
  {| n_stat := Some (sample_stat 33188 (len data)); n_data := data |}.

Definition passwd_bytes : list byte := [x72; x6f; x6f; x74; x3a].

(** [/srv/files] is the served root: a file of 1000 bytes, an entry whose
    metadata cannot be read, a directory and a [.git] directory;
    [/etc/passwd] lies outside it. *)
Definition sample_world : World :=
  {| fs := [([], sample_dir);
            (["srv"], sample_dir);
            (["srv"; "files"], sample_dir);
            (["srv"; "files"; "a.bin"], sample_file (repeat x61 1000));
            (["srv"; "files"; "lost"], {| n_stat := None; n_data := [] |});
            (["srv"; "files"; "docs"], sample_dir);
            (["srv"; "files"; ".git"], sample_dir);
            (["etc"], sample_dir);
            (["etc"; "passwd"], sample_file passwd_bytes)];
     readlink := fun _ => None;
     cwd := [];
     guess_type := fun _ => None;
     write_fault := fun _ => None;
     creat_stat := fun _ data => sample_stat 33188 (len data);
     nfkd_ascii := fun _ => EmptyString |}.

(** The same with a symbolic link [/srv/files/motd] that leads to the file
    [/etc/passwd]. *)
Definition motd_world : World :=
  {| fs := fs sample_world
           ++ [(["srv"; "files"; "motd"], {| n_stat := None; n_data := [] |})];
     readlink := fun loc =>
                   if bool_decide (loc = ["srv"; "files"; "motd"])
                   then Some ["etc"; "passwd"]
                   else None;
     cwd := cwd sample_world;
     guess_type := guess_type sample_world;
     write_fault := write_fault sample_world;
     creat_stat := creat_stat sample_world;
     nfkd_ascii := nfkd_ascii sample_world |}.

(** The same with a symbolic link [/srv/files/link] that leads to [/etc]. *)
Definition linked_world : World :=
  {| fs := fs sample_world
           ++ [(["srv"; "files"; "link"], {| n_stat := None; n_data := [] |})];
     readlink := fun loc =>
                   if bool_decide (loc = ["srv"; "files"; "link"]) then Some ["etc"]
                   else None;
     cwd := cwd sample_world;
     guess_type := guess_type sample_world;
     write_fault := write_fault sample_world;
     creat_stat := creat_stat sample_world;
     nfkd_ascii := nfkd_ascii sample_world |}.

Definition sample_root : string := "/srv/files".

Definition plain_request : Request :=
  {| args := []; cookies := []; headers := []; files := [] |}.

Definition range_request (range : string) : Request :=
  {| args := []; cookies := []; headers := [("Range", range)]; files := [] |}.

Definition upload_request (fname : string) (data : list byte) : Request :=
  {| args := []; cookies := []; headers := [];
     files := [("files[]", {| filename := fname; stream := data |})] |}.

Definition sized_file (fname : string) (size : Z) : File :=
  {| path := "/srv/files/" +:+ fname; name := fname;
     stat := Some (sample_stat 33188 size) |}.

(** The kinds of value a supported sort key takes. *)
Inductive key_kind := KInt | KFloat | KStr.

Definition has_kind (k : key_kind) (v : pyval) : Prop :=
  match k, v with
  | KInt, VInt _ | KFloat, VFloat _ | KStr, VStr _ => True
  | _, _ => False
  end.

(** [info] is empty or holds exactly the two keys. *)
Definition info_shape (info : list (string * string)) : Prop :=
  info = [] \/ exists s m, info = [("status", s); ("msg", m)].


(** Three entries of sizes 10, 5 and 20. *)
Definition three_sizes : list File :=
  [sized_file "a" 10; sized_file "b" 5; sized_file "c" 20].

(** Where the resolution of [path] starts. *)
Definition start_of (w : World) (path : string) : location :=
  if startswith path (str1 sep) then [] else cwd w.

(** Whether a walk over [segs] that starts [depth] levels below a directory
    climbs above that directory. *)
Fixpoint climbs_above (depth : nat) (segs : list string) : bool :=
  match segs with
  | [] => false
  | seg :: rest =>
      if bool_decide (seg = EmptyString) || bool_decide (seg = ".")
      then climbs_above depth rest
      else if bool_decide (seg = "..") then
        match depth with
        | O => true
        | S d => climbs_above d rest
        end
      else climbs_above (S depth) rest
  end.

(** [w'] differs from [w] only in the file system: it leaves the directories
    of [w] alone, and it has the same symbolic links. *)
Definition extends (w w' : World) : Prop :=
  cwd w' = cwd w
  /\ nfkd_ascii w' = nfkd_ascii w
  /\ write_fault w' = write_fault w
  /\ creat_stat w' = creat_stat w
  /\ (forall k, is_dir_at (fs w) k = true -> fs_lookup (fs w') k = fs_lookup (fs w) k)
  /\ (forall k, link_target w' k = link_target w k).

(** A location that can be opened for writing: free, or a readable entry
    that is not a directory. *)
Definition writable_at (l : list (location * node)) (loc : location) : bool :=
  match fs_lookup l loc with
  | None => true
  | Some n =>
      match n_stat n with
      | Some st => negb (S_ISDIR (st_mode st))
      | None => false
      end
  end.

(** Sort keys of a common kind, their order, and the class of a key. *)
Definition kinded {A} (key : A -> pyval) (K : key_kind) (x : A) : Prop :=
  has_kind K (key x).

Definition key_order {A} (key : A -> pyval) (a b : A) : Prop :=
  key_le (key a) (key b).

Definition key_class {A} (key : A -> pyval) (k : pyval) (x : A) : bool :=
  same_key (key x) k.

(** A closed decidable proposition, settled by evaluation. *)
Ltac decide_prop := apply (bool_decide_unpack _); vm_compute; exact I.

(** ** The template filters of file_server.py *)

(** The two tables, in the order the source writes them (a dict iterates in
    insertion order). *)
Definition datatypes : list (string * string) :=
  [("audio", "m4a,mp3,oga,ogg,webma,wav");
   ("archive", "7z,zip,rar,gz,tar");
   ("image", "gif,ico,jpe,jpeg,jpg,png,svg,webp");
   ("pdf", "pdf");
   ("quicktime", "3g2,3gp,3gp2,3gpp,mov,qt");
   ("source", "atom,bat,bash,c,cmd,coffee,css,hml,js,json,java,less,markdown,md,php,pl,py,rb,rss,sass,scpt,swift,scss,sh,xml,yml,plist");
   ("text", "txt");
   ("video", "mp4,m4v,ogv,webm");
   ("website", "htm,html,mhtm,mhtml,xhtm,xhtml")].

Definition icontypes : list (string * string) :=
  [("fa-music", "m4a,mp3,oga,ogg,webma,wav");
   ("fa-archive", "7z,zip,rar,gz,tar");
   ("fa-picture-o", "gif,ico,jpe,jpeg,jpg,png,svg,webp");
   ("fa-file-text", "pdf");
   ("fa-film", "3g2,3gp,3gp2,3gpp,mov,qt,mp4,m4v,ogv,webm");
   ("fa-code", "atom,plist,bat,bash,c,cmd,coffee,css,hml,js,json,java,less,markdown,md,php,pl,py,rb,rss,sass,scpt,swift,scss,sh,xml,yml");
   ("fa-file-text-o", "txt");
   ("fa-globe", "htm,html,mhtm,mhtml,xhtm,xhtml")].

(** [sub in s] for two strings: [sub] occurs somewhere in [s]. *)
Fixpoint py_in (sub s : string) : bool :=
  String.prefix sub s
  || match s with
     | String _ rest => py_in sub rest
     | EmptyString => false
     end.

(** [filename.split(".")[-1]] *)
Definition last_piece (filename : string) : string :=
  List.last (split_char "."%char filename) EmptyString.

(** The loop both filters run: every table entry whose list contains the
    piece overrides the answer so far. *)
Definition pick (table : list (string * string)) (piece : string)
    (start : string) : string :=
  fold_left (fun t '(type, exts) => if py_in piece exts then type else t)
            table start.

Definition data_fmt (filename : string) : string :=
  pick datatypes (last_piece filename) "unknown".

Definition icon_fmt (filename : string) : string :=
  pick icontypes (last_piece filename) "fa-file-o".

(** The extensions a table lists, with the key they are listed under. *)
Definition listed (table : list (string * string)) : list (string * string) :=
  flat_map (fun '(type, exts) =>
              List.map (fun e => (type, e)) (split_char ","%char exts)) table.

(** The bytes of a response body. *)
Definition body_bytes (r : Response) : list byte :=
  match body r with
  | BBytes data => data
  | _ => []
  end.

(** ** [os.path.relpath] and [File.get_absolute_url] *)

(** [sep.join(comps)] *)
Fixpoint sep_join (comps : list string) : string :=
  match comps with
  | [] => EmptyString
  | [c] => c
  | c :: rest => c +:+ str1 sep +:+ sep_join rest
  end.

(** [os.getcwd()] *)
Definition os_getcwd (w : World) : string := str1 sep +:+ sep_join (cwd w).

Definition os_path_isabs (s : string) : bool := startswith s (str1 sep).

(** One round of the loop of [normpath]: empty components and [.] are
    skipped, [..] removes the component before it unless there is none to
    remove, every other component is kept. *)
Definition normpath_step (initial_slashes : nat) (new_comps : list string)
    (comp : string) : list string :=
  if bool_decide (comp = EmptyString) || bool_decide (comp = ".") then new_comps
  else if negb (bool_decide (comp = ".."))
          || (bool_decide (initial_slashes = 0%nat) && bool_decide (new_comps = []))
          || (negb (bool_decide (new_comps = []))
              && bool_decide (List.last new_comps EmptyString = ".."))
  then new_comps ++ [comp]
  else removelast new_comps.

(** [os.path.normpath(path)] *)
Definition normpath (path : string) : string :=
  if bool_decide (path = EmptyString) then "."
  else
    let initial_slashes : nat :=
      if startswith path (str1 sep)
      then if startswith path "//" && negb (startswith path "///") then 2%nat else 1%nat
      else 0%nat in
    let comps := fold_left (normpath_step initial_slashes) (split_char sep path) [] in
    let path := string_of_list_ascii (repeat sep initial_slashes) +:+ sep_join comps in
    if bool_decide (path = EmptyString) then "." else path.

(** [os.path.abspath(path)] *)
Definition os_path_abspath (w : World) (path : string) : string :=
  normpath (if os_path_isabs path then path else os_path_join (os_getcwd w) [path]).

(** [os.path.commonprefix] of two lists of components. *)
Fixpoint commonprefix (a b : list string) : list string :=
  match a, b with
  | x :: a', y :: b' => if bool_decide (x = y) then x :: commonprefix a' b' else []
  | _, _ => []
  end.

(** [os.path.relpath(path, start)] *)
Definition os_path_relpath (w : World) (path start : string) : result string :=
  if bool_decide (path = EmptyString) then Raise (ValueError "no path specified")
  else
    let nonempty := fun x : string => negb (bool_decide (x = EmptyString)) in
    let start_list := List.filter nonempty (split_char sep (os_path_abspath w start)) in
    let path_list := List.filter nonempty (split_char sep (os_path_abspath w path)) in
    let i := List.length (commonprefix start_list path_list) in
    let rel_list := repeat ".." (List.length start_list - i)%nat ++ drop i path_list in
    match rel_list with
    | [] => Ok "."
    | c :: rest => Ok (os_path_join c rest)
    end.

(** [File.get_absolute_url]; [root] is the served root. *)
Definition File_get_absolute_url (root : string) (w : World) (f : File)
  : result string :=
  os_path_relpath w (path f) root.

(** A path component that names an entry: not empty, not [.] or [..], and
    without a separator. *)
Definition plain_name (c : string) : bool :=
  negb (bool_decide (c = EmptyString)) && negb (bool_decide (c = "."))
  && negb (bool_decide (c = "..")) && negb (contains_char sep c).

(** The absolute path with the components [comps]. *)
Definition abs_of (comps : list string) : string := str1 sep +:+ sep_join comps.

(** * Properties *)

(** ** Lists and strings *)

Lemma len_nonneg {A} (l : list A) : 0 <= len l.
Proof. unfold len. lia. Qed.

Lemma len_take_drop {A} (l : list A) (i n : Z) :
  0 <= i -> 0 <= n -> i + n <= len l ->
  len (take (Z.to_nat n) (drop (Z.to_nat i) l)) = n.
Proof.
  unfold len. intros Hi Hn Hb.
  rewrite length_take, length_drop. lia.
Qed.

Lemma len_take_short {A} (l : list A) (i n : Z) :
  0 <= i -> 0 < n -> len l < i + n ->
  len (take (Z.to_nat n) (drop (Z.to_nat i) l)) < n.
Proof.
  unfold len. intros Hi Hn Hb.
  rewrite length_take, length_drop. lia.
Qed.

Lemma lookup_take_drop {A} (l : list A) (i n k : nat) :
  (k < n)%nat -> take n (drop i l) !! k = l !! (i + k)%nat.
Proof.
  intros Hk. rewrite lookup_take_lt by exact Hk. apply lookup_drop.
Qed.

Lemma digits_value_lower (s : string) (acc : Z) :
  all_digits s = true -> 0 <= acc -> 0 <= digits_value acc s.
Proof.
  revert acc. induction s as [|c s IH]; simpl; intros acc Hd Hacc.
  - exact Hacc.
  - apply andb_prop in Hd as [Hc Hs].
    apply IH; [exact Hs|].
    unfold is_digit in Hc. apply andb_prop in Hc as [H1 H2].
    apply Z.leb_le in H1. lia.
Qed.

Lemma span_digits_app (ds rest : string) :
  all_digits ds = true ->
  fst (span_digits rest) = EmptyString ->
  span_digits (ds +:+ rest) = (ds, rest).
Proof.
  intros Hd Hrest. induction ds as [|c ds IH]; simpl in *.
  - destruct rest as [|r rest]; [reflexivity|].
    simpl in *. destruct (is_digit r); [|reflexivity].
    destruct (span_digits rest); discriminate.
  - apply andb_prop in Hd as [Hc Hs]. rewrite Hc, (IH Hs). reflexivity.
Qed.

Lemma strip_prefix_app (p s : string) : strip_prefix p (p +:+ s) = Some s.
Proof.
  induction p as [|c p IH]; simpl; [reflexivity|].
  rewrite bool_decide_eq_true_2 by reflexivity. exact IH.
Qed.

Lemma startswith_char (s : string) (c : ascii) :
  startswith s (str1 c) =
    match s with
    | String a _ => bool_decide (a = c)
    | EmptyString => false
    end.
Proof.
  destruct s as [|a s]; [reflexivity|].
  unfold startswith. simpl. destruct (ascii_dec c a) as [->|Hne].
  - rewrite bool_decide_eq_true_2 by reflexivity. destruct s; reflexivity.
  - rewrite bool_decide_eq_false_2 by congruence. reflexivity.
Qed.

Lemma startswith_head (c : ascii) (s : string) :
  startswith (String c s) (str1 c) = true.
Proof. rewrite startswith_char. apply bool_decide_eq_true_2. reflexivity. Qed.

(** ** Regular files *)

Lemma S_ISREG_not_dir (mode : Z) : S_ISREG mode = true -> S_ISDIR mode = false.
Proof.
  unfold S_ISREG, S_ISDIR, S_IFREG, S_IFDIR. intros H.
  apply Z.eqb_eq in H. rewrite H. reflexivity.
Qed.

Section RegularFile.
Context (w : World) (path : string) (st : stat_result) (data : list byte).
Hypothesis Hreg : regular_file w path st data.

Lemma regular_stat : os_stat w path = Ok st.
Proof. destruct Hreg as (Hn & _ & _). unfold os_stat. rewrite Hn. reflexivity. Qed.

Lemma regular_getsize : os_path_getsize w path = Ok (len data).
Proof.
  unfold os_path_getsize. rewrite regular_stat. simpl.
  destruct Hreg as (_ & _ & ->). reflexivity.
Qed.

Lemma regular_open : open_rb w path = Ok data.
Proof.
  destruct Hreg as (Hn & Hm & _). unfold open_rb. rewrite Hn. simpl.
  rewrite (S_ISREG_not_dir _ Hm). reflexivity.
Qed.

Lemma regular_isfile : os_path_isfile w path = true.
Proof. unfold os_path_isfile. rewrite regular_stat. apply Hreg. Qed.

Lemma regular_isdir : os_path_isdir w path = false.
Proof.
  unfold os_path_isdir. rewrite regular_stat.
  apply S_ISREG_not_dir, Hreg.
Qed.

(** What [partial_response] does once the file is open. *)
Lemma partial_response_regular (start : Z) (end_ : option Z) :
  partial_response w path start end_ =
    (let e := match end_ with None => len data - 1 | Some e => e end in
     pos ← fd_seek start;
     bytes ← fd_read data pos (e - start + 1);
     if negb (len bytes =? e - start + 1) then Raise AssertionError
     else Ok {| status := 206; body := BBytes bytes;
                mimetype := guess_type w path; direct_passthrough := true;
                resp_headers :=
                  [("Content-Range",
                    "bytes " +:+ pretty start +:+ "-" +:+ pretty e
                      +:+ "/" +:+ pretty (len data));
                   ("Accept-Ranges", "bytes")];
                resp_cookies := [] |}).
Proof.
  unfold partial_response. rewrite regular_getsize. simpl.
  rewrite regular_open. simpl.
  destruct (fd_seek start) as [pos|e]; simpl; [|reflexivity].
  destruct (fd_read _ _ _) as [bytes|e]; simpl; [|reflexivity].
  destruct (len bytes =? _); reflexivity.
Qed.
End RegularFile.

Lemma sample_regular :
  regular_file sample_world "/srv/files/a.bin" (sample_stat 33188 1000)
               (repeat x61 1000).
Proof. repeat split. Qed.

(** ** Byte ranges *)

(** C3. For a file of [len data] bytes and a range with
    [0 <= start <= end_ < len data], [partial_response] answers 206 with
    exactly the [end_ - start + 1] bytes found at offsets [start..end_], the
    header [Content-Range: bytes start-end_/size] and the header
    [Accept-Ranges: bytes]. *)
Theorem partial_response_serves_range (w : World) (path : string)
    (st : stat_result) (data : list byte) (start end_ : Z) :
  regular_file w path st data ->
  0 <= start -> start <= end_ -> end_ < len data ->
  let window := take (Z.to_nat (end_ - start + 1)) (drop (Z.to_nat start) data) in
  partial_response w path start (Some end_) =
    Ok {| status := 206; body := BBytes window;
          mimetype := guess_type w path; direct_passthrough := true;
          resp_headers :=
            [("Content-Range",
              "bytes " +:+ pretty start +:+ "-" +:+ pretty end_
                +:+ "/" +:+ pretty (len data));
             ("Accept-Ranges", "bytes")];
          resp_cookies := [] |}
  /\ len window = end_ - start + 1
  /\ forall i : nat, Z.of_nat i < end_ - start + 1 ->
       window !! i = data !! (Z.to_nat start + i)%nat.
Proof.
  intros Hreg Hs Hse He window.
  assert (Hlen : len window = end_ - start + 1)
    by (apply len_take_drop; lia).
  split; [|split].
  - rewrite (partial_response_regular w path st data Hreg).
    unfold fd_seek, fd_read. cbn zeta.
    destruct (Z.ltb_spec start 0); [lia|]. simpl.
    destruct (Z.ltb_spec (end_ - start + 1) (-1)); [lia|].
    destruct (Z.eqb_spec (end_ - start + 1) (-1)); [lia|]. simpl.
    fold window. rewrite Hlen, Z.eqb_refl. reflexivity.
  - exact Hlen.
  - intros i Hi. apply lookup_take_drop. lia.
Qed.

Lemma partial_response_serves_range_witness :
  partial_response sample_world "/srv/files/a.bin" 0 (Some 99) =
    Ok {| status := 206; body := BBytes (repeat x61 100);
          mimetype := None; direct_passthrough := true;
          resp_headers := [("Content-Range", "bytes 0-99/1000");
                           ("Accept-Ranges", "bytes")];
          resp_cookies := [] |}
  /\ len (repeat x61 100) = 100.
Proof.
  destruct (partial_response_serves_range sample_world "/srv/files/a.bin"
              (sample_stat 33188 1000) (repeat x61 1000) 0 99)
    as (H1 & H2 & _).
  - exact sample_regular.
  - lia.
  - lia.
  - reflexivity.
  - split; [exact H1 | exact H2].
Defined.

(** C4. A header [bytes=<start>-] parses to [(start, None)], and the range
    served then ends at the last byte of the file: the body is everything
    from offset [start] on, [size - start] bytes, under
    [Content-Range: bytes start-(size-1)/size].  Nothing is served when
    [start] lies beyond the end of the file. *)
Theorem open_ended_range_ends_at_last_byte (w : World) (path : string)
    (st : stat_result) (data : list byte) (request : Request) (ds : string) :
  regular_file w path st data ->
  headers_get (headers request) "Range" = Some ("bytes=" +:+ ds +:+ "-") ->
  ds <> EmptyString -> all_digits ds = true ->
  let start := digits_value 0 ds in
  get_range request = Ok (start, None)
  /\ (start <= len data ->
        partial_response w path start None =
          Ok {| status := 206; body := BBytes (drop (Z.to_nat start) data);
                mimetype := guess_type w path; direct_passthrough := true;
                resp_headers :=
                  [("Content-Range",
                    "bytes " +:+ pretty start +:+ "-" +:+ pretty (len data - 1)
                      +:+ "/" +:+ pretty (len data));
                   ("Accept-Ranges", "bytes")];
                resp_cookies := [] |}
        /\ len (drop (Z.to_nat start) data) = len data - start)
  /\ (len data < start -> is_Ok (partial_response w path start None) = false).
Proof.
  intros Hreg Hh Hne Hd start.
  assert (H0 : 0 <= start) by (apply digits_value_lower; [exact Hd | lia]).
  assert (Hdrop : forall n, 0 <= n -> len (drop (Z.to_nat n) data) = Z.max 0 (len data - n)).
  { intros n Hn. unfold len. rewrite length_drop. lia. }
  split; [|split].
  - unfold get_range. rewrite Hh. unfold range_match.
    rewrite strip_prefix_app, (span_digits_app ds "-" Hd eq_refl).
    destruct (bool_decide_reflect (ds = EmptyString)); [contradiction|].
    reflexivity.
  - intros Hle.
    rewrite (partial_response_regular w path st data Hreg).
    unfold fd_seek, fd_read. cbn zeta.
    destruct (Z.ltb_spec start 0); [lia|]. simpl.
    destruct (Z.ltb_spec (len data - 1 - start + 1) (-1)); [lia|].
    destruct (Z.eqb_spec (len data - 1 - start + 1) (-1)); [lia|]. simpl.
    rewrite take_ge by (rewrite length_drop; unfold len; lia).
    rewrite (Hdrop start H0).
    destruct (Z.eqb_spec (Z.max 0 (len data - start)) (len data - 1 - start + 1)); [|lia].
    simpl. split; [reflexivity | lia].
  - intros Hgt.
    rewrite (partial_response_regular w path st data Hreg).
    unfold fd_seek, fd_read. cbn zeta.
    destruct (Z.ltb_spec start 0); [lia|]. simpl.
    destruct (Z.ltb_spec (len data - 1 - start + 1) (-1)); [reflexivity|].
    destruct (Z.eqb_spec (len data - 1 - start + 1) (-1)); [|lia]. simpl.
    rewrite (Hdrop start H0).
    destruct (Z.eqb_spec (Z.max 0 (len data - start)) (len data - 1 - start + 1)); [lia|].
    reflexivity.
Qed.

Lemma open_ended_range_ends_at_last_byte_witness :
  get_range (range_request "bytes=500-") = Ok (500, None)
  /\ partial_response sample_world "/srv/files/a.bin" 500 None =
       Ok {| status := 206; body := BBytes (repeat x61 500);
             mimetype := None; direct_passthrough := true;
             resp_headers := [("Content-Range", "bytes 500-999/1000");
                              ("Accept-Ranges", "bytes")];
             resp_cookies := [] |}
  /\ len (repeat x61 500) = 500.
Proof.
  destruct (open_ended_range_ends_at_last_byte sample_world "/srv/files/a.bin"
              (sample_stat 33188 1000) (repeat x61 1000)
              (range_request "bytes=500-") "500")
    as (H1 & H2 & _).
  - exact sample_regular.
  - reflexivity.
  - discriminate.
  - reflexivity.
  - destruct H2 as [H2 H3]; [vm_compute; discriminate|].
    split; [exact H1 | split; [exact H2 | exact H3]].
Defined.

(** C2, as the code has it.  A [Range] header that does not begin with a
    match of [bytes=<start>-[<end>]] is answered with the whole file as a
    206 response; text after a matching prefix, such as further
    comma-separated ranges, is ignored and the first range is used; a parsed
    range with [start <= end_] whose [end_] is not below the file size fails
    on the length assertion; a parsed range with [start > end_ + 1] fails as
    well, and one with [start = end_ + 1] is answered with an empty 206
    body. *)
Theorem range_header_fallbacks (w : World) (path : string)
    (st : stat_result) (data : list byte) (request : Request) (range : string) :
  regular_file w path st data ->
  headers_get (headers request) "Range" = Some range ->
  (range_match range = None ->
     get_range request = Ok (0, None)
     /\ partial_response w path 0 None =
          Ok {| status := 206; body := BBytes data;
                mimetype := guess_type w path; direct_passthrough := true;
                resp_headers :=
                  [("Content-Range",
                    "bytes " +:+ pretty 0 +:+ "-" +:+ pretty (len data - 1)
                      +:+ "/" +:+ pretty (len data));
                   ("Accept-Ranges", "bytes")];
                resp_cookies := [] |})
  /\ (forall ds de rest : string,
        range = "bytes=" +:+ ds +:+ "-" +:+ de +:+ rest ->
        ds <> EmptyString -> all_digits ds = true ->
        de <> EmptyString -> all_digits de = true ->
        fst (span_digits rest) = EmptyString ->
        get_range request = Ok (digits_value 0 ds, Some (digits_value 0 de)))
  /\ (forall start end_ : Z,
        0 <= start -> start <= end_ -> len data <= end_ ->
        partial_response w path start (Some end_) = Raise AssertionError)
  /\ (forall start end_ : Z,
        0 <= start -> end_ + 1 < start ->
        is_Ok (partial_response w path start (Some end_)) = false)
  /\ (forall start end_ : Z,
        0 <= start -> start = end_ + 1 ->
        partial_response w path start (Some end_) =
          Ok {| status := 206; body := BBytes [];
                mimetype := guess_type w path; direct_passthrough := true;
                resp_headers :=
                  [("Content-Range",
                    "bytes " +:+ pretty start +:+ "-" +:+ pretty end_
                      +:+ "/" +:+ pretty (len data));
                   ("Accept-Ranges", "bytes")];
                resp_cookies := [] |}).
Proof.
  intros Hreg Hh.
  pose proof (partial_response_regular w path st data Hreg) as Hpr.
  repeat split.
  - unfold get_range. rewrite Hh, H. reflexivity.
  - rewrite Hpr. unfold fd_seek, fd_read. cbn zeta. simpl.
    pose proof (len_nonneg data) as Hl.
    destruct (Z.ltb_spec (len data - 1 - 0 + 1) (-1)); [lia|].
    destruct (Z.eqb_spec (len data - 1 - 0 + 1) (-1)); [lia|]. simpl.
    change (drop (Z.to_nat 0) data) with data.
    rewrite take_ge by (unfold len; lia).
    destruct (Z.eqb_spec (len data) (len data - 1 - 0 + 1)); [|lia].
    reflexivity.
  - intros ds de rest -> Hds Hdd Hde Hded Hrest.
    unfold get_range. rewrite Hh. unfold range_match.
    rewrite strip_prefix_app.
    rewrite (span_digits_app ds ("-" +:+ de +:+ rest) Hdd eq_refl).
    destruct (bool_decide_reflect (ds = EmptyString)); [contradiction|].
    change ("-" +:+ de +:+ rest) with (String "-"%char (de +:+ rest)).
    cbv beta iota.
    rewrite (span_digits_app de rest Hded Hrest).
    destruct (bool_decide_reflect (de = EmptyString)); [contradiction|].
    reflexivity.
  - intros start end_ H0 Hse He.
    rewrite Hpr. unfold fd_seek, fd_read. cbn zeta.
    destruct (Z.ltb_spec start 0); [lia|]. simpl.
    destruct (Z.ltb_spec (end_ - start + 1) (-1)); [lia|].
    destruct (Z.eqb_spec (end_ - start + 1) (-1)); [lia|]. simpl.
    pose proof (len_take_short data start (end_ - start + 1)).
    destruct (Z.eqb_spec (len (take (Z.to_nat (end_ - start + 1))
                                 (drop (Z.to_nat start) data)))
                         (end_ - start + 1)); [lia|].
    reflexivity.
  - intros start end_ H0 Hse.
    rewrite Hpr. unfold fd_seek, fd_read. cbn zeta.
    destruct (Z.ltb_spec start 0); [lia|]. simpl.
    destruct (Z.ltb_spec (end_ - start + 1) (-1)); [reflexivity|].
    destruct (Z.eqb_spec (end_ - start + 1) (-1)); [|lia]. simpl.
    pose proof (len_nonneg (drop (Z.to_nat start) data)).
    destruct (Z.eqb_spec (len (drop (Z.to_nat start) data)) (end_ - start + 1)); [lia|].
    reflexivity.
  - intros start end_ H0 ->.
    rewrite Hpr. unfold fd_seek, fd_read. cbn zeta.
    destruct (Z.ltb_spec (end_ + 1) 0); [lia|]. simpl.
    replace (end_ - (end_ + 1) + 1) with 0 by lia. reflexivity.
Qed.

Lemma range_header_fallbacks_witness :
  get_range (range_request "garbage") = Ok (0, None)
  /\ partial_response sample_world "/srv/files/a.bin" 0 None =
       Ok {| status := 206; body := BBytes (repeat x61 1000);
             mimetype := None; direct_passthrough := true;
             resp_headers := [("Content-Range", "bytes 0-999/1000");
                              ("Accept-Ranges", "bytes")];
             resp_cookies := [] |}.
Proof.
  destruct (range_header_fallbacks sample_world "/srv/files/a.bin"
              (sample_stat 33188 1000) (repeat x61 1000)
              (range_request "garbage") "garbage")
    as (H1 & _).
  - exact sample_regular.
  - reflexivity.
  - apply H1. reflexivity.
Defined.

(** C2 as stated fails: a header that is no range at all, a multi-range
    header and a range with [start > end_] are each answered with a 206
    partial response. *)
Lemma unsatisfiable_ranges_are_served :
  get sample_root sample_world (range_request "garbage") "a.bin" =
    Ok {| status := 206; body := BBytes (repeat x61 1000);
          mimetype := None; direct_passthrough := true;
          resp_headers := [("Content-Range", "bytes 0-999/1000");
                           ("Accept-Ranges", "bytes")];
          resp_cookies := [] |}
  /\ get sample_root sample_world (range_request "bytes=0-10,20-30") "a.bin" =
       Ok {| status := 206; body := BBytes (repeat x61 11);
             mimetype := None; direct_passthrough := true;
             resp_headers := [("Content-Range", "bytes 0-10/1000");
                              ("Accept-Ranges", "bytes")];
             resp_cookies := [] |}
  /\ get sample_root sample_world (range_request "bytes=5-4") "a.bin" =
       Ok {| status := 206; body := BBytes [];
             mimetype := None; direct_passthrough := true;
             resp_headers := [("Content-Range", "bytes 5-4/1000");
                              ("Accept-Ranges", "bytes")];
             resp_cookies := [] |}.
Proof. repeat split; vm_compute; reflexivity. Qed.

(** ** Pagination *)

Lemma adjust_index_nonneg (n i : Z) : 0 <= i -> adjust_index n i = Z.min n i.
Proof.
  intros Hi. unfold adjust_index.
  destruct (Z.ltb_spec i 0); [lia|].
  destruct (Z.ltb_spec i 0); [lia|].
  destruct (Z.leb_spec n i); lia.
Qed.

(** C5. For a page index [p >= 0] and a page size [s > 0], [paginate] is the
    slice [xs[p*s : p*s+s]] cut at the end of the list: element [i] of the
    page is element [p*s + i] of [xs] for [i < s]; a page past the end is
    empty. *)
Theorem paginate_is_slice {A : Type} (xs : list A) (p s : Z) :
  0 <= p -> 0 < s ->
  paginate xs (VInt p) (VInt s) = take (Z.to_nat s) (drop (Z.to_nat (p * s)) xs)
  /\ (forall i : nat,
        paginate xs (VInt p) (VInt s) !! i =
          if bool_decide (Z.of_nat i < s) then xs !! (Z.to_nat (p * s) + i)%nat
          else None)
  /\ (len xs <= p * s -> paginate xs (VInt p) (VInt s) = []).
Proof.
  intros Hp Hs.
  assert (Hps : 0 <= p * s) by nia.
  assert (Heq : paginate xs (VInt p) (VInt s)
                = take (Z.to_nat s) (drop (Z.to_nat (p * s)) xs)).
  { unfold paginate, py_int, py_slice. cbn zeta. fold (len xs).
    rewrite !adjust_index_nonneg by lia.
    destruct (Z.le_gt_cases (len xs) (p * s)) as [Hout|Hin].
    - rewrite !drop_ge by (unfold len in *; lia).
      rewrite !take_nil. reflexivity.
    - rewrite (Z.min_r (len xs) (p * s)) by lia.
      destruct (Z.le_gt_cases (len xs) (p * s + s)).
      + rewrite !take_ge by (rewrite length_drop; unfold len in *; lia).
        reflexivity.
      + f_equal. lia. }
  split; [exact Heq|split].
  - intros i. rewrite Heq.
    destruct (bool_decide_reflect (Z.of_nat i < s)).
    + apply lookup_take_drop. lia.
    + apply lookup_take_ge. lia.
  - intros Hlen. rewrite Heq.
    rewrite drop_ge by (unfold len in *; lia). apply take_nil.
Qed.

Lemma paginate_is_slice_witness :
  paginate [1; 2; 3; 4; 5] (VInt 1) (VInt 2) = [3; 4]
  /\ paginate [1; 2; 3; 4; 5] (VInt 4) (VInt 2) = [].
Proof.
  split.
  - apply (proj1 (paginate_is_slice [1; 2; 3; 4; 5] 1 2 ltac:(lia) ltac:(lia))).
  - apply (proj2 (proj2 (paginate_is_slice [1; 2; 3; 4; 5] 4 2 ltac:(lia) ltac:(lia)))).
    vm_compute. discriminate.
Defined.

(** ** The listing loop *)

Lemma File_type_cases (f : File) (st : stat_result) :
  stat f = Some st ->
  (File_type f = Ok "dir" /\ has_type "dir" f = true /\ has_type "file" f = false)
  \/ (File_type f = Ok "file" /\ has_type "dir" f = false /\ has_type "file" f = true).
Proof.
  intros Hst. unfold has_type, File_type. rewrite Hst.
  destruct (negb (st_mode st =? 0) && (S_ISDIR (st_mode st) || S_ISLNK (st_mode st)));
    [left | right]; repeat split.
Qed.

Lemma kept_stat (hide_dotfile : string) (f : File) :
  kept hide_dotfile f = true -> is_Some (stat f).
Proof.
  unfold kept. intros H. apply andb_prop in H as [_ H].
  apply bool_decide_eq_true in H. exact H.
Qed.

Lemma count_type_cons (t : string) (f : File) (l : list File) :
  count_type t (f :: l) = (if has_type t f then 1 else 0) + count_type t l.
Proof.
  unfold count_type, len. simpl. destruct (has_type t f); simpl; lia.
Qed.

Lemma listing_loop_cons (hide_dotfile : string) (file : File)
    (rest contents : list File) (total : gmap string Z) :
  listing_loop hide_dotfile (file :: rest) contents total =
    if kept hide_dotfile file then
      t ← File_type file;
      total ← total_add total t (VInt 1);
      total ← total_add total "size" (File_size file);
      listing_loop hide_dotfile rest (contents ++ [file]) total
    else listing_loop hide_dotfile rest contents total.
Proof.
  simpl. unfold kept.
  destruct (File_ignored file); [reflexivity|].
  destruct (bool_decide (hide_dotfile = "yes") && File_hidden file); [reflexivity|].
  destruct (bool_decide (is_Some (stat file))); reflexivity.
Qed.

(** The loop with arbitrary accumulators. *)
Lemma listing_loop_acc (hide_dotfile : string) (iterator contents : list File)
    (total : gmap string Z) (s d f : Z) :
  total !! "size" = Some s -> total !! "dir" = Some d -> total !! "file" = Some f ->
  exists total',
    listing_loop hide_dotfile iterator contents total
      = Ok (contents ++ List.filter (kept hide_dotfile) iterator, total')
    /\ total' !! "size" = Some (s + total_size (List.filter (kept hide_dotfile) iterator))
    /\ total' !! "dir" = Some (d + count_type "dir" (List.filter (kept hide_dotfile) iterator))
    /\ total' !! "file" = Some (f + count_type "file" (List.filter (kept hide_dotfile) iterator)).
Proof.
  revert contents total s d f.
  induction iterator as [|file rest IH]; intros contents total s d f Hs Hd Hf.
  - exists total. simpl. rewrite app_nil_r, !Z.add_0_r. auto.
  - rewrite listing_loop_cons.
    change (List.filter (kept hide_dotfile) (file :: rest))
      with (if kept hide_dotfile file
            then file :: List.filter (kept hide_dotfile) rest
            else List.filter (kept hide_dotfile) rest).
    destruct (kept hide_dotfile file) eqn:Hk; [|eauto].
    destruct (kept_stat _ _ Hk) as [st Hst].
    rewrite (count_type_cons "dir"), (count_type_cons "file").
    change (total_size (file :: List.filter (kept hide_dotfile) rest))
      with (size_of file + total_size (List.filter (kept hide_dotfile) rest)).
    unfold size_of, File_size. rewrite Hst.
    destruct (File_type_cases file st Hst) as [(-> & -> & ->)|(-> & -> & ->)];
      unfold total_add; cbn [mbind result_bind].
    + rewrite Hd. cbn [mbind result_bind].
      rewrite lookup_insert_ne by discriminate. rewrite Hs.
      edestruct (IH (contents ++ [file])
                    (<["size" := s + st_size st]> (<["dir" := d + 1]> total)))
        as (total' & Hrun & H1 & H2 & H3).
      * apply lookup_insert_eq.
      * rewrite lookup_insert_ne by discriminate. apply lookup_insert_eq.
      * rewrite !lookup_insert_ne by discriminate. exact Hf.
      * exists total'. cbn [mbind result_bind]. rewrite Hrun, <- app_assoc.
        rewrite H1, H2, H3. repeat split; f_equal; lia.
    + rewrite Hf. cbn [mbind result_bind].
      rewrite lookup_insert_ne by discriminate. rewrite Hs.
      edestruct (IH (contents ++ [file])
                    (<["size" := s + st_size st]> (<["file" := f + 1]> total)))
        as (total' & Hrun & H1 & H2 & H3).
      * apply lookup_insert_eq.
      * rewrite !lookup_insert_ne by discriminate. exact Hd.
      * rewrite lookup_insert_ne by discriminate. apply lookup_insert_eq.
      * exists total'. cbn [mbind result_bind]. rewrite Hrun, <- app_assoc.
        rewrite H1, H2, H3. repeat split; f_equal; lia.
Qed.

Lemma insert_by_key_perm {A} (key : A -> pyval) (x : A) (l r : list A) :
  insert_by_key key x l = Ok r -> Permutation r (x :: l).
Proof.
  revert r. induction l as [|y ys IH]; intros r; simpl.
  - intros [= <-]. reflexivity.
  - destruct (py_lt (key y) (key x)) as [[|]|e]; cbn [mbind result_bind];
      try discriminate.
    + destruct (insert_by_key key x ys) as [r'|e]; cbn [mbind result_bind];
        [|discriminate].
      intros [= <-]. rewrite (IH r' eq_refl). apply perm_swap.
    + intros [= <-]. reflexivity.
Qed.

Lemma stable_sort_perm {A} (key : A -> pyval) (l r : list A) :
  stable_sort key l = Ok r -> Permutation r l.
Proof.
  revert r. induction l as [|x xs IH]; intros r; simpl.
  - intros [= <-]. reflexivity.
  - destruct (stable_sort key xs) as [s|e]; cbn [mbind result_bind]; [|discriminate].
    intros Hins. rewrite (insert_by_key_perm _ _ _ _ Hins), (IH s eq_refl).
    reflexivity.
Qed.

Lemma sorted_contents_perm (contents out : list File) (sorting : option string) :
  sorted_contents contents sorting = Ok out -> Permutation out contents.
Proof.
  unfold sorted_contents, sorted. destruct sorting as [sorting|]; [|intros [= <-]; reflexivity].
  destruct (bool_decide (sorting = EmptyString)); [intros [= <-]; reflexivity|].
  destruct (startswith sorting "-").
  - destruct (stable_sort _ (List.rev contents)) as [r|e] eqn:Hs;
      cbn [mbind result_bind]; [|discriminate].
    intros [= <-]. rewrite <- Permutation_rev, (stable_sort_perm _ _ _ Hs).
    symmetry. apply Permutation_rev.
  - apply stable_sort_perm.
Qed.

Lemma paginate_elem_of {A} (contents : list A) (page page_size : pyval) (x : A) :
  x ∈ paginate contents page page_size -> x ∈ contents.
Proof.
  unfold paginate, py_slice.
  destruct (py_int page); [|auto]. destruct (py_int page_size); [|auto].
  intros Hx.
  eapply elem_of_sublist; [exact Hx|].
  etransitivity; [apply sublist_take | apply sublist_drop].
Qed.

(** C8. Whatever the iterator yields, the loop of [get] runs to its end; it
    emits exactly the entries that are not on the deny-list, are not hidden
    dot files, and have readable metadata, and its totals are the sum of the
    sizes and the numbers of directories and files of exactly those entries.
    An entry with unreadable metadata is in neither.  [get] renders these
    totals, and the page it renders is drawn from these entries. *)
Theorem listing_totals (hide_dotfile : string) (iterator : list File) :
  let visible := List.filter (kept hide_dotfile) iterator in
  exists total,
    listing_loop hide_dotfile iterator []
                 (<["file" := 0]> (<["dir" := 0]> (<["size" := 0]> ∅)))
      = Ok (visible, total)
    /\ total !! "size" = Some (total_size visible)
    /\ total !! "dir" = Some (count_type "dir" visible)
    /\ total !! "file" = Some (count_type "file" visible)
    /\ count_type "dir" visible + count_type "file" visible = len visible
    /\ Forall (fun f => is_Some (stat f)) visible
    /\ (forall f, stat f = None -> f ∉ visible)
    /\ forall (root : string) (w : World) (request : Request) (p : string),
         hide_dotfile
           = default (default "no" (dict_get (cookies request) "hide-dotfile"))
                     (dict_get (args request) "hide-dotfile") ->
         os_path_isdir w (os_path_join root [p]) = true ->
         (if bool_decide (dict_get (args request) "recursive" = Some "yes")
          then Ok (iter_recursive_files w (os_path_join root [p]))
          else iter_files w (os_path_join root [p])) = Ok iterator ->
         get root w request p =
           (contents ← sorted_contents visible (dict_get (args request) "sorting");
            Ok (set_cookie
                  (make_response
                     (BTemplate "index.html"
                        {| ctx_path := p;
                           ctx_page := get_page request;
                           ctx_page_size := get_page_size request;
                           ctx_contents :=
                             paginate contents (VInt (get_page request))
                                      (VInt (get_page_size request));
                           ctx_total := total;
                           ctx_hide_dotfile := hide_dotfile;
                           ctx_recursive :=
                             bool_decide (dict_get (args request) "recursive"
                                          = Some "yes") |})
                     200)
                  "hide-dotfile" hide_dotfile 16070400))
         /\ forall contents f,
              sorted_contents visible (dict_get (args request) "sorting") = Ok contents ->
              f ∈ paginate contents (VInt (get_page request))
                           (VInt (get_page_size request)) ->
              f ∈ visible /\ is_Some (stat f).
Proof.
  intros visible.
  destruct (listing_loop_acc hide_dotfile iterator []
              (<["file" := 0]> (<["dir" := 0]> (<["size" := 0]> ∅))) 0 0 0)
    as (total & Hrun & Hs & Hd & Hf); try reflexivity.
  change ([] ++ List.filter (kept hide_dotfile) iterator) with visible in Hrun.
  assert (Hall : Forall (fun f => is_Some (stat f)) visible).
  { apply List.Forall_forall. intros f Hin.
    apply List.filter_In in Hin as [_ Hk]. exact (kept_stat _ _ Hk). }
  exists total.
  split; [exact Hrun|]. split; [exact Hs|]. split; [exact Hd|]. split; [exact Hf|].
  split; [|split; [exact Hall|split]].
  - clear -Hall. induction Hall as [|f l [st Hst] _ IH].
    + reflexivity.
    + rewrite !count_type_cons.
      change (len (f :: l)) with (Z.of_nat (S (List.length l))).
      unfold len in IH.
      destruct (File_type_cases f st Hst) as [(_ & -> & ->)|(_ & -> & ->)]; lia.
  - intros f Hnone Hin.
    rewrite List.Forall_forall in Hall.
    apply list_elem_of_In in Hin. destruct (Hall f Hin) as [st Hst]. congruence.
  - intros root w request p Hhide Hisdir Hiter. split.
    + unfold get. rewrite Hisdir, Hiter, <- Hhide. cbn [mbind result_bind].
      rewrite Hrun. cbn [mbind result_bind]. fold visible.
      destruct (sorted_contents visible _); reflexivity.
    + intros contents f Hsort Hin.
      apply paginate_elem_of in Hin.
      rewrite (sorted_contents_perm _ _ _ Hsort) in Hin.
      split; [exact Hin|].
      rewrite List.Forall_forall in Hall. apply Hall, list_elem_of_In, Hin.
Qed.

Lemma listing_totals_witness :
  exists total : gmap string Z,
    total !! "size" = Some 5096
    /\ total !! "dir" = Some 1
    /\ total !! "file" = Some 1
    /\ get sample_root sample_world plain_request "" =
         Ok (set_cookie
               (make_response
                  (BTemplate "index.html"
                     {| ctx_path := EmptyString; ctx_page := 0; ctx_page_size := 100;
                        ctx_contents :=
                          [{| path := "/srv/files/a.bin"; name := "a.bin";
                              stat := Some (sample_stat 33188 1000) |};
                           {| path := "/srv/files/docs"; name := "docs";
                              stat := Some (sample_stat 16877 4096) |}];
                        ctx_total := total;
                        ctx_hide_dotfile := "no";
                        ctx_recursive := false |})
                  200)
               "hide-dotfile" "no" 16070400).
Proof.
  destruct (listing_totals "no"
              [File_init sample_world "/srv/files/a.bin" "/srv/files/";
               File_init sample_world "/srv/files/lost" "/srv/files/";
               File_init sample_world "/srv/files/docs" "/srv/files/";
               File_init sample_world "/srv/files/.git" "/srv/files/"])
    as (total & _ & Hs & Hd & Hf & _ & _ & _ & Hget).
  destruct (Hget sample_root sample_world plain_request EmptyString
                 eq_refl eq_refl eq_refl) as [Hrun _].
  exists total. split; [exact Hs|]. split; [exact Hd|]. split; [exact Hf|].
  exact Hrun.
Defined.

(** ** Uploads *)

Lemma info_set (info : list (string * string)) (s m : string) :
  info_shape info ->
  dict_set (dict_set info "status" s) "msg" m = [("status", s); ("msg", m)].
Proof. intros [->|(s' & m' & ->)]; reflexivity. Qed.

Lemma save_files_app (w : World) (path : string) (a b : list FileStorage)
    (info : list (string * string)) :
  save_files w path (a ++ b) info =
    save_files (fst (save_files w path a info)) path b
               (snd (save_files w path a info)).
Proof.
  revert w info. induction a as [|file a IH]; intros w info; simpl; [reflexivity|].
  destruct (save_to w _ _); apply IH.
Qed.

Lemma save_files_shape (w : World) (path : string) (uploads : list FileStorage)
    (info : list (string * string)) :
  info_shape info -> info_shape (snd (save_files w path uploads info)).
Proof.
  revert w info. induction uploads as [|file rest IH]; intros w info Hshape; simpl.
  - exact Hshape.
  - destruct (save_to w _ _); apply IH; rewrite (info_set _ _ _ Hshape);
      right; eauto.
Qed.

(** C10, as the code has it.  [post] answers 200 whatever happens.  When
    the target is not a directory nothing is written and the body is the
    JSON object with status [error] and message [Invalid Operation].  On a
    directory the body tells the outcome of the last uploaded file only:
    the object with status [error] and message [str(e)] when its save raises
    [e], the success object when its save succeeds, whatever happened to the
    files before it; without any uploaded file the body is the empty
    object. *)
Theorem post_status_is_200 (root : string) (w : World) (request : Request)
    (p : string) :
  let path := os_path_join root [p] in
  let uploads := dict_getlist (files request) "files[]" in
  status (fst (post root w request p)) = 200
  /\ resp_headers (fst (post root w request p)) = [("Content-type", "application/json")]
  /\ (exists info, body (fst (post root w request p)) = BText (json_encode info))
  /\ (os_path_isdir w path = false ->
        body (fst (post root w request p))
          = BText (json_encode [("status", "error"); ("msg", "Invalid Operation")])
        /\ snd (post root w request p) = w)
  /\ (os_path_isdir w path = true ->
        forall (before : list FileStorage) (file : FileStorage) (e : exn),
          uploads = before ++ [file] ->
          let w1 := fst (save_files w path before []) in
          save_to w1 (os_path_join path [secure_filename w1 (filename file)])
                  (stream file) = Raise e ->
          body (fst (post root w request p))
            = BText (json_encode [("status", "error"); ("msg", str_exn e)]))
  /\ (os_path_isdir w path = true ->
        forall (before : list FileStorage) (file : FileStorage) (w2 : World),
          uploads = before ++ [file] ->
          let w1 := fst (save_files w path before []) in
          save_to w1 (os_path_join path [secure_filename w1 (filename file)])
                  (stream file) = Ok w2 ->
          body (fst (post root w request p))
            = BText (json_encode [("status", "success"); ("msg", "File Saved")]))
  /\ (os_path_isdir w path = true -> uploads = [] ->
        body (fst (post root w request p)) = BText "{}").
Proof.
  intros path uploads. unfold post. fold path. fold uploads.
  destruct (os_path_isdir w path) eqn:Hdir.
  - destruct (save_files w path uploads []) as [w' info] eqn:Hsave.
    simpl. repeat split; try discriminate; eauto.
    + intros _ before file e Hup Hraise.
      f_equal. f_equal.
      rewrite Hup, save_files_app in Hsave.
      simpl in Hsave. rewrite Hraise in Hsave.
      rewrite info_set in Hsave by (apply save_files_shape; left; reflexivity).
      simpl in Hsave. congruence.
    + intros _ before file w2 Hup Hok.
      f_equal. f_equal.
      rewrite Hup, save_files_app in Hsave.
      simpl in Hsave. rewrite Hok in Hsave.
      rewrite info_set in Hsave by (apply save_files_shape; left; reflexivity).
      simpl in Hsave. congruence.
    + intros _ Hup. rewrite Hup in Hsave. injection Hsave as <- <-. reflexivity.
  - simpl. repeat split; try discriminate; eauto.
Qed.

Lemma post_status_is_200_witness :
  status (fst (post sample_root sample_world (upload_request "x" [x41]) "a.bin")) = 200
  /\ body (fst (post sample_root sample_world (upload_request "x" [x41]) "a.bin"))
     = BText (json_encode [("status", "error"); ("msg", "Invalid Operation")]).
Proof.
  destruct (post_status_is_200 sample_root sample_world
              (upload_request "x" [x41]) "a.bin") as (H1 & _ & _ & H4 & _).
  split; [exact H1|]. apply H4. reflexivity.
Defined.

(** C10 as stated fails: the failure of a save is not reported when another
    file follows.  The first of two uploads cannot be saved, the second can,
    and the body tells of success only. *)
Lemma earlier_save_failure_is_not_reported :
  save_to sample_world
          (os_path_join (os_path_join sample_root [EmptyString])
                        [secure_filename sample_world "../.."])
          [x41]
  = Raise (EISDIR "/srv/files/")
  /\ fst (post sample_root sample_world
               {| args := []; cookies := []; headers := [];
                  files := [("files[]", {| filename := "../.."; stream := [x41] |});
                            ("files[]", {| filename := "x"; stream := [x42] |})] |}
               EmptyString)
     = {| status := 200;
          body := BText (json_encode [("status", "success"); ("msg", "File Saved")]);
          mimetype := None; direct_passthrough := false;
          resp_headers := [("Content-type", "application/json")];
          resp_cookies := [] |}.
Proof. split; reflexivity. Qed.

(** ** Comparison of sort keys *)

Lemma string_compare_refl (s : string) : String.compare s s = Eq.
Proof.
  destruct (String.compare s s) eqn:H; [reflexivity| |];
    pose proof (String.compare_antisym s s) as Ha; rewrite H in Ha; discriminate.
Qed.

Lemma string_compare_lt_trans (a b c : string) :
  String.compare a b = Lt -> String.compare b c = Lt -> String.compare a c = Lt.
Proof.
  intros H1 H2.
  apply String_as_OT.cmp_lt. apply String_as_OT.cmp_lt in H1, H2.
  exact (String_as_OT.lt_trans _ _ _ H1 H2).
Qed.

Section KeyOrder.
Context (K : key_kind).

Lemma py_compare_total (a b : pyval) :
  has_kind K a -> has_kind K b ->
  exists c, py_compare a b = Some c /\ py_compare b a = Some (CompOpp c).
Proof.
  destruct K, a, b; simpl; try contradiction; intros _ _; eexists; split;
    try reflexivity; f_equal.
  - apply Z.compare_antisym.
  - symmetry. apply Qcompare_antisym.
  - apply String.compare_antisym.
Qed.

Lemma key_le_trans (a b c : pyval) :
  has_kind K a -> has_kind K b -> has_kind K c ->
  key_le a b -> key_le b c -> key_le a c.
Proof.
  unfold key_le.
  destruct K, a, b, c; simpl; try contradiction; intros _ _ _ H1 H2.
  - destruct (Z.compare_spec z z0); destruct (Z.compare_spec z0 z1);
      destruct (Z.compare_spec z z1); auto; try lia;
      destruct H1 as [H1|H1]; try discriminate H1;
      destruct H2 as [H2|H2]; discriminate H2.
  - assert (Ha : (q <= q0)%Q)
      by (apply Qle_alt; destruct H1 as [H|H]; injection H as ->; discriminate).
    assert (Hb : (q0 <= q1)%Q)
      by (apply Qle_alt; destruct H2 as [H|H]; injection H as ->; discriminate).
    pose proof (proj1 (Qle_alt _ _) (Qle_trans _ _ _ Ha Hb)) as Hc.
    destruct (Qcompare q q1) eqn:E; auto. congruence.
  - destruct H1 as [H1|H1]; injection H1 as H1;
      destruct H2 as [H2|H2]; injection H2 as H2.
    + left. f_equal. exact (string_compare_lt_trans _ _ _ H1 H2).
    + apply String.compare_eq_iff in H2. subst. left. congruence.
    + apply String.compare_eq_iff in H1. subst. left. congruence.
    + apply String.compare_eq_iff in H1, H2. subst. right.
      f_equal. apply string_compare_refl.
Qed.

(** Two keys equivalent to the same value are equivalent. *)
Lemma same_key_join (a b k : pyval) :
  has_kind K a -> has_kind K b ->
  same_key a k = true -> same_key b k = true ->
  py_compare b a = Some Eq.
Proof.
  unfold same_key.
  destruct K, a, b; simpl; try contradiction; intros _ _; destruct k; simpl;
    try discriminate; intros H1 H2; f_equal.
  - destruct (Z.compare_spec z z1); try discriminate.
    destruct (Z.compare_spec z0 z1); try discriminate.
    subst. apply Z.compare_refl.
  - destruct (Qcompare_spec (inject_Z z) q) as [Ha| |]; try discriminate.
    destruct (Qcompare_spec (inject_Z z0) q) as [Hb| |]; try discriminate.
    rewrite <- Hb in Ha. apply Qeq_alt in Ha. simpl in Ha.
    unfold Qcompare in Ha. simpl in Ha. rewrite !Z.mul_1_r in Ha.
    apply Z.compare_eq_iff in Ha. subst. apply Z.compare_refl.
  - destruct (Qcompare_spec q (inject_Z z)) as [Ha| |]; try discriminate.
    destruct (Qcompare_spec q0 (inject_Z z)) as [Hb| |]; try discriminate.
    apply Qeq_alt. rewrite Ha, Hb. reflexivity.
  - destruct (Qcompare_spec q q1) as [Ha| |]; try discriminate.
    destruct (Qcompare_spec q0 q1) as [Hb| |]; try discriminate.
    apply Qeq_alt. rewrite Ha, Hb. reflexivity.
  - destruct (String.compare s s1) eqn:Ha; try discriminate.
    destruct (String.compare s0 s1) eqn:Hb; try discriminate.
    apply String.compare_eq_iff in Ha, Hb. subst. apply string_compare_refl.
Qed.
End KeyOrder.

(** ** Sorting *)

Lemma StronglySorted_snoc {A} (R : A -> A -> Prop) (l : list A) (a : A) :
  StronglySorted R l -> Forall (fun x => R x a) l -> StronglySorted R (l ++ [a]).
Proof.
  induction 1 as [|x l Hs IH Hx]; intros Hall; simpl.
  - repeat constructor.
  - apply Forall_cons_1 in Hall as [Hxa Hall].
    constructor; [exact (IH Hall)|].
    apply Forall_app. split; [exact Hx | constructor; [exact Hxa | constructor]].
Qed.

Lemma StronglySorted_rev {A} (R : A -> A -> Prop) (l : list A) :
  StronglySorted R l -> StronglySorted (fun a b => R b a) (List.rev l).
Proof.
  induction 1 as [|x l Hs IH Hx]; simpl.
  - constructor.
  - apply StronglySorted_snoc; [exact IH|].
    apply List.Forall_forall. intros y Hy.
    rewrite List.Forall_forall in Hx. apply Hx, List.in_rev, Hy.
Qed.

Section StableSort.
Context {A : Type} (key : A -> pyval) (K : key_kind).

Local Abbreviation kinded := (kinded key K).
Local Abbreviation le := (key_order key).
Local Abbreviation eqv := (key_class key).

Lemma insert_by_key_spec (x : A) (l : list A) :
  kinded x -> Forall kinded l ->
  exists r, insert_by_key key x l = Ok r
    /\ Permutation r (x :: l)
    /\ (StronglySorted le l -> StronglySorted le r)
    /\ forall k, List.filter (eqv k) r = List.filter (eqv k) (x :: l).
Proof.
  intros Hx. induction 1 as [|y ys Hy Hys IH].
  - exists [x]. repeat split; auto. repeat constructor.
  - destruct (py_compare_total K (key y) (key x) Hy Hx) as (c & Hyx & Hxy).
    assert (Hle : c <> Lt -> StronglySorted le (y :: ys) ->
                  StronglySorted le (x :: y :: ys)).
    { intros Hc Hs. constructor; [exact Hs|].
      assert (Hxy' : le x y)
        by (unfold key_order, key_le; rewrite Hxy; destruct c; simpl; auto; congruence).
      constructor; [exact Hxy'|].
      apply StronglySorted_inv in Hs as [_ Hall].
      rewrite List.Forall_forall in Hall, Hys |- *. intros z Hz.
      exact (key_le_trans K _ _ _ Hx Hy (Hys z Hz) Hxy' (Hall z Hz)). }
    simpl. unfold py_lt. rewrite Hyx.
    destruct c; cbn [mbind result_bind].
    + exists (x :: y :: ys). repeat split; auto.
    + destruct IH as (r & -> & Hperm & Hsorted & Hfilter).
      exists (y :: r). cbn [mbind result_bind]. repeat split.
      * rewrite Hperm. apply perm_swap.
      * intros Hs. apply StronglySorted_inv in Hs as [Hs Hall].
        constructor; [exact (Hsorted Hs)|].
        apply (Permutation_Forall (Permutation_sym Hperm)).
        constructor; [|exact Hall]. left. exact Hyx.
      * intros k. simpl. rewrite Hfilter. simpl.
        destruct (eqv k y) eqn:Ey; [|reflexivity].
        destruct (eqv k x) eqn:Ex; [|reflexivity].
        pose proof (same_key_join K _ _ k Hx Hy Ex Ey). congruence.
    + exists (x :: y :: ys). repeat split; auto.
Qed.

Lemma stable_sort_spec (l : list A) :
  Forall kinded l ->
  exists r, stable_sort key l = Ok r
    /\ Permutation r l
    /\ StronglySorted le r
    /\ forall k, List.filter (eqv k) r = List.filter (eqv k) l.
Proof.
  induction 1 as [|x xs Hx Hxs IH].
  - exists []. repeat split; auto. constructor.
  - destruct IH as (s & Hrun & Hperm & Hsorted & Hfilter).
    destruct (insert_by_key_spec x s Hx) as (r & Hins & Hperm' & Hsorted' & Hfilter').
    { exact (Permutation_Forall (Permutation_sym Hperm) Hxs). }
    exists r. simpl. rewrite Hrun. cbn [mbind result_bind].
    repeat split; auto.
    + rewrite Hperm'. constructor. exact Hperm.
    + intros k. rewrite Hfilter'. simpl. rewrite Hfilter. reflexivity.
Qed.

Lemma sorted_spec (l : list A) (reverse : bool) :
  Forall kinded l ->
  exists r, sorted key l reverse = Ok r
    /\ Permutation r l
    /\ StronglySorted (fun a b => if reverse then le b a else le a b) r
    /\ forall k, List.filter (eqv k) r = List.filter (eqv k) l.
Proof.
  intros Hl. unfold sorted. destruct reverse.
  - destruct (stable_sort_spec (List.rev l))
      as (s & -> & Hperm & Hsorted & Hfilter).
    { apply List.Forall_rev, Hl. }
    exists (List.rev s). cbn [mbind result_bind]. repeat split.
    + rewrite <- Permutation_rev, Hperm. symmetry. apply Permutation_rev.
    + apply StronglySorted_rev, Hsorted.
    + intros k. rewrite filter_rev, Hfilter, filter_rev. apply rev_involutive.
  - apply stable_sort_spec, Hl.
Qed.
End StableSort.







Lemma supported_key_kind (key : string) :
  key ∈ supported_keys ->
  lstrip_char "-"%char ("-" +:+ key) = key
  /\ lstrip_char "-"%char key = key
  /\ key <> EmptyString
  /\ exists K, forall f, is_Some (stat f) -> has_kind K (File_getattr f key).
Proof.
  unfold supported_keys. intros Hin.
  repeat (apply elem_of_cons in Hin as [->|Hin]);
    [| | | | apply elem_of_nil in Hin; contradiction];
    repeat split; try discriminate.
  - exists KStr. intros f _. exact I.
  - exists KStr. intros f [st Hst]. unfold File_getattr, File_type. simpl.
    rewrite Hst. destruct (negb _ && _); exact I.
  - exists KInt. intros f [st Hst]. unfold File_getattr, File_size. simpl.
    rewrite Hst. exact I.
  - exists KFloat. intros f [st Hst]. unfold File_getattr, File_mtime. simpl.
    rewrite Hst. exact I.
Qed.

(** C7. Sorting listed entries by a supported key, ascending or with the
    [-] prefix descending, returns the same entries in key order, and the
    entries whose keys compare equal keep the order they had in the input.
    Listed entries have readable metadata. *)
Theorem sorted_contents_is_stable (contents : list File) (key : string)
    (descending : bool) :
  key ∈ supported_keys ->
  Forall (fun f => is_Some (stat f)) contents ->
  exists out,
    sorted_contents contents (Some (if descending then "-" +:+ key else key)) = Ok out
    /\ Permutation out contents
    /\ StronglySorted
         (fun a b => if descending
                     then key_le (File_getattr b key) (File_getattr a key)
                     else key_le (File_getattr a key) (File_getattr b key)) out
    /\ forall k : pyval,
         List.filter (fun f => same_key (File_getattr f key) k) out
         = List.filter (fun f => same_key (File_getattr f key) k) contents.
Proof.
  intros Hkey Hstat.
  destruct (supported_key_kind key Hkey) as (Hstrip & Hstrip' & Hne & K & HK).
  assert (Hkinds : Forall (fun f => has_kind K (File_getattr f key)) contents).
  { apply List.Forall_forall. rewrite List.Forall_forall in Hstat.
    intros f Hf. apply HK, Hstat, Hf. }
  destruct (sorted_spec (fun f => File_getattr f key) K contents descending Hkinds)
    as (out & Hrun & Hperm & Hsorted & Hfilter).
  exists out. split; [|auto].
  unfold sorted_contents. destruct descending.
  - rewrite bool_decide_eq_false_2 by discriminate.
    rewrite Hstrip.
    replace (startswith ("-" +:+ key) "-") with true
      by (symmetry; apply (startswith_head "-"%char key)).
    exact Hrun.
  - rewrite bool_decide_eq_false_2 by exact Hne.
    rewrite Hstrip'.
    replace (startswith key "-") with false; [exact Hrun|].
    clear -Hkey. unfold supported_keys in Hkey.
    repeat (apply elem_of_cons in Hkey as [->|Hkey]); try reflexivity.
    apply elem_of_nil in Hkey. contradiction.
Qed.

Lemma sorted_contents_is_stable_witness :
  exists out,
    sorted_contents three_sizes (Some "-size") = Ok out
    /\ out = [sized_file "c" 20; sized_file "a" 10; sized_file "b" 5]
    /\ Permutation out three_sizes.
Proof.
  destruct (sorted_contents_is_stable three_sizes "size" true)
    as (out & Hrun & Hperm & _).
  - decide_prop.
  - repeat constructor; eexists; reflexivity.
  - exists out. split; [exact Hrun|]. split; [|exact Hperm].
    vm_compute in Hrun. injection Hrun as <-. reflexivity.
Defined.

(** ** Paths *)

Lemma split_char_not_nil (c : ascii) (s : string) : split_char c s <> [].
Proof.
  induction s as [|a s IH]; simpl; [discriminate|].
  destruct (bool_decide (a = c)); [discriminate|].
  destruct (split_char c s); discriminate.
Qed.

Lemma split_char_app (c : ascii) (a b : string) :
  split_char c (a +:+ String c b) = split_char c a ++ split_char c b.
Proof.
  induction a as [|x a IH]; simpl.
  - rewrite bool_decide_eq_true_2 by reflexivity. reflexivity.
  - destruct (bool_decide (x = c)); [rewrite IH; reflexivity|].
    rewrite IH. pose proof (split_char_not_nil c a) as Hne.
    destruct (split_char c a); [contradiction | reflexivity].
Qed.

Lemma split_char_no_sep (c : ascii) (s : string) :
  contains_char c s = false -> split_char c s = [s].
Proof.
  induction s as [|a s IH]; simpl; [reflexivity|].
  intros H. apply orb_false_elim in H as [Ha Hs].
  rewrite Ha, (IH Hs). reflexivity.
Qed.

Lemma endswith_char_app (s : string) (c : ascii) :
  endswith_char s c = true -> exists s', s = s' +:+ str1 c.
Proof.
  induction s as [|a s IH]; simpl; [discriminate|].
  destruct s as [|b s].
  - intros H. apply bool_decide_eq_true in H. subst. exists EmptyString. reflexivity.
  - intros H. destruct (IH H) as [s' ->]. exists (String a s'). reflexivity.
Qed.

Lemma append_assoc (a b c : string) : (a +:+ b) +:+ c = a +:+ (b +:+ c).
Proof.
  induction a as [|x a IH]; [reflexivity|].
  change (String x ((a +:+ b) +:+ c) = String x (a +:+ (b +:+ c))).
  rewrite IH. reflexivity.
Qed.

Lemma startswith_app (a b : string) (p : ascii) :
  a <> EmptyString -> startswith (a +:+ b) (str1 p) = startswith a (str1 p).
Proof.
  destruct a as [|x a]; [contradiction|]. intros _.
  rewrite !startswith_char. reflexivity.
Qed.

(** The components of [os.path.join(path, b)] for a relative [b]: those of
    [path], without the empty one a trailing separator leaves, then those of
    [b]. *)
Lemma split_join2 (path b : string) :
  path <> EmptyString -> startswith b (str1 sep) = false ->
  exists pre,
    join2 path b <> EmptyString
    /\ startswith (join2 path b) (str1 sep) = startswith path (str1 sep)
    /\ split_char sep (join2 path b) = pre ++ split_char sep b
    /\ (split_char sep path = pre \/ split_char sep path = pre ++ [EmptyString]).
Proof.
  intros Hne Hb. unfold join2. rewrite Hb.
  rewrite (bool_decide_eq_false_2 _ Hne). simpl.
  destruct (endswith_char path sep) eqn:Hend.
  - destruct (endswith_char_app _ _ Hend) as [path' ->].
    exists (split_char sep path').
    rewrite append_assoc. change (str1 sep +:+ b) with (String sep b).
    repeat split.
    + destruct path'; discriminate.
    + rewrite !startswith_char. destruct path'; reflexivity.
    + apply split_char_app.
    + right. apply (split_char_app sep path' EmptyString).
  - exists (split_char sep path).
    change (str1 sep +:+ b) with (String sep b).
    repeat split.
    + destruct path; [contradiction | discriminate].
    + apply startswith_app, Hne.
    + apply split_char_app.
    + left. reflexivity.
Qed.

Lemma follow_not_link (w : World) (loc : location) :
  is_link_at w loc = false -> follow w loc = loc.
Proof.
  unfold is_link_at, follow. intros H. apply bool_decide_eq_false in H.
  destruct (link_target w loc); [exfalso; apply H; eauto | reflexivity].
Qed.

Lemma dir_not_link (w : World) (loc : location) :
  is_dir_at (fs w) loc = true -> link_target w loc = None.
Proof.
  unfold is_dir_at, node_is_dir, link_target.
  destruct (fs_lookup (fs w) loc) as [n|]; [|reflexivity].
  destruct (n_stat n); [reflexivity | discriminate].
Qed.

Lemma follow_dir (w : World) (loc : location) :
  is_dir_at (fs w) loc = true -> follow w loc = loc.
Proof. intros H. unfold follow. rewrite (dir_not_link w loc H). reflexivity. Qed.

Section Walk.
Context (w : World).

Lemma walk_path_app (cur : location) (a b : list string) :
  walk_path w cur (a ++ b) =
    match walk_path w cur a with
    | Some c => walk_path w c b
    | None => None
    end.
Proof.
  revert cur. induction a as [|s a IH]; intros cur; simpl; [reflexivity|].
  destruct (is_dir_at (fs w) cur); [apply IH | reflexivity].
Qed.

Lemma walk_path_empty_seg (cur c : location) (pre : list string) :
  walk_path w cur (pre ++ [EmptyString]) = Some c ->
  walk_path w cur pre = Some c /\ is_dir_at (fs w) c = true.
Proof.
  rewrite walk_path_app. destruct (walk_path w cur pre) as [c'|]; [|discriminate].
  simpl. destruct (is_dir_at (fs w) c') eqn:Hd; [|discriminate].
  change (step_to c' EmptyString) with c'. rewrite (follow_dir w c' Hd).
  intros [= <-]. split; [reflexivity | exact Hd].
Qed.

(** A walk that starts [stack] below [base], never climbs above [base] and
    finds no symbolic link below it, ends below [base]. *)
Lemma walk_path_below (base stack loc : location) (segs : list string) :
  (forall k, base `prefix_of` k -> is_link_at w k = false) ->
  climbs_above (List.length stack) segs = false ->
  walk_path w (base ++ stack) segs = Some loc -> base `prefix_of` loc.
Proof.
  intros Hno. revert stack. induction segs as [|s segs IH]; intros stack; simpl.
  - intros _ [= <-]. apply prefix_app_r. reflexivity.
  - destruct (is_dir_at (fs w) (base ++ stack)); [|discriminate].
    unfold step_to.
    destruct (bool_decide (s = EmptyString) || bool_decide (s = ".")).
    + rewrite follow_not_link by (apply Hno, prefix_app_r; reflexivity).
      apply IH.
    + destruct (bool_decide (s = "..")).
      * destruct stack as [|x stack] using rev_ind; [discriminate|].
        rewrite length_app, Nat.add_comm. simpl.
        rewrite app_assoc, removelast_last.
        rewrite follow_not_link by (apply Hno, prefix_app_r; reflexivity).
        apply IH.
      * rewrite <- app_assoc.
        rewrite follow_not_link by (apply Hno, prefix_app_r; reflexivity).
        replace (S (List.length stack)) with (List.length (stack ++ [s]))
          by (rewrite length_app, Nat.add_comm; reflexivity).
        apply IH.
Qed.
End Walk.

(** Walks in worlds with the same directories and the same links agree. *)
Lemma walk_path_mono (w w' : World) (cur loc : location) (segs : list string) :
  (forall k, is_dir_at (fs w) k = true -> is_dir_at (fs w') k = true) ->
  (forall k, link_target w' k = link_target w k) ->
  walk_path w cur segs = Some loc -> walk_path w' cur segs = Some loc.
Proof.
  intros Hmono Hlinks. revert cur. induction segs as [|s segs IH]; intros cur; simpl.
  - auto.
  - destruct (is_dir_at (fs w) cur) eqn:Hd; [|discriminate].
    rewrite (Hmono _ Hd). unfold follow. rewrite Hlinks. apply IH.
Qed.

Lemma resolve_eq (w : World) (path : string) :
  path <> EmptyString ->
  resolve w path = walk_path w (start_of w path) (split_char sep path).
Proof.
  intros Hne. unfold resolve, start_of.
  rewrite (bool_decide_eq_false_2 _ Hne).
  destruct (startswith path (str1 sep)); reflexivity.
Qed.

Lemma resolve_not_empty (w : World) (path : string) (loc : location) :
  resolve w path = Some loc -> path <> EmptyString.
Proof. intros H ->. discriminate. Qed.

(** Resolving [os.path.join(path, b)] continues from where [path] leads. *)
Lemma resolve_join2 (w : World) (path b : string) (dirloc : location) :
  startswith b (str1 sep) = false ->
  resolve w path = Some dirloc ->
  resolve w (join2 path b) = walk_path w dirloc (split_char sep b).
Proof.
  intros Hb Hres. pose proof (resolve_not_empty _ _ _ Hres) as Hne.
  destruct (split_join2 path b Hne Hb) as (pre & Hjne & Hstart & Hsplit & Hpre).
  rewrite (resolve_eq _ _ Hne) in Hres. rewrite (resolve_eq _ _ Hjne).
  unfold start_of in *. rewrite Hstart, Hsplit, walk_path_app.
  destruct Hpre as [Hpre|Hpre]; rewrite Hpre in Hres.
  - rewrite Hres. reflexivity.
  - apply walk_path_empty_seg in Hres as [-> _]. reflexivity.
Qed.

Lemma isdir_resolve (w : World) (path : string) :
  os_path_isdir w path = true ->
  exists dirloc, resolve w path = Some dirloc /\ is_dir_at (fs w) dirloc = true.
Proof.
  unfold os_path_isdir, os_stat, find_node, is_dir_at, node_is_dir.
  destruct (resolve w path) as [loc|]; [|discriminate].
  destruct (fs_lookup (fs w) loc) as [n|] eqn:Hn; [|discriminate]. simpl.
  destruct (n_stat n) eqn:Hst; [|discriminate].
  intros Hd. exists loc. rewrite Hn, Hst. auto.
Qed.

Lemma resolve_isdir (w : World) (path : string) (dirloc : location) :
  resolve w path = Some dirloc -> is_dir_at (fs w) dirloc = true ->
  os_path_isdir w path = true.
Proof.
  unfold os_path_isdir, os_stat, find_node, is_dir_at, node_is_dir.
  intros ->. destruct (fs_lookup (fs w) dirloc) as [n|]; [|discriminate]. simpl.
  destruct (n_stat n); [|discriminate]. auto.
Qed.

(** ** Sanitized file names *)

Lemma lstrip_if_head (f : ascii -> bool) (s : list ascii) (c : ascii)
    (rest : list ascii) :
  lstrip_if f s = c :: rest -> f c = false.
Proof.
  induction s as [|a s IH]; simpl; [discriminate|].
  destruct (f a) eqn:Ha; [exact IH|]. intros [= <- _]. exact Ha.
Qed.

Lemma lstrip_if_Forall (P : ascii -> Prop) (f : ascii -> bool) (s : list ascii) :
  Forall P s -> Forall P (lstrip_if f s).
Proof.
  induction 1 as [|a s Ha Hs IH]; simpl; [constructor|].
  destruct (f a); [exact IH | constructor; assumption].
Qed.

Lemma contains_char_of_list (c : ascii) (s : list ascii) :
  Forall (fun a => a <> c) s -> contains_char c (string_of_list_ascii s) = false.
Proof.
  induction 1 as [|a s Ha Hs IH]; simpl; [reflexivity|].
  rewrite (bool_decide_eq_false_2 _ Ha). exact IH.
Qed.

(** The sanitized name has no separator and is neither [.] nor [..]. *)
Lemma secure_filename_safe (w : World) (fname : string) :
  contains_char sep (secure_filename w fname) = false
  /\ secure_filename w fname <> "."
  /\ secure_filename w fname <> "..".
Proof.
  unfold secure_filename, strip_if.
  set (s := List.filter is_filename_char _).
  set (u := lstrip_if is_dot_or_underscore (List.rev (lstrip_if is_dot_or_underscore s))).
  assert (Hhead : forall c rest, u = c :: rest -> is_dot_or_underscore c = false)
    by (intros c rest; apply lstrip_if_head).
  repeat split.
  - apply contains_char_of_list, List.Forall_rev, lstrip_if_Forall.
    apply List.Forall_rev, lstrip_if_Forall.
    apply List.Forall_forall. intros a Ha.
    apply List.filter_In in Ha as [_ Ha]. intros ->. discriminate.
  - intros H. apply (f_equal list_ascii_of_string) in H.
    rewrite list_ascii_of_string_of_list_ascii in H.
    apply (f_equal (@List.rev _)) in H. rewrite rev_involutive in H.
    simpl in H. specialize (Hhead _ _ H). discriminate.
  - intros H. apply (f_equal list_ascii_of_string) in H.
    rewrite list_ascii_of_string_of_list_ascii in H.
    apply (f_equal (@List.rev _)) in H. rewrite rev_involutive in H.
    simpl in H. specialize (Hhead _ _ H). discriminate.
Qed.

(** Where a sanitized name leads from the target directory. *)
Lemma resolve_upload (w : World) (path n : string) (dirloc : location) :
  resolve w path = Some dirloc -> is_dir_at (fs w) dirloc = true ->
  contains_char sep n = false -> n <> "." -> n <> ".." ->
  resolve w (os_path_join path [n]) =
    Some (if bool_decide (n = EmptyString) then dirloc
          else follow w (dirloc ++ [n])).
Proof.
  intros Hres Hdir Hsep Hdot Hdotdot. simpl.
  assert (Hb : startswith n (str1 sep) = false).
  { rewrite startswith_char. destruct n as [|a n]; [reflexivity|].
    simpl in Hsep. apply orb_false_elim in Hsep as [Ha _]. exact Ha. }
  rewrite (resolve_join2 w path n dirloc Hb Hres), (split_char_no_sep _ _ Hsep).
  simpl. rewrite Hdir. unfold step_to.
  destruct (bool_decide_reflect (n = EmptyString)) as [->|Hne].
  - simpl. rewrite (follow_dir w dirloc Hdir). reflexivity.
  - simpl. rewrite !bool_decide_eq_false_2 by assumption. reflexivity.
Qed.

(** ** Writes *)

Lemma fs_lookup_store (l : list (location * node)) (k k' : location) (n : node) :
  fs_lookup (fs_store l k n) k' =
    if bool_decide (k = k') then Some n else fs_lookup l k'.
Proof.
  induction l as [|[k0 n0] l IH]; simpl.
  - reflexivity.
  - destruct (bool_decide_reflect (k0 = k)) as [->|Hne]; simpl.
    + destruct (bool_decide (k = k')); reflexivity.
    + rewrite IH. destruct (bool_decide_reflect (k0 = k')) as [->|Hne'].
      * rewrite bool_decide_eq_false_2 by congruence. reflexivity.
      * reflexivity.
Qed.

Lemma writable_not_link (w : World) (loc : location) :
  writable_at (fs w) loc = true -> link_target w loc = None.
Proof.
  unfold writable_at, link_target.
  destruct (fs_lookup (fs w) loc) as [n|]; [|reflexivity].
  destruct (n_stat n); [reflexivity | discriminate].
Qed.

Lemma writable_follow (w : World) (loc : location) :
  writable_at (fs w) loc = true -> follow w loc = loc.
Proof. intros H. unfold follow. rewrite (writable_not_link w loc H). reflexivity. Qed.

(** A save that succeeds stores the bytes where the path leads, and that is
    neither a directory nor a symbolic link. *)
Lemma save_to_ok (w w' : World) (dst : string) (data : list byte) :
  save_to w dst data = Ok w' ->
  exists loc,
    resolve w dst = Some loc
    /\ is_dir_at (fs w) loc = false
    /\ writable_at (fs w) loc = true
    /\ w' = with_fs w (fs_store (fs w) loc
                         {| n_stat := Some (creat_stat w dst data); n_data := data |}).
Proof.
  unfold save_to.
  destruct (write_fault w dst); [discriminate|].
  destruct (resolve w dst) as [loc|]; [|discriminate].
  destruct (fs_lookup (fs w) loc) as [n|] eqn:Hn.
  - destruct (n_stat n) as [st|] eqn:Hst; [|discriminate].
    destruct (S_ISDIR (st_mode st)) eqn:Hd; [discriminate|].
    intros [= <-]. exists loc. unfold is_dir_at, node_is_dir, writable_at.
    rewrite Hn, Hst, Hd. auto.
  - intros [= <-]. exists loc. unfold is_dir_at, writable_at. rewrite Hn. auto.
Qed.

Lemma save_to_writable (w : World) (dst : string) (data : list byte)
    (loc : location) :
  write_fault w dst = None -> resolve w dst = Some loc ->
  writable_at (fs w) loc = true ->
  save_to w dst data =
    Ok (with_fs w (fs_store (fs w) loc
                     {| n_stat := Some (creat_stat w dst data); n_data := data |})).
Proof.
  unfold save_to, writable_at. intros -> ->.
  destruct (fs_lookup (fs w) loc) as [n|]; [|reflexivity].
  destruct (n_stat n) as [st|]; [|discriminate].
  destruct (S_ISDIR (st_mode st)); [discriminate | reflexivity].
Qed.

Lemma extends_refl (w : World) : extends w w.
Proof. repeat split. Qed.

Lemma extends_is_dir (w0 w : World) (k : location) :
  extends w0 w -> is_dir_at (fs w0) k = true -> is_dir_at (fs w) k = true.
Proof.
  intros (_ & _ & _ & _ & Hdirs & _) Hk. unfold is_dir_at in *.
  rewrite (Hdirs k Hk). exact Hk.
Qed.

Lemma extends_follow (w0 w : World) (k : location) :
  extends w0 w -> follow w k = follow w0 k.
Proof. intros (_ & _ & _ & _ & _ & Hlinks). unfold follow. rewrite Hlinks. reflexivity. Qed.

Lemma extends_resolve (w0 w : World) (path : string) (loc : location) :
  extends w0 w -> resolve w0 path = Some loc -> resolve w path = Some loc.
Proof.
  intros Hext Hres. pose proof (resolve_not_empty _ _ _ Hres) as Hne.
  rewrite (resolve_eq w0 _ Hne) in Hres. rewrite (resolve_eq w _ Hne).
  unfold start_of in *.
  pose proof (fun k => extends_is_dir w0 w k Hext) as Hmono.
  destruct Hext as (Hcwd & _ & _ & _ & _ & Hlinks). rewrite Hcwd.
  exact (walk_path_mono _ _ _ _ _ Hmono Hlinks Hres).
Qed.

Lemma extends_secure_filename (w0 w : World) (fname : string) :
  extends w0 w -> secure_filename w fname = secure_filename w0 fname.
Proof.
  intros (_ & Hn & _). unfold secure_filename, to_ascii. rewrite Hn. reflexivity.
Qed.

(** A write to a place that can be written leaves directories and links
    alone. *)
Lemma extends_store (w0 w : World) (loc : location) (st : stat_result)
    (data : list byte) :
  extends w0 w -> is_dir_at (fs w) loc = false -> writable_at (fs w) loc = true ->
  extends w0 (with_fs w (fs_store (fs w) loc {| n_stat := Some st; n_data := data |})).
Proof.
  intros Hext Hnd Hwr. pose proof (extends_is_dir w0 w loc Hext) as Hdir0.
  destruct Hext as (H1 & H2 & H3 & H4 & Hdirs & Hlinks).
  repeat split; try assumption.
  - intros k Hk. simpl. rewrite fs_lookup_store.
    destruct (decide (loc = k)) as [<-|Hneq].
    + rewrite (Hdir0 Hk) in Hnd. discriminate.
    + rewrite bool_decide_eq_false_2 by exact Hneq. exact (Hdirs k Hk).
  - intros k. rewrite <- Hlinks. unfold link_target. simpl. rewrite fs_lookup_store.
    destruct (decide (loc = k)) as [<-|Hneq].
    + rewrite bool_decide_eq_true_2 by reflexivity. simpl.
      symmetry. apply (writable_not_link w loc Hwr).
    + rewrite bool_decide_eq_false_2 by exact Hneq. reflexivity.
Qed.

(** One successful save below the target directory. *)
Lemma save_upload_ok (w0 w w2 : World) (path : string) (dirloc : location)
    (file : FileStorage) :
  resolve w0 path = Some dirloc -> is_dir_at (fs w0) dirloc = true ->
  extends w0 w ->
  save_to w (os_path_join path [secure_filename w (filename file)]) (stream file)
    = Ok w2 ->
  secure_filename w0 (filename file) <> EmptyString
  /\ extends w0 w2
  /\ forall loc, loc <> follow w0 (dirloc ++ [secure_filename w0 (filename file)]) ->
       fs_lookup (fs w2) loc = fs_lookup (fs w) loc.
Proof.
  intros Hres Hdir Hext Hsave.
  rewrite (extends_secure_filename _ _ _ Hext) in Hsave.
  set (n := secure_filename w0 (filename file)) in *.
  destruct (secure_filename_safe w0 (filename file)) as (Hsep & Hdot & Hdotdot).
  fold n in Hsep, Hdot, Hdotdot.
  apply save_to_ok in Hsave as (loc2 & Hres2 & Hnd & Hwr & ->).
  rewrite (resolve_upload w path n dirloc (extends_resolve _ _ _ _ Hext Hres)
             (extends_is_dir _ _ _ Hext Hdir) Hsep Hdot Hdotdot) in Hres2.
  injection Hres2 as <-.
  destruct (bool_decide_reflect (n = EmptyString)) as [He|Hne].
  { rewrite (extends_is_dir _ _ _ Hext Hdir) in Hnd. discriminate. }
  rewrite (extends_follow w0 w _ Hext) in *.
  split; [exact Hne|]. split.
  - apply extends_store; assumption.
  - intros loc Hloc. simpl. rewrite fs_lookup_store.
    rewrite bool_decide_eq_false_2 by congruence. reflexivity.
Qed.

(** Every place the loop of [post] changes is where a sanitized name
    directly below the target directory leads. *)
Lemma save_files_frame (w0 : World) (path : string) (dirloc : location) :
  resolve w0 path = Some dirloc -> is_dir_at (fs w0) dirloc = true ->
  forall (uploads : list FileStorage) (w : World) (info : list (string * string)),
    extends w0 w ->
    extends w0 (fst (save_files w path uploads info))
    /\ forall loc,
         fs_lookup (fs (fst (save_files w path uploads info))) loc
           <> fs_lookup (fs w) loc ->
         exists file, file ∈ uploads
           /\ secure_filename w0 (filename file) <> EmptyString
           /\ loc = follow w0 (dirloc ++ [secure_filename w0 (filename file)]).
Proof.
  intros Hres Hdir. induction uploads as [|file rest IH]; intros w info Hext.
  - simpl. split; [exact Hext | congruence].
  - simpl.
    destruct (save_to w _ (stream file)) as [w2|e] eqn:Hsave.
    + destruct (save_upload_ok w0 w w2 path dirloc file Hres Hdir Hext Hsave)
        as (Hne & Hext2 & Hframe).
      destruct (IH w2 (dict_set (dict_set info "status" "success") "msg" "File Saved") Hext2)
        as (Hext' & Hch).
      split; [exact Hext'|]. intros loc Hloc.
      destruct (decide (loc = follow w0 (dirloc ++ [secure_filename w0 (filename file)])))
        as [->|Hother].
      * exists file. split; [apply list_elem_of_here | auto].
      * rewrite <- (Hframe loc Hother) in Hloc.
        destruct (Hch loc Hloc) as (f & Hin & Hf).
        exists f. split; [apply list_elem_of_further, Hin | exact Hf].
    + destruct (IH w (dict_set (dict_set info "status" "error") "msg" (str_exn e)) Hext)
        as (Hext' & Hch).
      split; [exact Hext'|]. intros loc Hloc.
      destruct (Hch loc Hloc) as (f & Hin & Hf).
      exists f. split; [apply list_elem_of_further, Hin | exact Hf].
Qed.

(** A place to which no uploaded name leads is left as it is. *)
Lemma save_files_untouched (w0 : World) (path : string) (dirloc : location) :
  resolve w0 path = Some dirloc -> is_dir_at (fs w0) dirloc = true ->
  forall (uploads : list FileStorage) (w : World) (info : list (string * string))
         (loc : location),
    extends w0 w ->
    (forall file, file ∈ uploads ->
       follow w0 (dirloc ++ [secure_filename w0 (filename file)]) <> loc) ->
    fs_lookup (fs (fst (save_files w path uploads info))) loc = fs_lookup (fs w) loc.
Proof.
  intros Hres Hdir. induction uploads as [|file rest IH]; intros w info loc Hext Hno.
  - reflexivity.
  - simpl.
    assert (Hrest : forall f, f ∈ rest ->
              follow w0 (dirloc ++ [secure_filename w0 (filename f)]) <> loc)
      by (intros f Hf; apply Hno, list_elem_of_further, Hf).
    destruct (save_to w _ (stream file)) as [w2|e] eqn:Hsave.
    + destruct (save_upload_ok w0 w w2 path dirloc file Hres Hdir Hext Hsave)
        as (_ & Hext2 & Hframe).
      rewrite (IH w2 _ loc Hext2 Hrest). apply Hframe.
      intros ->. exact (Hno file (list_elem_of_here _ _) eq_refl).
    + apply (IH w _ loc Hext Hrest).
Qed.

Lemma post_world (root : string) (w : World) (request : Request) (p : string) :
  snd (post root w request p) =
    if os_path_isdir w (os_path_join root [p])
    then fst (save_files w (os_path_join root [p])
                         (dict_getlist (files request) "files[]") [])
    else w.
Proof.
  unfold post. destruct (os_path_isdir w _); [|reflexivity].
  destruct (save_files w _ _ []); reflexivity.
Qed.

Lemma post_changes (root : string) (w : World) (request : Request) (p : string)
    (loc : location) :
  fs_lookup (fs (snd (post root w request p))) loc <> fs_lookup (fs w) loc ->
  exists dirloc file,
    resolve w (os_path_join root [p]) = Some dirloc
    /\ is_dir_at (fs w) dirloc = true
    /\ file ∈ dict_getlist (files request) "files[]"
    /\ secure_filename w (filename file) <> EmptyString
    /\ loc = follow w (dirloc ++ [secure_filename w (filename file)]).
Proof.
  rewrite post_world.
  destruct (os_path_isdir w (os_path_join root [p])) eqn:Hisdir; [|congruence].
  destruct (isdir_resolve _ _ Hisdir) as (dirloc & Hres & Hdir).
  intros Hloc.
  destruct (save_files_frame w _ dirloc Hres Hdir
              (dict_getlist (files request) "files[]") w [] (extends_refl w))
    as [_ Hch].
  destruct (Hch loc Hloc) as (file & Hin & Hne & ->).
  exists dirloc, file. auto.
Qed.

Lemma save_to_dir_raises (w : World) (dst : string) (data : list byte)
    (loc : location) :
  resolve w dst = Some loc -> is_dir_at (fs w) loc = true ->
  exists e, save_to w dst data = Raise e.
Proof.
  unfold save_to, is_dir_at, node_is_dir. intros -> Hdir.
  destruct (write_fault w dst); [eauto|].
  destruct (fs_lookup (fs w) loc) as [n|]; [|discriminate].
  destruct (n_stat n); [|discriminate]. rewrite Hdir. eauto.
Qed.

(** The body [post] sends is the encoding of what the loop leaves in [info]. *)
Lemma post_body (root : string) (w : World) (request : Request) (p : string) :
  os_path_isdir w (os_path_join root [p]) = true ->
  body (fst (post root w request p))
  = BText (json_encode
             (snd (save_files w (os_path_join root [p])
                              (dict_getlist (files request) "files[]") []))).
Proof.
  intros Hdir. unfold post. rewrite Hdir.
  destruct (save_files w _ _ []); reflexivity.
Qed.

(** ** Uploaded file names *)

(** C9, as the code has it.  The name an upload is saved under is
    [secure_filename] of the name supplied; it contains no separator and is
    never [.] or [..].  Every place [post] changes is where such a name, not
    empty, directly inside the target directory leads: that place itself, or
    the target of a symbolic link that lies there.  The files of a request
    are saved in turn.  One whose sanitized name is empty is not stored: its
    save raises, and the answer reports that error when the file is the last
    of the request.  One with a non-empty sanitized name that can be written
    is stored under that name in the target directory; it is still there
    when the request is done unless a later file is saved to the same place,
    and the answer reports the success when the file is the last. *)
Theorem upload_stays_in_target (root : string) (w : World) (request : Request)
    (p : string) :
  let path := os_path_join root [p] in
  let uploads := dict_getlist (files request) "files[]" in
  (forall fname,
     contains_char sep (secure_filename w fname) = false
     /\ secure_filename w fname <> "."
     /\ secure_filename w fname <> "..")
  /\ (forall loc,
        fs_lookup (fs (snd (post root w request p))) loc <> fs_lookup (fs w) loc ->
        exists dirloc file,
          resolve w path = Some dirloc
          /\ is_dir_at (fs w) dirloc = true
          /\ file ∈ uploads
          /\ secure_filename w (filename file) <> EmptyString
          /\ loc = follow w (dirloc ++ [secure_filename w (filename file)]))
  /\ (forall (dirloc : location) (before after : list FileStorage)
             (file : FileStorage),
        uploads = before ++ file :: after ->
        resolve w path = Some dirloc -> is_dir_at (fs w) dirloc = true ->
        let name := secure_filename w (filename file) in
        let dst := os_path_join path [name] in
        let w1 := fst (save_files w path before []) in
        let w2 := fst (save_files w path (before ++ [file]) []) in
        (name = EmptyString ->
           w2 = w1
           /\ exists e,
                save_to w1 dst (stream file) = Raise e
                /\ (after = [] ->
                    body (fst (post root w request p))
                      = BText (json_encode [("status", "error"); ("msg", str_exn e)])))
        /\ (name <> EmptyString ->
            write_fault w dst = None ->
            writable_at (fs w1) (dirloc ++ [name]) = true ->
            fs_lookup (fs w2) (dirloc ++ [name])
              = Some {| n_stat := Some (creat_stat w dst (stream file));
                        n_data := stream file |}
            /\ ((forall later, later ∈ after ->
                   follow w (dirloc ++ [secure_filename w (filename later)])
                     <> dirloc ++ [name]) ->
                fs_lookup (fs (snd (post root w request p))) (dirloc ++ [name])
                  = Some {| n_stat := Some (creat_stat w dst (stream file));
                            n_data := stream file |})
            /\ (after = [] ->
                body (fst (post root w request p))
                  = BText (json_encode [("status", "success"); ("msg", "File Saved")])))).
Proof.
  intros path uploads. split; [|split].
  - apply secure_filename_safe.
  - intros loc. apply post_changes.
  - intros dirloc before after file Hup Hres Hdir name dst w1 w2.
    pose proof (resolve_isdir _ _ _ Hres Hdir) as Hisdir. fold path in Hisdir.
    destruct (save_files_frame w path dirloc Hres Hdir before w [] (extends_refl w))
      as [Hext1 _]. fold w1 in Hext1.
    destruct (secure_filename_safe w (filename file)) as (Hsep & Hdot & Hdotdot).
    fold name in Hsep, Hdot, Hdotdot.
    pose proof (resolve_upload w1 path name dirloc
                  (extends_resolve _ _ _ _ Hext1 Hres)
                  (extends_is_dir _ _ _ Hext1 Hdir) Hsep Hdot Hdotdot) as Hdst.
    fold dst in Hdst.
    assert (Hname1 : secure_filename w1 (filename file) = name)
      by apply (extends_secure_filename _ _ _ Hext1).
    assert (Hstep : save_files w path (before ++ [file]) []
                    = match save_to w1 dst (stream file) with
                      | Ok w' => (w', [("status", "success"); ("msg", "File Saved")])
                      | Raise e => (w1, [("status", "error"); ("msg", str_exn e)])
                      end).
    { rewrite save_files_app. fold w1. cbn [save_files]. rewrite Hname1. fold dst.
      destruct (save_to w1 dst (stream file));
        rewrite info_set by (apply save_files_shape; left; reflexivity);
        reflexivity. }
    assert (Hlast : after = [] ->
              body (fst (post root w request p))
              = BText (json_encode (snd (save_files w path (before ++ [file]) [])))).
    { intros ->. rewrite (post_body root w request p Hisdir).
      fold path. fold uploads. rewrite Hup. reflexivity. }
    split.
    + intros Hempty. rewrite bool_decide_eq_true_2 in Hdst by exact Hempty.
      destruct (save_to_dir_raises w1 dst (stream file) dirloc Hdst
                  (extends_is_dir _ _ _ Hext1 Hdir)) as [e He].
      unfold w2. rewrite Hstep, He. split; [reflexivity|].
      exists e. split; [reflexivity|].
      intros Hafter. rewrite (Hlast Hafter), Hstep, He. reflexivity.
    + intros Hne Hfault Hwr.
      rewrite (bool_decide_eq_false_2 _ Hne), (writable_follow w1 _ Hwr) in Hdst.
      assert (Hfault1 : write_fault w1 dst = None)
        by (destruct Hext1 as (_ & _ & -> & _); exact Hfault).
      assert (Hcreat : creat_stat w1 = creat_stat w)
        by (destruct Hext1 as (_ & _ & _ & -> & _); reflexivity).
      pose proof (save_to_writable w1 dst (stream file) _ Hfault1 Hdst Hwr) as Hsave.
      rewrite Hcreat in Hsave.
      assert (Hw2 : w2 = with_fs w1 (fs_store (fs w1) (dirloc ++ [name])
                                       {| n_stat := Some (creat_stat w dst (stream file));
                                          n_data := stream file |}))
        by (unfold w2; rewrite Hstep, Hsave; reflexivity).
      assert (Hstored : fs_lookup (fs w2) (dirloc ++ [name])
                        = Some {| n_stat := Some (creat_stat w dst (stream file));
                                  n_data := stream file |}).
      { rewrite Hw2. simpl. rewrite fs_lookup_store.
        rewrite bool_decide_eq_true_2 by reflexivity. reflexivity. }
      split; [exact Hstored|]. split.
      * intros Hlater. rewrite <- Hstored.
        rewrite post_world. fold path. rewrite Hisdir. fold uploads.
        rewrite Hup, (app_assoc before [file] after : before ++ file :: after = _).
        rewrite save_files_app. fold w2.
        assert (Hext2 : extends w w2).
        { rewrite Hw2. apply extends_store; [exact Hext1 | | exact Hwr].
          unfold writable_at in Hwr. unfold is_dir_at, node_is_dir.
          destruct (fs_lookup (fs w1) (dirloc ++ [name])) as [n|]; [|reflexivity].
          destruct (n_stat n); [|discriminate].
          apply negb_true_iff in Hwr. exact Hwr. }
        apply (save_files_untouched w path dirloc Hres Hdir after w2 _ _ Hext2).
        exact Hlater.
      * intros Hafter. rewrite (Hlast Hafter), Hstep, Hsave. reflexivity.
Qed.

Lemma upload_stays_in_target_witness :
  secure_filename sample_world "../../etc/passwd" = "etc_passwd"
  /\ fs_lookup
       (fs (snd (post sample_root sample_world
                      (upload_request "../../etc/passwd" [x41]) "")))
       ["srv"; "files"; "etc_passwd"]
     = Some {| n_stat := Some (sample_stat 33188 1); n_data := [x41] |}.
Proof.
  split; [reflexivity|].
  destruct (upload_stays_in_target sample_root sample_world
              (upload_request "../../etc/passwd" [x41]) "")
    as (_ & _ & H).
  destruct (H ["srv"; "files"] [] []
              {| filename := "../../etc/passwd"; stream := [x41] |}
              eq_refl eq_refl eq_refl) as [_ Hok].
  destruct Hok as (_ & Hok & _); [discriminate | reflexivity | reflexivity |].
  apply Hok. intros later Hin. inversion Hin.
Defined.

(** C9 as stated fails: a supplied name made of separators and parent
    references only is not persisted under any name. *)
Lemma traversal_only_name_is_not_stored :
  secure_filename sample_world "../.." = EmptyString
  /\ snd (post sample_root sample_world (upload_request "../.." [x41]) "")
     = sample_world
  /\ fst (post sample_root sample_world (upload_request "../.." [x41]) "")
     = {| status := 200;
          body := BText (json_encode
                           [("status", "error");
                            ("msg", "[Errno 21] Is a directory: '/srv/files/'")]);
          mimetype := None; direct_passthrough := false;
          resp_headers := [("Content-type", "application/json")];
          resp_cookies := [] |}.
Proof. repeat split. Qed.

(** Through a symbolic link the bytes leave the target directory: an upload
    named [motd] to a directory in which [motd] is a link is written
    where the link leads. *)
Lemma upload_follows_symbolic_link :
  secure_filename motd_world "motd" = "motd"
  /\ follow motd_world ["srv"; "files"; "motd"] = ["etc"; "passwd"]
  /\ fs_lookup (fs (snd (post sample_root motd_world (upload_request "motd" [x41]) "")))
               ["etc"; "passwd"]
     = Some {| n_stat := Some (sample_stat 33188 1); n_data := [x41] |}.
Proof. repeat split. Qed.

(** ** Confinement to the root *)

Lemma no_readlink_no_link (w : World) :
  (forall k, readlink w k = None) -> forall loc, is_link_at w loc = false.
Proof.
  intros Hno loc. unfold is_link_at, link_target.
  destruct (fs_lookup (fs w) loc) as [n|]; [destruct (n_stat n)|];
    rewrite ?Hno; reflexivity.
Qed.

(** C1, as the code has it.  When no symbolic link lies below the root, a
    relative request path that never climbs above the root with [..] is
    resolved to a place within the root, and so is everything [post] writes.
    The handlers make no check of their own: [get] answers 404 when the
    joined path is neither a directory nor a file. *)
Theorem relative_path_stays_in_root (w : World) (root p : string)
    (request : Request) (root_loc : location) :
  resolve w root = Some root_loc ->
  startswith p (str1 sep) = false ->
  climbs_above 0 (split_char sep p) = false ->
  (forall loc, root_loc `prefix_of` loc -> is_link_at w loc = false) ->
  let path := os_path_join root [p] in
  (forall loc, resolve w path = Some loc -> root_loc `prefix_of` loc)
  /\ (forall loc,
        fs_lookup (fs (snd (post root w request p))) loc <> fs_lookup (fs w) loc ->
        root_loc `prefix_of` loc)
  /\ (os_path_isdir w path = false -> os_path_isfile w path = false ->
        get root w request p = Ok (make_response (BText "Not found") 404)).
Proof.
  intros Hroot Hrel Hclimb Hno path.
  assert (Hin : forall loc, resolve w path = Some loc -> root_loc `prefix_of` loc).
  { intros loc. unfold path. simpl.
    rewrite (resolve_join2 w root p root_loc Hrel Hroot).
    rewrite <- (app_nil_r root_loc) at 1.
    apply walk_path_below; assumption. }
  split; [exact Hin|split].
  - intros loc Hloc.
    destruct (post_changes root w request p loc Hloc)
      as (dirloc & file & Hres & _ & _ & _ & ->).
    assert (Hbelow : root_loc `prefix_of` dirloc ++ [secure_filename w (filename file)])
      by (etransitivity; [exact (Hin dirloc Hres) | apply prefix_app_r; reflexivity]).
    rewrite (follow_not_link w _ (Hno _ Hbelow)). exact Hbelow.
  - intros Hd Hf. unfold get. fold path. rewrite Hd, Hf. reflexivity.
Qed.

Lemma relative_path_stays_in_root_witness :
  ["srv"; "files"] `prefix_of` ["srv"; "files"; "a.bin"].
Proof.
  apply (proj1 (relative_path_stays_in_root sample_world sample_root "docs/../a.bin"
                  plain_request ["srv"; "files"] eq_refl eq_refl eq_refl
                  (fun loc _ => no_readlink_no_link sample_world
                                  (fun _ => eq_refl) loc))).
  reflexivity.
Defined.

(** C1 as stated fails: parent references in the request path lead [get] to
    a file outside the root, which it serves, and [post] to a directory
    outside the root, into which it writes. *)
Lemma parent_references_escape_root :
  resolve sample_world sample_root = Some ["srv"; "files"]
  /\ resolve sample_world (os_path_join sample_root ["../../etc/passwd"])
     = Some ["etc"; "passwd"]
  /\ ~ ["srv"; "files"] `prefix_of` ["etc"; "passwd"]
  /\ get sample_root sample_world plain_request "../../etc/passwd"
     = Ok {| status := 200; body := BBytes passwd_bytes;
             mimetype := None; direct_passthrough := true;
             resp_headers := [("Content-Disposition", "attachment")];
             resp_cookies := [] |}
  /\ fs_lookup (fs (snd (post sample_root sample_world
                              (upload_request "x" [x41]) "../../etc")))
               ["etc"; "x"]
     = Some {| n_stat := Some (sample_stat 33188 1); n_data := [x41] |}.
Proof.
  repeat split; try (vm_compute; reflexivity).
  intros [k Hk]. discriminate.
Qed.

(** The same happens without any parent reference when a symbolic link
    below the root leads out of it: [link/passwd] is served from [/etc]. *)
Lemma symbolic_link_escapes_root :
  climbs_above 0 (split_char sep "link/passwd") = false
  /\ resolve linked_world (os_path_join sample_root ["link/passwd"])
     = Some ["etc"; "passwd"]
  /\ ~ ["srv"; "files"] `prefix_of` ["etc"; "passwd"]
  /\ exists resp,
       get sample_root linked_world plain_request "link/passwd" = Ok resp
       /\ status resp = 200
       /\ body resp = BBytes passwd_bytes.
Proof.
  split; [reflexivity|]. split; [reflexivity|]. split.
  - intros [k Hk]. discriminate.
  - eexists. split; [reflexivity|]. split; reflexivity.
Qed.

(** * Further properties of the source *)

(** ** The template filters *)

Lemma last_piece_app (base piece : string) :
  contains_char "."%char piece = false ->
  last_piece (base +:+ String "."%char piece) = piece.
Proof.
  intros Hno. unfold last_piece.
  rewrite split_char_app, (split_char_no_sep _ _ Hno). apply List.last_last.
Qed.

Lemma last_piece_plain (piece : string) :
  contains_char "."%char piece = false -> last_piece piece = piece.
Proof. intros Hno. unfold last_piece. rewrite (split_char_no_sep _ _ Hno). reflexivity. Qed.

Lemma match_or_none (table : list (string * string)) (piece : string) :
  Exists (fun entry => py_in piece (snd entry) = true) table
  \/ Forall (fun entry => py_in piece (snd entry) = false) table.
Proof.
  induction table as [|entry table [IH|IH]].
  - right. constructor.
  - left. apply List.Exists_cons_tl, IH.
  - destruct (py_in piece (snd entry)) eqn:E.
    + left. apply List.Exists_cons_hd, E.
    + right. constructor; assumption.
Qed.

Lemma pick_no_match (table : list (string * string)) (piece start : string) :
  Forall (fun entry => py_in piece (snd entry) = false) table ->
  pick table piece start = start.
Proof.
  unfold pick. induction 1 as [|[type exts] table Hx _ IH]; simpl; [reflexivity|].
  simpl in Hx. rewrite Hx. exact IH.
Qed.

Lemma pick_match (table : list (string * string)) (piece start : string) :
  Exists (fun entry => py_in piece (snd entry) = true) table ->
  exists exts, (pick table piece start, exts) ∈ table /\ py_in piece exts = true.
Proof.
  unfold pick. revert start.
  induction table as [|[type exts] table IH]; intros start Hex.
  - inversion Hex.
  - simpl. destruct (match_or_none table piece) as [Hlater|Hno].
    + destruct (IH (if py_in piece exts then type else start) Hlater) as (e & Hin & He).
      exists e. split; [apply list_elem_of_further, Hin | exact He].
    + apply Exists_cons in Hex as [Hhere|Hlater].
      2:{ exfalso. apply List.Exists_exists in Hlater as (entry & Hentry & Hm).
          rewrite List.Forall_forall in Hno. rewrite (Hno entry Hentry) in Hm.
          discriminate. }
      simpl in Hhere. rewrite Hhere.
      fold (pick table piece type). rewrite (pick_no_match _ _ _ Hno).
      exists exts. split; [apply list_elem_of_here | exact Hhere].
Qed.

(** What decides between the default and a table key. *)
Lemma pick_default (table : list (string * string)) (piece start : string) :
  start ∉ List.map fst table ->
  (pick table piece start = start
   <-> Forall (fun entry => py_in piece (snd entry) = false) table)
  /\ (pick table piece start = start \/ pick table piece start ∈ List.map fst table).
Proof.
  intros Hstart.
  destruct (match_or_none table piece) as [Hex|Hno].
  - destruct (pick_match table piece start Hex) as (exts & Hin & He).
    assert (Hkey : pick table piece start ∈ List.map fst table).
    { apply list_elem_of_In, List.in_map_iff. exists (pick table piece start, exts).
      split; [reflexivity | apply list_elem_of_In, Hin]. }
    split; [|right; exact Hkey]. split.
    + intros Heq. rewrite Heq in Hkey. contradiction.
    + intros Hall. exfalso. apply List.Exists_exists in Hex as (entry & Hentry & Hm).
      rewrite List.Forall_forall in Hall. rewrite (Hall entry Hentry) in Hm. discriminate.
  - split; [|left; apply pick_no_match, Hno].
    split; [intros _; exact Hno | intros _; apply pick_no_match, Hno].
Qed.

(** X1. Both filters look only at what follows the last dot, and a name
    without a dot counts as its own extension.  The answer is the default
    exactly when that piece occurs in none of the extension lists, and is a
    key of the table otherwise.  The test is a substring test: a name that
    ends in a dot has the empty piece, which occurs in every list, and gets
    the last entry of each table. *)
Theorem filters_match_by_substring (filename base piece : string) :
  (contains_char "."%char piece = false ->
     data_fmt (base +:+ String "."%char piece) = data_fmt piece
     /\ icon_fmt (base +:+ String "."%char piece) = icon_fmt piece)
  /\ (data_fmt filename = "unknown"
      <-> Forall (fun entry => py_in (last_piece filename) (snd entry) = false) datatypes)
  /\ (icon_fmt filename = "fa-file-o"
      <-> Forall (fun entry => py_in (last_piece filename) (snd entry) = false) icontypes)
  /\ (data_fmt filename = "unknown" \/ data_fmt filename ∈ List.map fst datatypes)
  /\ (icon_fmt filename = "fa-file-o" \/ icon_fmt filename ∈ List.map fst icontypes)
  /\ data_fmt (base +:+ ".") = "website"
  /\ icon_fmt (base +:+ ".") = "fa-globe".
Proof.
  assert (Hd : "unknown" ∉ List.map fst datatypes) by decide_prop.
  assert (Hi : "fa-file-o" ∉ List.map fst icontypes) by decide_prop.
  split; [|split; [|split; [|split; [|split; [|split]]]]].
  - intros Hno. unfold data_fmt, icon_fmt.
    rewrite (last_piece_app _ _ Hno), (last_piece_plain _ Hno). auto.
  - apply (pick_default datatypes _ _ Hd).
  - apply (pick_default icontypes _ _ Hi).
  - apply (pick_default datatypes _ _ Hd).
  - apply (pick_default icontypes _ _ Hi).
  - unfold data_fmt. rewrite (last_piece_app base EmptyString eq_refl).
    vm_compute. reflexivity.
  - unfold icon_fmt. rewrite (last_piece_app base EmptyString eq_refl).
    vm_compute. reflexivity.
Qed.

Lemma filters_match_by_substring_witness :
  data_fmt "notes.tar.gz" = data_fmt "gz"
  /\ icon_fmt "notes.tar.gz" = icon_fmt "gz".
Proof.
  apply (proj1 (filters_match_by_substring EmptyString "notes.tar" "gz")).
  reflexivity.
Defined.

(** X2. Every extension a table lists is answered with the key it is listed
    under, whatever the rest of the name. *)
Theorem listed_extensions_are_recognised (base type piece : string) :
  ((type, piece) ∈ listed datatypes ->
     data_fmt (base +:+ String "."%char piece) = type)
  /\ ((type, piece) ∈ listed icontypes ->
        icon_fmt (base +:+ String "."%char piece) = type).
Proof.
  assert (Hd : forallb (fun '(t, e) =>
                          negb (contains_char "."%char e)
                          && bool_decide (pick datatypes e "unknown" = t))
                       (listed datatypes) = true) by (vm_compute; reflexivity).
  assert (Hi : forallb (fun '(t, e) =>
                          negb (contains_char "."%char e)
                          && bool_decide (pick icontypes e "fa-file-o" = t))
                       (listed icontypes) = true) by (vm_compute; reflexivity).
  rewrite forallb_forall in Hd, Hi.
  split; intros Hin; apply list_elem_of_In in Hin.
  - specialize (Hd _ Hin). simpl in Hd. apply andb_prop in Hd as [Hno Hpick].
    apply negb_true_iff in Hno. apply bool_decide_eq_true in Hpick.
    unfold data_fmt. rewrite (last_piece_app _ _ Hno). exact Hpick.
  - specialize (Hi _ Hin). simpl in Hi. apply andb_prop in Hi as [Hno Hpick].
    apply negb_true_iff in Hno. apply bool_decide_eq_true in Hpick.
    unfold icon_fmt. rewrite (last_piece_app _ _ Hno). exact Hpick.
Qed.

Lemma listed_extensions_are_recognised_witness :
  data_fmt "archive.backup.tar" = "archive"
  /\ icon_fmt "clip.webm" = "fa-film".
Proof.
  split.
  - apply (proj1 (listed_extensions_are_recognised "archive.backup" "archive" "tar")).
    decide_prop.
  - apply (proj2 (listed_extensions_are_recognised "clip" "fa-film" "webm")).
    decide_prop.
Defined.

(** ** The directory listing *)

Lemma filter_sublist {A} (f : A -> bool) (l : list A) :
  List.filter f l `sublist_of` l.
Proof.
  induction l as [|x l IH]; simpl; [constructor|].
  destruct (f x); [apply sublist_skip | apply sublist_cons]; exact IH.
Qed.

(** What [get] answers for a directory, given what the iterator yields. *)
Lemma get_directory (root : string) (w : World) (request : Request) (p : string)
    (iterator : list File) :
  os_path_isdir w (os_path_join root [p]) = true ->
  (if bool_decide (dict_get (args request) "recursive" = Some "yes")
   then Ok (iter_recursive_files w (os_path_join root [p]))
   else iter_files w (os_path_join root [p])) = Ok iterator ->
  exists total,
    get root w request p =
      (contents ← sorted_contents
                    (List.filter
                       (kept (default (default "no" (dict_get (cookies request) "hide-dotfile"))
                                      (dict_get (args request) "hide-dotfile")))
                       iterator)
                    (dict_get (args request) "sorting");
       Ok (set_cookie
             (make_response
                (BTemplate "index.html"
                   {| ctx_path := p;
                      ctx_page := get_page request;
                      ctx_page_size := get_page_size request;
                      ctx_contents :=
                        paginate contents (VInt (get_page request))
                                 (VInt (get_page_size request));
                      ctx_total := total;
                      ctx_hide_dotfile :=
                        default (default "no" (dict_get (cookies request) "hide-dotfile"))
                                (dict_get (args request) "hide-dotfile");
                      ctx_recursive :=
                        bool_decide (dict_get (args request) "recursive" = Some "yes") |})
                200)
             "hide-dotfile"
             (default (default "no" (dict_get (cookies request) "hide-dotfile"))
                      (dict_get (args request) "hide-dotfile"))
             16070400)).
Proof.
  intros Hisdir Hiter.
  set (hide := default (default "no" (dict_get (cookies request) "hide-dotfile"))
                       (dict_get (args request) "hide-dotfile")).
  destruct (listing_loop_acc hide iterator []
              (<["file" := 0]> (<["dir" := 0]> (<["size" := 0]> ∅))) 0 0 0)
    as (total & Hrun & _); try reflexivity.
  exists total. unfold get. fold hide. rewrite Hisdir, Hiter.
  cbn [mbind result_bind]. rewrite Hrun. cbn [mbind result_bind app].
  destruct (sorted_contents _ _); reflexivity.
Qed.

(** X3. The entries the loop of [get] keeps come in the order the iterator
    yields them; none has a name on the deny-list, and with [hide-dotfile]
    set to [yes] none has a name that begins with a dot.  The same holds for
    every entry of the page [get] renders. *)
Theorem listing_hides_ignored_and_dotfiles (hide_dotfile : string)
    (iterator : list File) :
  exists contents total,
    listing_loop hide_dotfile iterator []
                 (<["file" := 0]> (<["dir" := 0]> (<["size" := 0]> ∅)))
      = Ok (contents, total)
    /\ contents `sublist_of` iterator
    /\ (forall f, f ∈ contents ->
          (name f ∉ ignored)
          /\ (hide_dotfile = "yes" -> startswith (name f) "." = false))
    /\ forall (root : string) (w : World) (request : Request) (p : string)
              (resp : Response) (template : string) (ctx : TemplateContext),
         hide_dotfile
           = default (default "no" (dict_get (cookies request) "hide-dotfile"))
                     (dict_get (args request) "hide-dotfile") ->
         os_path_isdir w (os_path_join root [p]) = true ->
         (if bool_decide (dict_get (args request) "recursive" = Some "yes")
          then Ok (iter_recursive_files w (os_path_join root [p]))
          else iter_files w (os_path_join root [p])) = Ok iterator ->
         get root w request p = Ok resp ->
         body resp = BTemplate template ctx ->
         forall f, f ∈ ctx_contents ctx ->
           (name f ∉ ignored)
           /\ (hide_dotfile = "yes" -> startswith (name f) "." = false).
Proof.
  destruct (listing_loop_acc hide_dotfile iterator []
              (<["file" := 0]> (<["dir" := 0]> (<["size" := 0]> ∅))) 0 0 0)
    as (total & Hrun & _); try reflexivity.
  assert (Hkept : forall f, f ∈ List.filter (kept hide_dotfile) iterator ->
            (name f ∉ ignored)
            /\ (hide_dotfile = "yes" -> startswith (name f) "." = false)).
  { intros f Hin. apply list_elem_of_In, List.filter_In in Hin as [_ Hk].
    unfold kept, File_ignored, File_hidden in Hk.
    apply andb_prop in Hk as [Hk _]. apply andb_prop in Hk as [Hign Hhid].
    apply negb_true_iff in Hign, Hhid. apply bool_decide_eq_false in Hign.
    split; [exact Hign|]. intros ->.
    rewrite bool_decide_eq_true_2 in Hhid by reflexivity. exact Hhid. }
  exists (List.filter (kept hide_dotfile) iterator), total.
  split; [exact Hrun|]. split; [apply filter_sublist|]. split; [exact Hkept|].
  intros root w request p resp template ctx Hhide Hisdir Hiter Hget Hbody f Hin.
  destruct (get_directory root w request p iterator Hisdir Hiter) as (total' & Hrun').
  rewrite Hrun', <- Hhide in Hget.
  destruct (sorted_contents _ _) as [sorted_|e] eqn:Hsort;
    cbn [mbind result_bind] in Hget; [|discriminate].
  injection Hget as <-. simpl in Hbody. injection Hbody as _ <-. simpl in Hin.
  apply Hkept. apply paginate_elem_of in Hin.
  rewrite (sorted_contents_perm _ _ _ Hsort) in Hin. exact Hin.
Qed.

Lemma listing_hides_ignored_and_dotfiles_witness :
  exists resp ctx,
    get sample_root sample_world
        {| args := [("hide-dotfile", "yes")]; cookies := []; headers := []; files := [] |}
        EmptyString = Ok resp
    /\ body resp = BTemplate "index.html" ctx
    /\ forall f, f ∈ ctx_contents ctx ->
         (name f ∉ ignored) /\ startswith (name f) "." = false.
Proof.
  destruct (listing_hides_ignored_and_dotfiles "yes"
              [File_init sample_world "/srv/files/a.bin" "/srv/files/";
               File_init sample_world "/srv/files/lost" "/srv/files/";
               File_init sample_world "/srv/files/docs" "/srv/files/";
               File_init sample_world "/srv/files/.git" "/srv/files/"])
    as (contents & total & _ & _ & _ & Hpage).
  eexists. eexists. split; [vm_compute; reflexivity|]. split; [reflexivity|].
  intros f Hin.
  destruct (Hpage sample_root sample_world
                  {| args := [("hide-dotfile", "yes")]; cookies := [];
                     headers := []; files := [] |}
                  EmptyString _ _ _ eq_refl eq_refl eq_refl eq_refl eq_refl f Hin)
    as [H1 H2].
  split; [exact H1 | exact (H2 eq_refl)].
Defined.

(** ** Answers of [get] *)

Lemma partial_response_status (w : World) (path : string) (start : Z)
    (end_ : option Z) (resp : Response) :
  partial_response w path start end_ = Ok resp -> status resp = 206.
Proof.
  unfold partial_response.
  destruct (os_path_getsize w path); cbn [mbind result_bind]; [|discriminate].
  destruct (open_rb w path); cbn [mbind result_bind]; [|discriminate].
  destruct (fd_seek start); cbn [mbind result_bind]; [|discriminate].
  destruct (fd_read _ _ _); cbn [mbind result_bind]; [|discriminate].
  destruct (negb _); [discriminate|]. intros [= <-]. reflexivity.
Qed.

(** X4. Whenever [get] answers, the status is 200, 206 or 404: 404 exactly
    when the joined path is neither a directory nor a file, 200 for every
    directory, and 206 only for a file requested with a [Range] header, for
    which it is also the only status.  A path that is neither always gets
    its 404. *)
Theorem get_status_cases (root : string) (w : World) (request : Request)
    (p : string) (resp : Response) :
  get root w request p = Ok resp ->
  let path := os_path_join root [p] in
  (status resp = 200 \/ status resp = 206 \/ status resp = 404)
  /\ (status resp = 404
      <-> os_path_isdir w path = false /\ os_path_isfile w path = false)
  /\ (os_path_isdir w path = true -> status resp = 200)
  /\ (status resp = 206
      <-> os_path_isdir w path = false /\ os_path_isfile w path = true
          /\ is_Some (headers_get (headers request) "Range")).
Proof.
  intros Hget path. unfold get in Hget. fold path in Hget.
  destruct (os_path_isdir w path) eqn:Hdir.
  - assert (Hs : status resp = 200).
    { destruct (if bool_decide _ then _ else _) as [iterator|]; cbn [mbind result_bind] in Hget;
        [|discriminate].
      destruct (listing_loop _ _ _ _) as [[contents total]|]; cbn [mbind result_bind] in Hget;
        [|discriminate].
      destruct (sorted_contents _ _); cbn [mbind result_bind] in Hget; [|discriminate].
      injection Hget as <-. reflexivity. }
    rewrite Hs. repeat split; auto; try discriminate; intros [? _]; discriminate.
  - destruct (os_path_isfile w path) eqn:Hfile.
    + destruct (bool_decide_reflect (is_Some (headers_get (headers request) "Range")))
        as [Hrange|Hrange].
      * assert (Hs : status resp = 206).
        { destruct (get_range request) as [[start end_]|]; cbn [mbind result_bind] in Hget;
            [|discriminate].
          exact (partial_response_status _ _ _ _ _ Hget). }
        rewrite Hs. repeat split; auto; try discriminate; intros [_ ?]; discriminate.
      * assert (Hs : status resp = 200).
        { unfold send_file in Hget.
          destruct (open_rb w path); cbn [mbind result_bind] in Hget; [|discriminate].
          injection Hget as <-. reflexivity. }
        rewrite Hs. repeat split; auto; try discriminate.
        -- intros [_ ?]; discriminate.
        -- intros (_ & _ & ?). contradiction.
    + injection Hget as <-. simpl.
      repeat split; auto; try discriminate. intros (_ & ? & _). discriminate.
Qed.

Lemma get_status_cases_witness :
  status (make_response (BText "Not found") 404) = 404
  <-> os_path_isdir sample_world (os_path_join sample_root ["nothing"]) = false
      /\ os_path_isfile sample_world (os_path_join sample_root ["nothing"]) = false.
Proof.
  apply (get_status_cases sample_root sample_world plain_request "nothing"
           (make_response (BText "Not found") 404)).
  reflexivity.
Defined.

Lemma get_regular_whole (root : string) (w : World) (request : Request)
    (p : string) (st : stat_result) (data : list byte) :
  regular_file w (os_path_join root [p]) st data ->
  headers_get (headers request) "Range" = None ->
  get root w request p =
    Ok {| status := 200; body := BBytes data;
          mimetype := guess_type w (os_path_join root [p]);
          direct_passthrough := true;
          resp_headers := [("Content-Disposition", "attachment")];
          resp_cookies := [] |}.
Proof.
  intros Hreg Hrange. unfold get.
  rewrite (regular_isdir _ _ _ _ Hreg), (regular_isfile _ _ _ _ Hreg), Hrange.
  rewrite bool_decide_eq_false_2 by (intros [? ?]; discriminate).
  unfold send_file. rewrite (regular_open _ _ _ _ Hreg). reflexivity.
Qed.

(** X5. A file requested without a [Range] header is answered with status
    200 and its whole content as the body, and the handler adds the header
    [Content-Disposition: attachment] to the answer. *)
Theorem download_without_range (root : string) (w : World) (request : Request)
    (p : string) (st : stat_result) (data : list byte) :
  regular_file w (os_path_join root [p]) st data ->
  headers_get (headers request) "Range" = None ->
  exists resp,
    get root w request p = Ok resp
    /\ status resp = 200
    /\ body resp = BBytes data
    /\ ("Content-Disposition", "attachment") ∈ resp_headers resp.
Proof.
  intros Hreg Hrange. unfold get.
  rewrite (regular_isdir _ _ _ _ Hreg), (regular_isfile _ _ _ _ Hreg), Hrange.
  rewrite bool_decide_eq_false_2 by (intros [? ?]; discriminate).
  unfold send_file. rewrite (regular_open _ _ _ _ Hreg). cbn [mbind result_bind].
  eexists. split; [reflexivity|]. split; [reflexivity|]. split; [reflexivity|].
  apply list_elem_of_here.
Qed.

Lemma download_without_range_witness :
  exists resp,
    get sample_root sample_world plain_request "a.bin" = Ok resp
    /\ status resp = 200
    /\ body resp = BBytes (repeat x61 1000)
    /\ ("Content-Disposition", "attachment") ∈ resp_headers resp.
Proof.
  apply (download_without_range sample_root sample_world plain_request "a.bin"
           (sample_stat 33188 1000) (repeat x61 1000)).
  - exact sample_regular.
  - reflexivity.
Defined.

(** ** Range headers and decimal numbers *)

Lemma digits_value_app (a b : string) (acc : Z) :
  digits_value acc (a +:+ b) = digits_value (digits_value acc a) b.
Proof.
  revert acc. induction a as [|c a IH]; intros acc; [reflexivity|].
  change (String c a +:+ b) with (String c (a +:+ b)). simpl. apply IH.
Qed.

Lemma all_digits_app (a b : string) :
  all_digits (a +:+ b) = all_digits a && all_digits b.
Proof.
  induction a as [|c a IH]; [reflexivity|].
  change (String c a +:+ b) with (String c (a +:+ b)). simpl.
  rewrite IH, andb_assoc. reflexivity.
Qed.

Lemma pretty_N_char_digit (d : N) :
  (d < 10)%N ->
  is_digit (pretty_N_char d) = true /\ ord (pretty_N_char d) - 48 = Z.of_N d.
Proof.
  intros Hd.
  assert (d = 0 \/ d = 1 \/ d = 2 \/ d = 3 \/ d = 4 \/ d = 5 \/ d = 6
          \/ d = 7 \/ d = 8 \/ d = 9)%N as H by lia.
  repeat (destruct H as [->|H]; [split; reflexivity|]). subst. split; reflexivity.
Qed.

Lemma pretty_N_go_app (x : N) (s : string) :
  pretty_N_go x s = pretty_N_go x EmptyString +:+ s.
Proof.
  revert s. induction (N.lt_wf_0 x) as [x _ IH]; intros s.
  destruct (N.eq_dec x 0%N) as [->|Hx]; [reflexivity|].
  rewrite !(pretty_N_go_step x) by lia.
  rewrite (IH (x `div` 10)%N) by (apply N.div_lt; lia).
  rewrite (IH (x `div` 10)%N ltac:(apply N.div_lt; lia) (String _ EmptyString)).
  rewrite append_assoc. reflexivity.
Qed.

Lemma pretty_N_go_value (x : N) :
  all_digits (pretty_N_go x EmptyString) = true
  /\ digits_value 0 (pretty_N_go x EmptyString) = Z.of_N x.
Proof.
  induction (N.lt_wf_0 x) as [x _ IH].
  destruct (N.eq_dec x 0%N) as [->|Hx]; [split; reflexivity|].
  rewrite (pretty_N_go_step x) by lia. rewrite pretty_N_go_app.
  destruct (IH (x `div` 10)%N ltac:(apply N.div_lt; lia)) as [Hd Hv].
  destruct (pretty_N_char_digit (x `mod` 10)%N ltac:(apply N.mod_lt; lia)) as [Hc Ho].
  split.
  - rewrite all_digits_app, Hd. simpl. rewrite Hc. reflexivity.
  - rewrite digits_value_app, Hv. simpl. rewrite Ho.
    rewrite (N.div_mod x 10) at 3 by lia. lia.
Qed.

(** Decimal text of a number that is not negative, and back. *)
Lemma pretty_digits (z : Z) :
  0 <= z ->
  pretty z <> EmptyString
  /\ all_digits (pretty z) = true
  /\ digits_value 0 (pretty z) = z.
Proof.
  intros Hz. destruct z as [|x|x]; [repeat split; discriminate| |lia].
  change (pretty (Z.pos x)) with (pretty_N_go (N.pos x) EmptyString).
  destruct (pretty_N_go_value (N.pos x)) as [Hd Hv].
  split; [|split; [exact Hd | rewrite Hv; reflexivity]].
  intros Hempty. rewrite Hempty in Hv. discriminate.
Qed.

(** X7. [get_range] reads back the numbers of a range header written in
    decimal: [bytes=<a>-<b>] gives [(a, b)] and [bytes=<a>-] gives
    [(a, None)], for all [a] and [b] that are not negative, and text after
    the range does not change the answer. *)
Theorem get_range_reads_decimal (request : Request) (a b : Z) (rest : string) :
  0 <= a -> 0 <= b ->
  fst (span_digits rest) = EmptyString ->
  (headers_get (headers request) "Range"
     = Some ("bytes=" +:+ pretty a +:+ "-" +:+ pretty b +:+ rest) ->
   get_range request = Ok (a, Some b))
  /\ (headers_get (headers request) "Range" = Some ("bytes=" +:+ pretty a +:+ "-") ->
      get_range request = Ok (a, None)).
Proof.
  intros Ha Hb Hrest.
  destruct (pretty_digits a Ha) as (Hane & Had & Hav).
  destruct (pretty_digits b Hb) as (Hbne & Hbd & Hbv).
  split; intros Hh; unfold get_range; rewrite Hh; unfold range_match;
    rewrite strip_prefix_app.
  - rewrite (span_digits_app (pretty a) ("-" +:+ pretty b +:+ rest) Had eq_refl).
    rewrite (bool_decide_eq_false_2 _ Hane).
    change ("-" +:+ pretty b +:+ rest) with (String "-"%char (pretty b +:+ rest)).
    cbv beta iota.
    rewrite (span_digits_app (pretty b) rest Hbd Hrest).
    rewrite (bool_decide_eq_false_2 _ Hbne). simpl. rewrite Hav, Hbv. reflexivity.
  - rewrite (span_digits_app (pretty a) "-" Had eq_refl).
    rewrite (bool_decide_eq_false_2 _ Hane). simpl. rewrite Hav. reflexivity.
Qed.

Lemma get_range_reads_decimal_witness :
  get_range (range_request "bytes=1024-2047, 4096-8191") = Ok (1024, Some 2047).
Proof.
  apply (proj1 (get_range_reads_decimal
                  (range_request "bytes=1024-2047, 4096-8191") 1024 2047
                  ", 4096-8191" ltac:(lia) ltac:(lia) eq_refl)).
  reflexivity.
Defined.

(** ** Resuming a download *)

(** X8. Partial responses fit together: for [0 < k <= size] the body of the
    range [0..k-1] followed by the body of the open range from [k] is the
    whole file, and for [a <= b < c] the bodies of [a..b] and [b+1..c] make
    up the body of [a..c]. *)
Theorem partial_responses_concatenate (w : World) (path : string)
    (st : stat_result) (data : list byte) :
  regular_file w path st data ->
  (forall k, 0 < k -> k <= len data ->
     exists first rest_,
       partial_response w path 0 (Some (k - 1)) = Ok first
       /\ partial_response w path k None = Ok rest_
       /\ body_bytes first ++ body_bytes rest_ = data)
  /\ (forall a b c, 0 <= a -> a <= b -> b < c -> c < len data ->
        exists left_ right_ whole,
          partial_response w path a (Some b) = Ok left_
          /\ partial_response w path (b + 1) (Some c) = Ok right_
          /\ partial_response w path a (Some c) = Ok whole
          /\ body_bytes left_ ++ body_bytes right_ = body_bytes whole).
Proof.
  intros Hreg.
  assert (Hwin : forall s e, 0 <= s -> s <= e -> e < len data ->
            exists r, partial_response w path s (Some e) = Ok r
              /\ body_bytes r = take (Z.to_nat (e - s + 1)) (drop (Z.to_nat s) data)).
  { intros s e Hs Hse He.
    rewrite (partial_response_regular w path st data Hreg).
    unfold fd_seek, fd_read. cbn zeta.
    destruct (Z.ltb_spec s 0); [lia|]. cbn [mbind result_bind].
    destruct (Z.ltb_spec (e - s + 1) (-1)); [lia|].
    destruct (Z.eqb_spec (e - s + 1) (-1)); [lia|]. cbn [mbind result_bind].
    rewrite (len_take_drop data s (e - s + 1)) by lia.
    rewrite Z.eqb_refl. eexists. split; reflexivity. }
  split.
  - intros k Hk Hle.
    destruct (Hwin 0 (k - 1)) as (first & Hfirst & Hb1); try lia.
    exists first. rewrite Hfirst.
    rewrite (partial_response_regular w path st data Hreg).
    unfold fd_seek, fd_read. cbn zeta.
    destruct (Z.ltb_spec k 0); [lia|]. cbn [mbind result_bind].
    destruct (Z.ltb_spec (len data - 1 - k + 1) (-1)); [lia|].
    destruct (Z.eqb_spec (len data - 1 - k + 1) (-1)); [lia|]. cbn [mbind result_bind].
    rewrite (take_ge (drop (Z.to_nat k) data))
      by (rewrite length_drop; unfold len in *; lia).
    replace (len (drop (Z.to_nat k) data) =? len data - 1 - k + 1) with true
      by (symmetry; apply Z.eqb_eq; unfold len in *; rewrite length_drop; lia).
    eexists. split; [reflexivity|]. split; [reflexivity|].
    rewrite Hb1. unfold body_bytes. simpl.
    replace (Z.to_nat (k - 1 - 0 + 1)) with (Z.to_nat k) by lia.
    apply take_drop.
  - intros a b c Ha Hab Hbc Hc.
    destruct (Hwin a b) as (l_ & Hl & Hlb); try lia.
    destruct (Hwin (b + 1) c) as (r_ & Hr & Hrb); try lia.
    destruct (Hwin a c) as (w_ & Hw & Hwb); try lia.
    exists l_, r_, w_. repeat split; try assumption.
    rewrite Hlb, Hrb, Hwb.
    replace (Z.to_nat (c - a + 1))
      with (Z.to_nat (b - a + 1) + Z.to_nat (c - (b + 1) + 1))%nat by lia.
    rewrite <- take_take_drop, drop_drop. do 3 f_equal. lia.
Qed.

Lemma partial_responses_concatenate_witness :
  exists first rest_,
    partial_response sample_world "/srv/files/a.bin" 0 (Some 399) = Ok first
    /\ partial_response sample_world "/srv/files/a.bin" 400 None = Ok rest_
    /\ body_bytes first ++ body_bytes rest_ = repeat x61 1000.
Proof.
  apply (proj1 (partial_responses_concatenate sample_world "/srv/files/a.bin"
                  (sample_stat 33188 1000) (repeat x61 1000) sample_regular) 400).
  - lia.
  - vm_compute. discriminate.
Defined.

(** ** Pages *)

Lemma paginate_window {A} (xs : list A) (p s : Z) :
  0 <= p -> 0 < s ->
  paginate xs (VInt p) (VInt s) = take (Z.to_nat s) (drop (Z.to_nat (p * s)) xs).
Proof.
  intros Hp Hs. assert (Hps : 0 <= p * s) by nia.
  unfold paginate, py_int, py_slice. cbn zeta. fold (len xs).
  rewrite !adjust_index_nonneg by lia.
  destruct (Z.le_gt_cases (len xs) (p * s)) as [Hout|Hin].
  - rewrite !drop_ge by (unfold len in *; lia). rewrite !take_nil. reflexivity.
  - rewrite (Z.min_r (len xs) (p * s)) by lia.
    destruct (Z.le_gt_cases (len xs) (p * s + s)).
    + rewrite !take_ge by (rewrite length_drop; unfold len in *; lia). reflexivity.
    + f_equal. lia.
Qed.

(** X9. The pages of a list follow one another without gap or overlap: for
    a page size [s > 0], pages [0..k-1] put together are the first [k*s]
    entries, and so the whole list once [k*s] reaches its length. *)
Theorem pages_cover_the_list {A : Type} (xs : list A) (s : Z) (k : nat) :
  0 < s ->
  concat (List.map (fun p => paginate xs (VInt (Z.of_nat p)) (VInt s)) (seq 0 k))
    = take (k * Z.to_nat s) xs
  /\ (len xs <= Z.of_nat k * s ->
      concat (List.map (fun p => paginate xs (VInt (Z.of_nat p)) (VInt s)) (seq 0 k))
        = xs).
Proof.
  intros Hs.
  assert (Hall : concat (List.map (fun p => paginate xs (VInt (Z.of_nat p)) (VInt s))
                                  (seq 0 k))
                 = take (k * Z.to_nat s) xs).
  { induction k as [|k IH]; [reflexivity|].
    rewrite seq_S, List.map_app, concat_app, IH. simpl.
    rewrite app_nil_r, paginate_window by lia.
    replace (Z.to_nat (Z.of_nat k * s)) with (k * Z.to_nat s)%nat by nia.
    rewrite take_take_drop. f_equal. lia. }
  split; [exact Hall|].
  intros Hlen. rewrite Hall. apply take_ge. unfold len in Hlen. nia.
Qed.

Lemma pages_cover_the_list_witness :
  concat (List.map (fun p => paginate [1; 2; 3; 4; 5] (VInt (Z.of_nat p)) (VInt 2))
                   (seq 0 3))
    = [1; 2; 3; 4; 5].
Proof.
  apply (proj2 (pages_cover_the_list [1; 2; 3; 4; 5] 2 3 ltac:(lia))).
  vm_compute. discriminate.
Defined.

Lemma adjust_index_spec (n i : Z) :
  0 <= n ->
  adjust_index n i = if i <? 0 then Z.max 0 (i + n) else Z.min n i.
Proof.
  intros Hn. unfold adjust_index.
  destruct (Z.ltb_spec i 0).
  - destruct (Z.ltb_spec (i + n) 0); [lia|].
    destruct (Z.leb_spec n (i + n)); lia.
  - destruct (Z.ltb_spec i 0); [lia|]. destruct (Z.leb_spec n i); lia.
Qed.

(** X10. A page is always a run of consecutive entries of the list, in list
    order, and for a page size [s >= 0] it has at most [s] entries,
    whatever the page number.  Page [-1] is empty for every page size; on
    page 0 a negative page size [s] gives the list without its last [-s]
    entries; and a page number that is no number gives the whole list. *)
Theorem paginate_edge_cases {A : Type} (xs : list A) (page page_size : pyval)
    (p s : Z) :
  paginate xs page page_size `sublist_of` xs
  /\ (0 <= s -> len (paginate xs (VInt p) (VInt s)) <= s)
  /\ paginate xs (VInt (-1)) (VInt s) = []
  /\ (s < 0 -> paginate xs (VInt 0) (VInt s) = take (Z.to_nat (len xs + s)) xs)
  /\ paginate xs VNone page_size = xs.
Proof.
  split; [|split; [|split; [|split]]].
  - unfold paginate, py_slice.
    destruct (py_int page); [|reflexivity]. destruct (py_int page_size); [|reflexivity].
    etransitivity; [apply sublist_take | apply sublist_drop].
  - intros Hs. unfold paginate, py_int, py_slice. cbn zeta. fold (len xs).
    generalize (p * s). intros start.
    unfold len at 1. rewrite length_take, length_drop. fold (len xs).
    pose proof (len_nonneg xs).
    rewrite !adjust_index_spec by assumption.
    destruct (Z.ltb_spec (start + s) 0); destruct (Z.ltb_spec start 0);
      unfold len in *; lia.
  - unfold paginate, py_int, py_slice. cbn zeta. fold (len xs).
    replace (-1 * s + s) with 0 by lia.
    pose proof (len_nonneg xs).
    replace (Z.to_nat (adjust_index (len xs) 0 - adjust_index (len xs) (-1 * s)))
      with 0%nat; [reflexivity|].
    rewrite !adjust_index_spec by assumption.
    destruct (Z.ltb_spec 0 0); destruct (Z.ltb_spec (-1 * s) 0); lia.
  - intros Hs. unfold paginate, py_int, py_slice. cbn zeta. fold (len xs).
    replace (0 * s) with 0 by lia. pose proof (len_nonneg xs).
    rewrite !adjust_index_spec by assumption.
    destruct (Z.ltb_spec 0 0); [lia|]. destruct (Z.ltb_spec (0 + s) 0); [|lia].
    replace (Z.min (len xs) 0) with 0 by lia.
    change (drop (Z.to_nat 0) xs) with xs. f_equal. lia.
  - reflexivity.
Qed.

Lemma paginate_edge_cases_witness :
  len (paginate [1; 2; 3; 4; 5] (VInt (-2)) (VInt 2)) <= 2
  /\ paginate [1; 2; 3; 4; 5] (VInt 0) (VInt (-2)) = [1; 2; 3].
Proof.
  destruct (paginate_edge_cases [1; 2; 3; 4; 5] VNone VNone (-2) 2)
    as (_ & H1 & _).
  destruct (paginate_edge_cases [1; 2; 3; 4; 5] VNone VNone 0 (-2))
    as (_ & _ & _ & H2 & _).
  split; [apply H1; lia | apply H2; lia].
Defined.

(** ** The page parameters *)

Lemma lstrip_space_digit (c : ascii) (l : list ascii) :
  is_digit c = true -> lstrip_space (c :: l) = c :: l.
Proof.
  intros Hc. simpl.
  replace (is_int_space c) with false; [reflexivity|].
  unfold is_digit, is_int_space in *. cbn zeta.
  apply andb_prop in Hc as [H1 H2]. apply Z.leb_le in H1, H2.
  destruct (Z.leb_spec 9 (ord c)), (Z.leb_spec (ord c) 13),
    (Z.leb_spec 28 (ord c)), (Z.leb_spec (ord c) 32),
    (Z.eqb_spec (ord c) 133), (Z.eqb_spec (ord c) 160);
    simpl; try reflexivity; lia.
Qed.

Lemma int_digits_value (s : string) (acc : Z) (after : bool) :
  all_digits s = true -> (s <> EmptyString \/ after = true) ->
  int_digits acc after (list_ascii_of_string s) = Some (digits_value acc s).
Proof.
  revert acc after. induction s as [|c s IH]; intros acc after Hd Hne; simpl.
  - destruct Hne as [Hne| ->]; [contradiction | reflexivity].
  - simpl in Hd. apply andb_prop in Hd as [Hc Hs]. rewrite Hc.
    apply IH; [exact Hs | right; reflexivity].
Qed.

Lemma all_digits_Forall (s : string) :
  all_digits s = true -> Forall (fun c => is_digit c = true) (list_ascii_of_string s).
Proof.
  induction s as [|c s IH]; simpl; [constructor|].
  intros H. apply andb_prop in H as [Hc Hs]. constructor; auto.
Qed.

(** [int(s)] on a string of decimal digits. *)
Lemma int_of_str_digits (s : string) :
  s <> EmptyString -> all_digits s = true ->
  int_of_str s = Some (digits_value 0 s).
Proof.
  intros Hne Hd. unfold int_of_str, strip_space.
  pose proof (all_digits_Forall s Hd) as Hall.
  assert (Hstrip : List.rev (lstrip_space (List.rev (lstrip_space (list_ascii_of_string s))))
                   = list_ascii_of_string s).
  { destruct (list_ascii_of_string s) as [|c l] eqn:El; [reflexivity|].
    rewrite lstrip_space_digit by (inversion Hall; assumption).
    apply List.Forall_rev in Hall.
    destruct (List.rev (c :: l)) as [|d l'] eqn:Er.
    { apply (f_equal (@List.length _)) in Er. rewrite length_rev in Er. discriminate. }
    rewrite lstrip_space_digit by (inversion Hall; assumption).
    rewrite <- Er. apply rev_involutive. }
  rewrite Hstrip.
  destruct s as [|c s]; [contradiction|]. simpl in Hd.
  apply andb_prop in Hd as [Hc Hs].
  assert (Hint : int_digits 0 false (list_ascii_of_string (String c s))
                 = Some (digits_value 0 (String c s)))
    by (apply int_digits_value; [simpl; rewrite Hc, Hs; reflexivity | left; discriminate]).
  change (list_ascii_of_string (String c s)) with (c :: list_ascii_of_string s) in *.
  destruct c as [[] [] [] [] [] [] [] []]; try discriminate Hc; exact Hint.
Qed.

(** X11. A [page] or [page_size] argument written in decimal digits is taken
    as that number; without the argument, or with an empty one, the page is
    0 and the page size 100. *)
Theorem page_arguments (request : Request) (s : string) :
  (dict_get (args request) "page" = None -> get_page request = 0)
  /\ (dict_get (args request) "page_size" = None -> get_page_size request = 100)
  /\ (dict_get (args request) "page" = Some EmptyString -> get_page request = 0)
  /\ (dict_get (args request) "page_size" = Some EmptyString ->
      get_page_size request = 100)
  /\ (s <> EmptyString -> all_digits s = true ->
      (dict_get (args request) "page" = Some s ->
       get_page request = digits_value 0 s)
      /\ (dict_get (args request) "page_size" = Some s ->
          get_page_size request = digits_value 0 s)).
Proof.
  unfold get_page, get_page_size.
  split; [intros ->; reflexivity|]. split; [intros ->; reflexivity|].
  split; [intros ->; reflexivity|]. split; [intros ->; reflexivity|].
  intros Hne Hd. split; intros ->; rewrite (int_of_str_digits s Hne Hd); reflexivity.
Qed.

Lemma page_arguments_witness :
  get_page {| args := [("page", "12")]; cookies := []; headers := []; files := [] |}
  = 12.
Proof.
  destruct (page_arguments
              {| args := [("page", "12")]; cookies := []; headers := []; files := [] |}
              "12") as (_ & _ & _ & _ & H).
  destruct H as [H _]; [discriminate | reflexivity|].
  apply H. reflexivity.
Defined.

(** X12. A listing requested without [page], [page_size] and [sorting] shows
    the first 100 kept entries in the order the directory yields them. *)
Theorem default_listing_is_first_hundred (root : string) (w : World)
    (request : Request) (p : string) (iterator : list File) :
  dict_get (args request) "page" = None ->
  dict_get (args request) "page_size" = None ->
  dict_get (args request) "sorting" = None ->
  os_path_isdir w (os_path_join root [p]) = true ->
  (if bool_decide (dict_get (args request) "recursive" = Some "yes")
   then Ok (iter_recursive_files w (os_path_join root [p]))
   else iter_files w (os_path_join root [p])) = Ok iterator ->
  exists resp ctx,
    get root w request p = Ok resp
    /\ status resp = 200
    /\ body resp = BTemplate "index.html" ctx
    /\ ctx_contents ctx
       = take 100 (List.filter
                     (kept (default (default "no" (dict_get (cookies request) "hide-dotfile"))
                                    (dict_get (args request) "hide-dotfile")))
                     iterator).
Proof.
  intros Hpage Hsize Hsort Hisdir Hiter.
  destruct (get_directory root w request p iterator Hisdir Hiter) as (total & ->).
  rewrite Hsort. unfold sorted_contents. cbn [mbind result_bind].
  eexists. eexists. split; [reflexivity|]. split; [reflexivity|]. split; [reflexivity|].
  simpl. unfold get_page, get_page_size. rewrite Hpage, Hsize.
  rewrite paginate_window by lia. reflexivity.
Qed.

Lemma default_listing_is_first_hundred_witness :
  exists resp ctx,
    get sample_root sample_world plain_request EmptyString = Ok resp
    /\ status resp = 200
    /\ body resp = BTemplate "index.html" ctx
    /\ List.map name (ctx_contents ctx) = ["a.bin"; "docs"].
Proof.
  destruct (default_listing_is_first_hundred sample_root sample_world plain_request
              EmptyString
              [File_init sample_world "/srv/files/a.bin" "/srv/files/";
               File_init sample_world "/srv/files/lost" "/srv/files/";
               File_init sample_world "/srv/files/docs" "/srv/files/";
               File_init sample_world "/srv/files/.git" "/srv/files/"]
              eq_refl eq_refl eq_refl eq_refl eq_refl)
    as (resp & ctx & H1 & H2 & H3 & H4).
  exists resp, ctx. split; [exact H1|]. split; [exact H2|]. split; [exact H3|].
  rewrite H4. reflexivity.
Defined.

(** ** More on sorting *)

Lemma lstrip_dash (s : string) :
  lstrip_char "-"%char (String "-"%char s) = lstrip_char "-"%char s.
Proof. reflexivity. Qed.

(** X13. Without a sort key, or with an empty one, the entries come back as
    they are; and further dashes before a descending key change nothing:
    [--size] sorts like [-size]. *)
Theorem sort_key_prefix (contents : list File) (sorting : string) :
  sorted_contents contents None = Ok contents
  /\ sorted_contents contents (Some EmptyString) = Ok contents
  /\ (startswith sorting "-" = true ->
      sorted_contents contents (Some ("-" +:+ sorting))
      = sorted_contents contents (Some sorting)).
Proof.
  split; [reflexivity|]. split; [reflexivity|].
  intros Hdash. unfold sorted_contents.
  change ("-" +:+ sorting) with (String "-"%char sorting).
  rewrite lstrip_dash.
  replace (startswith (String "-"%char sorting) "-") with true
    by (symmetry; apply (startswith_head "-"%char sorting)).
  rewrite Hdash.
  rewrite (bool_decide_eq_false_2 (String "-"%char sorting = EmptyString))
    by discriminate.
  rewrite (bool_decide_eq_false_2 (sorting = EmptyString))
    by (intros ->; discriminate).
  reflexivity.
Qed.

Lemma sort_key_prefix_witness :
  sorted_contents three_sizes (Some "--size") = sorted_contents three_sizes (Some "-size").
Proof.
  apply (proj2 (proj2 (sort_key_prefix three_sizes "-size"))). reflexivity.
Defined.

Lemma sorted_contents_supported (contents : list File) (key : string)
    (descending : bool) :
  key ∈ supported_keys ->
  sorted_contents contents (Some (if descending then "-" +:+ key else key))
  = sorted (fun f => File_getattr f key) contents descending.
Proof.
  intros Hkey.
  destruct (supported_key_kind key Hkey) as (Hstrip & Hstrip' & Hne & _).
  unfold sorted_contents. destruct descending.
  - rewrite bool_decide_eq_false_2 by discriminate. rewrite Hstrip.
    replace (startswith ("-" +:+ key) "-") with true
      by (symmetry; apply (startswith_head "-"%char key)).
    reflexivity.
  - rewrite bool_decide_eq_false_2 by exact Hne. rewrite Hstrip'.
    replace (startswith key "-") with false; [reflexivity|].
    clear -Hkey. unfold supported_keys in Hkey.
    repeat (apply elem_of_cons in Hkey as [->|Hkey]); try reflexivity.
    apply elem_of_nil in Hkey. contradiction.
Qed.

(** A list already in key order is left as it is. *)
Lemma stable_sort_fixed {A} (key : A -> pyval) (K : key_kind) (l : list A) :
  Forall (kinded key K) l -> StronglySorted (key_order key) l ->
  stable_sort key l = Ok l.
Proof.
  intros Hk Hs. induction Hs as [|x xs Hs IH Hx]; [reflexivity|].
  apply Forall_cons_1 in Hk as [Hkx Hkxs].
  simpl. rewrite (IH Hkxs). cbn [mbind result_bind].
  destruct xs as [|y ys]; [reflexivity|].
  apply Forall_cons_1 in Hx as [Hxy _]. apply Forall_cons_1 in Hkxs as [Hky _].
  destruct (py_compare_total K (key x) (key y) Hkx Hky) as (c & Hc & Hc').
  simpl. unfold py_lt. rewrite Hc'.
  unfold key_order, key_le in Hxy. rewrite Hc in Hxy.
  destruct Hxy as [[= ->]|[= ->]]; reflexivity.
Qed.

(** X14. Sorting is idempotent: sorting the result again by the same key,
    in the same direction, returns it unchanged. *)
Theorem sorting_twice_changes_nothing (contents : list File) (key : string)
    (descending : bool) :
  key ∈ supported_keys ->
  Forall (fun f => is_Some (stat f)) contents ->
  exists out,
    sorted_contents contents (Some (if descending then "-" +:+ key else key)) = Ok out
    /\ sorted_contents out (Some (if descending then "-" +:+ key else key)) = Ok out.
Proof.
  intros Hkey Hstat.
  destruct (supported_key_kind key Hkey) as (_ & _ & _ & K & HK).
  assert (Hkinds : Forall (kinded (fun f => File_getattr f key) K) contents).
  { apply List.Forall_forall. rewrite List.Forall_forall in Hstat.
    intros f Hf. apply HK, Hstat, Hf. }
  destruct (sorted_spec (fun f => File_getattr f key) K contents descending Hkinds)
    as (out & Hrun & Hperm & Hsorted & _).
  exists out. rewrite !(sorted_contents_supported _ _ _ Hkey).
  split; [exact Hrun|].
  assert (Hkout : Forall (kinded (fun f => File_getattr f key) K) out)
    by exact (Permutation_Forall (Permutation_sym Hperm) Hkinds).
  unfold sorted. destruct descending.
  - rewrite (stable_sort_fixed _ K (List.rev out)).
    + cbn [mbind result_bind]. rewrite rev_involutive. reflexivity.
    + apply List.Forall_rev, Hkout.
    + apply (StronglySorted_rev _ _ Hsorted).
  - apply (stable_sort_fixed _ K); assumption.
Qed.

Lemma sorting_twice_changes_nothing_witness :
  exists out,
    sorted_contents three_sizes (Some "-size") = Ok out
    /\ sorted_contents out (Some "-size") = Ok out.
Proof.
  apply (sorting_twice_changes_nothing three_sizes "size" true).
  - decide_prop.
  - repeat constructor; eexists; reflexivity.
Defined.
(** ** Directory entries *)

Lemma no_sep_relative (n : string) :
  contains_char sep n = false -> startswith n (str1 sep) = false.
Proof.
  intros Hsep. rewrite startswith_char. destruct n as [|a n]; [reflexivity|].
  simpl in Hsep. apply orb_false_elim in Hsep as [Ha _]. exact Ha.
Qed.

(** [os.path.basename] undoes [os.path.join] with a plain name. *)
Lemma basename_join (dir n : string) :
  contains_char sep n = false -> os_path_basename (os_path_join dir [n]) = n.
Proof.
  intros Hsep. unfold os_path_basename. simpl. unfold join2.
  rewrite (no_sep_relative _ Hsep).
  destruct (bool_decide_reflect (dir = EmptyString)) as [->|Hne]; simpl.
  - change (EmptyString +:+ n) with n. rewrite (split_char_no_sep _ _ Hsep). reflexivity.
  - destruct (endswith_char dir sep) eqn:Hend.
    + destruct (endswith_char_app _ _ Hend) as [dir' ->].
      rewrite append_assoc. change (str1 sep +:+ n) with (String sep n).
      rewrite split_char_app, (split_char_no_sep _ _ Hsep).
      apply List.last_last.
    + change (str1 sep +:+ n) with (String sep n).
      rewrite split_char_app, (split_char_no_sep _ _ Hsep).
      apply List.last_last.
Qed.

Lemma File_stat_spec (w : World) (full_path : string) :
  File_stat w full_path =
    match os_stat w full_path with
    | Ok st => Some st
    | Raise _ => None
    end.
Proof. unfold File_stat. destruct (os_stat w full_path); reflexivity. Qed.

(** X15. The plain listing of a directory yields one entry per name that
    [os.listdir] returns, in the same order: its [name] is that name, its
    [path] the directory joined with the name, and its [stat] is missing
    exactly when [os.stat] fails on that path. *)
Theorem listed_entries_keep_their_names (w : World) (dir : string)
    (names : list string) :
  os_listdir w dir = Ok names ->
  Forall (fun n => contains_char sep n = false) names ->
  exists entries,
    iter_files w dir = Ok entries
    /\ List.map name entries = names
    /\ List.map path entries = List.map (fun n => os_path_join dir [n]) names
    /\ Forall (fun f => stat f = None <-> exists e, os_stat w (path f) = Raise e)
              entries.
Proof.
  intros Hlist Hnames. unfold iter_files. rewrite Hlist. cbn [mbind result_bind].
  eexists. split; [reflexivity|]. split; [|split].
  - rewrite List.map_map. clear Hlist.
    induction Hnames as [|n names Hn _ IH]; [reflexivity|].
    cbn [List.map]. rewrite IH. f_equal. apply (basename_join dir n Hn).
  - rewrite List.map_map. reflexivity.
  - apply Forall_forall. intros f Hf. apply list_elem_of_In, in_map_iff in Hf.
    destruct Hf as (n & <- & _). simpl. rewrite File_stat_spec.
    destruct (os_stat w (join2 dir n)) as [st|e].
    + split; [discriminate | intros [e He]; discriminate].
    + split; [eauto | reflexivity].
Qed.

Lemma listed_entries_keep_their_names_witness :
  exists entries,
    iter_files sample_world sample_root = Ok entries
    /\ List.map name entries = ["a.bin"; "lost"; "docs"; ".git"]
    /\ List.map path entries
       = List.map (fun n => os_path_join sample_root [n])
                  ["a.bin"; "lost"; "docs"; ".git"]
    /\ Forall (fun f => stat f = None
                        <-> exists e, os_stat sample_world (path f) = Raise e)
              entries.
Proof.
  apply (listed_entries_keep_their_names sample_world sample_root
           ["a.bin"; "lost"; "docs"; ".git"]).
  - reflexivity.
  - repeat constructor.
Defined.

(** ** The recursive listing *)

Lemma join2_absolute (a b : string) :
  startswith b (str1 sep) = true -> join2 a b = b.
Proof. intros Hb. unfold join2. rewrite Hb. reflexivity. Qed.

Lemma join2_keeps_absolute (a b : string) :
  startswith a (str1 sep) = true -> startswith (join2 a b) (str1 sep) = true.
Proof.
  intros Ha. unfold join2. destruct (startswith b (str1 sep)) eqn:Hb; [exact Hb|].
  assert (Hne : a <> EmptyString) by (intros ->; discriminate).
  destruct (_ || _); rewrite startswith_app by exact Hne; exact Ha.
Qed.

(** What [os.walk] yields below an absolute directory: absolute directories,
    each with names that are not directories in it. *)
Lemma os_walk_fuel_absolute (w : World) (fuel : nat) (top : string) :
  startswith top (str1 sep) = true ->
  Forall (fun '(r, _, ns) =>
            startswith r (str1 sep) = true
            /\ Forall (fun n => os_path_isdir w (os_path_join r [n]) = false) ns)
         (os_walk_fuel fuel w top).
Proof.
  revert top. induction fuel as [|fuel IH]; intros top Htop; simpl; [constructor|].
  destruct (os_listdir w top) as [names|e]; [|constructor].
  constructor.
  - split; [exact Htop|]. apply Forall_forall. intros n Hn.
    apply list_elem_of_In, filter_In in Hn as [_ Hn].
    apply negb_true_iff in Hn. exact Hn.
  - apply Forall_forall. intros t Ht.
    apply list_elem_of_In, in_flat_map in Ht as (d & _ & Ht).
    specialize (IH (join2 top d) (join2_keeps_absolute top d Htop)).
    rewrite Forall_forall in IH. apply IH, list_elem_of_In, Ht.
Qed.

Lemma iter_recursive_files_elem (w : World) (dir : string) (f : File) :
  f ∈ iter_recursive_files w dir ->
  exists r ds ns n,
    (r, ds, ns) ∈ os_walk w dir /\ n ∈ ns
    /\ f = File_init w (os_path_join dir [r; n]) dir.
Proof.
  unfold iter_recursive_files. intros Hf.
  apply list_elem_of_In, in_flat_map in Hf as ([[r ds] ns] & Ht & Hf).
  apply in_map_iff in Hf as (n & <- & Hn).
  exists r, ds, ns, n. repeat split; apply list_elem_of_In; assumption.
Qed.

(** X16. Below an absolute directory, every entry of the recursive listing
    lies in a directory that [os.walk] visits, under one of the names
    [os.walk] reports as not being a directory there; so the recursive
    listing contains no directory. *)
Theorem recursive_listing_has_no_directories (w : World) (dir : string)
    (f : File) :
  startswith dir (str1 sep) = true ->
  f ∈ iter_recursive_files w dir ->
  (exists r ds ns n,
     (r, ds, ns) ∈ os_walk w dir /\ n ∈ ns /\ path f = os_path_join r [n])
  /\ os_path_isdir w (path f) = false
  /\ forall st, stat f = Some st -> S_ISDIR (st_mode st) = false.
Proof.
  intros Hdir Hf.
  destruct (iter_recursive_files_elem w dir f Hf) as (r & ds & ns & n & Ht & Hn & Hfeq).
  pose proof (os_walk_fuel_absolute w (S (List.length (fs w))) dir Hdir) as Hall.
  rewrite Forall_forall in Hall. specialize (Hall _ Ht). simpl in Hall.
  destruct Hall as [Hr Hns]. rewrite Forall_forall in Hns. specialize (Hns _ Hn).
  assert (Hpath : os_path_join dir [r; n] = os_path_join r [n])
    by (simpl; rewrite (join2_absolute dir r Hr); reflexivity).
  rewrite Hfeq, Hpath. cbn [path stat File_init]. split; [|split].
  - exists r, ds, ns, n. auto.
  - exact Hns.
  - rewrite File_stat_spec. unfold os_path_isdir in Hns.
    change (os_path_join r [n]) with (join2 r n).
    destruct (os_stat w (join2 r n)) as [st'|e]; [|discriminate].
    intros st [= <-]. exact Hns.
Qed.

Lemma recursive_listing_has_no_directories_witness :
  os_path_isdir sample_world "/srv/files/a.bin" = false.
Proof.
  assert (Hin : File_init sample_world "/srv/files/a.bin" sample_root
                ∈ iter_recursive_files sample_world sample_root)
    by (vm_compute; constructor).
  exact (proj1 (proj2 (recursive_listing_has_no_directories
                         sample_world sample_root _ eq_refl Hin))).
Defined.

Lemma filter_map_comm {A B} (g : A -> B) (P : B -> bool) (l : list A) :
  List.filter P (List.map g l) = List.map g (List.filter (fun x => P (g x)) l).
Proof.
  induction l as [|x l IH]; [reflexivity|].
  simpl. destruct (P (g x)); simpl; rewrite IH; reflexivity.
Qed.

(** X17. Below an absolute directory, the recursive listing begins with the
    entries of the plain listing that are not directories, in the same
    order; the entries of the directories below follow. *)
Theorem recursive_listing_starts_with_plain_files (w : World) (dir : string)
    (entries : list File) :
  startswith dir (str1 sep) = true ->
  iter_files w dir = Ok entries ->
  exists below,
    iter_recursive_files w dir
    = List.filter (fun f => negb (os_path_isdir w (path f))) entries ++ below.
Proof.
  intros Hdir. unfold iter_files, iter_recursive_files, os_walk. simpl.
  destruct (os_listdir w dir) as [names|e]; cbn [mbind result_bind]; [|discriminate].
  intros [= <-]. simpl. eexists. f_equal.
  rewrite filter_map_comm. simpl.
  rewrite (join2_absolute dir dir Hdir). reflexivity.
Qed.

Lemma recursive_listing_starts_with_plain_files_witness :
  exists below,
    iter_recursive_files sample_world sample_root
    = List.filter (fun f => negb (os_path_isdir sample_world (path f)))
        [File_init sample_world "/srv/files/a.bin" sample_root;
         File_init sample_world "/srv/files/lost" sample_root;
         File_init sample_world "/srv/files/docs" sample_root;
         File_init sample_world "/srv/files/.git" sample_root] ++ below.
Proof.
  apply (recursive_listing_starts_with_plain_files sample_world sample_root).
  - reflexivity.
  - reflexivity.
Defined.
(** ** Several uploads in one request *)

(** X18. [post] on a directory reports the last uploaded file only: when its
    save succeeds the answer is the success object, whatever happened to the
    files before it, and the world is the one that save leaves.  Without any
    uploaded file the answer is the empty object and nothing is written. *)
Theorem post_reports_last_upload (root : string) (w : World) (request : Request)
    (p : string) :
  let dir := os_path_join root [p] in
  let uploads := dict_getlist (files request) "files[]" in
  os_path_isdir w dir = true ->
  (uploads = [] ->
     post root w request p
     = (headers_add (make_response (BText "{}") 200)
                    "Content-type" "application/json", w))
  /\ forall (before : list FileStorage) (file : FileStorage) (w2 : World),
       uploads = before ++ [file] ->
       let w1 := fst (save_files w dir before []) in
       save_to w1 (os_path_join dir [secure_filename w1 (filename file)])
               (stream file) = Ok w2 ->
       post root w request p
       = (headers_add
            (make_response
               (BText (json_encode [("status", "success"); ("msg", "File Saved")]))
               200)
            "Content-type" "application/json", w2).
Proof.
  intros dir uploads Hdir. unfold post. fold dir. fold uploads. rewrite Hdir.
  split.
  - intros ->. reflexivity.
  - intros before file w2 Hup Hsave.
    rewrite Hup, save_files_app.
    cbn [save_files]. rewrite Hsave.
    rewrite info_set by (apply save_files_shape; left; reflexivity).
    reflexivity.
Qed.

Lemma post_reports_last_upload_witness :
  post sample_root sample_world
       {| args := []; cookies := []; headers := [];
          files := [("files[]", {| filename := "../.."; stream := [x41] |});
                    ("files[]", {| filename := "x"; stream := [x42] |})] |}
       EmptyString
  = (headers_add
       (make_response
          (BText (json_encode [("status", "success"); ("msg", "File Saved")])) 200)
       "Content-type" "application/json",
     with_fs sample_world
       (fs sample_world
          ++ [(["srv"; "files"; "x"],
               {| n_stat := Some (sample_stat 33188 1); n_data := [x42] |})])).
Proof.
  destruct (post_reports_last_upload sample_root sample_world
              {| args := []; cookies := []; headers := [];
                 files := [("files[]", {| filename := "../.."; stream := [x41] |});
                           ("files[]", {| filename := "x"; stream := [x42] |})] |}
              EmptyString eq_refl) as [_ H].
  apply (H [{| filename := "../.."; stream := [x41] |}]
           {| filename := "x"; stream := [x42] |}).
  - reflexivity.
  - vm_compute. reflexivity.
Defined.

(** ** An upload followed by a download *)

Lemma append_empty_r (s : string) : s +:+ EmptyString = s.
Proof.
  induction s as [|c s IH]; [reflexivity|].
  change (String c (s +:+ EmptyString) = String c s). rewrite IH. reflexivity.
Qed.

Lemma endswith_char_append (a b : string) (c : ascii) :
  b <> EmptyString -> endswith_char (a +:+ b) c = endswith_char b c.
Proof.
  intros Hne. induction a as [|x a IH]; [reflexivity|].
  change (endswith_char (String x (a +:+ b)) c = endswith_char b c).
  simpl. destruct (a +:+ b) eqn:E.
  - destruct a; [contradiction | discriminate].
  - exact IH.
Qed.

(** [os.path.join] of three components, grouped either way. *)
Lemma join2_assoc (a b c : string) :
  startswith c (str1 sep) = false ->
  join2 (join2 a b) c = join2 a (join2 b c).
Proof.
  intros Hc.
  destruct (startswith b (str1 sep)) eqn:Hb.
  - rewrite (join2_absolute a b Hb).
    rewrite (join2_absolute a (join2 b c) (join2_keeps_absolute b c Hb)).
    reflexivity.
  - destruct (bool_decide_reflect (b = EmptyString)) as [->|Hbne].
    + assert (Hr : join2 EmptyString c = c) by (unfold join2; rewrite Hc; reflexivity).
      rewrite Hr. unfold join2 at 2. simpl startswith.
      destruct (bool_decide_reflect (a = EmptyString)) as [->|Hane]; [reflexivity|].
      simpl. destruct (endswith_char a sep) eqn:Hend.
      * rewrite append_empty_r. reflexivity.
      * change (str1 sep +:+ EmptyString) with (str1 sep).
        assert (Hne : a +:+ str1 sep <> EmptyString)
          by (destruct a; [contradiction | discriminate]).
        unfold join2. rewrite Hc, Hend.
        rewrite (bool_decide_eq_false_2 _ Hane), (bool_decide_eq_false_2 _ Hne).
        rewrite endswith_char_append by discriminate.
        simpl. apply append_assoc.
    + assert (Hbc : exists m, join2 b c = b +:+ m
                              /\ forall x, x +:+ b <> EmptyString ->
                                           join2 (x +:+ b) c = (x +:+ b) +:+ m).
      { unfold join2. rewrite Hc. rewrite (bool_decide_eq_false_2 _ Hbne). simpl.
        destruct (endswith_char b sep) eqn:Hend.
        - exists c. split; [reflexivity|]. intros x Hx.
          rewrite (bool_decide_eq_false_2 _ Hx), endswith_char_append, Hend
            by exact Hbne.
          reflexivity.
        - exists (str1 sep +:+ c). split; [reflexivity|]. intros x Hx.
          rewrite (bool_decide_eq_false_2 _ Hx), endswith_char_append, Hend
            by exact Hbne.
          reflexivity. }
      destruct Hbc as (m & Hbc & Hx). rewrite Hbc.
      assert (Hrel : startswith (b +:+ m) (str1 sep) = false)
        by (rewrite startswith_app by exact Hbne; exact Hb).
      unfold join2 at 2 3. rewrite Hb, Hrel.
      destruct (bool_decide (a = EmptyString) || endswith_char a sep).
      * rewrite Hx by (destruct a; [exact Hbne | discriminate]).
        apply append_assoc.
      * rewrite <- (append_assoc a (str1 sep) b).
        rewrite Hx by (destruct a; discriminate).
        rewrite !append_assoc. reflexivity.
Qed.

(** X19. A file uploaded to a directory can be downloaded again: after a
    successful [post] of one file to [p], a [get] without [Range] of the
    stored name below [p] answers 200 with the uploaded bytes. *)
Theorem upload_then_download (root : string) (w : World) (p : string)
    (request request' : Request) (file : FileStorage) (dirloc : location) :
  let dir := os_path_join root [p] in
  let n := secure_filename w (filename file) in
  let dst := os_path_join dir [n] in
  let w' := snd (post root w request p) in
  dict_getlist (files request) "files[]" = [file] ->
  resolve w dir = Some dirloc -> is_dir_at (fs w) dirloc = true ->
  n <> EmptyString ->
  write_fault w dst = None ->
  writable_at (fs w) (dirloc ++ [n]) = true ->
  S_ISREG (st_mode (creat_stat w dst (stream file))) = true ->
  st_size (creat_stat w dst (stream file)) = len (stream file) ->
  headers_get (headers request') "Range" = None ->
  get root w' request' (os_path_join p [n])
  = Ok {| status := 200; body := BBytes (stream file);
          mimetype := guess_type w dst; direct_passthrough := true;
          resp_headers := [("Content-Disposition", "attachment")];
          resp_cookies := [] |}.
Proof.
  intros dir n dst w' Hup Hres Hdir Hne Hfault Hwr Hreg Hsize Hrange.
  destruct (secure_filename_safe w (filename file)) as (Hsep & Hdot & Hdotdot).
  fold n in Hsep, Hdot, Hdotdot.
  assert (Hdst : resolve w dst = Some (dirloc ++ [n])).
  { unfold dst. rewrite (resolve_upload w dir n dirloc Hres Hdir Hsep Hdot Hdotdot).
    rewrite (bool_decide_eq_false_2 _ Hne), (writable_follow w _ Hwr). reflexivity. }
  pose proof (save_to_writable w dst (stream file) _ Hfault Hdst Hwr) as Hsave.
  assert (Hw' : w' = with_fs w (fs_store (fs w) (dirloc ++ [n])
                                  {| n_stat := Some (creat_stat w dst (stream file));
                                     n_data := stream file |})).
  { unfold w'. rewrite post_world. fold dir.
    rewrite (resolve_isdir w dir dirloc Hres Hdir), Hup.
    cbn [save_files]. fold n. fold dst. rewrite Hsave. reflexivity. }
  assert (Hext : extends w w').
  { rewrite Hw'.
    exact (proj1 (proj2 (save_upload_ok w w _ dir dirloc file Hres Hdir
                           (extends_refl w) Hsave))). }
  assert (Hjoin : os_path_join root [os_path_join p [n]] = dst).
  { unfold dst, dir. simpl. symmetry. apply join2_assoc, no_sep_relative, Hsep. }
  assert (Hfile : regular_file w' (os_path_join root [os_path_join p [n]])
                               (creat_stat w dst (stream file)) (stream file)).
  { rewrite Hjoin. split; [|split; assumption].
    unfold find_node. rewrite (extends_resolve w w' dst _ Hext Hdst).
    rewrite Hw'. simpl. rewrite fs_lookup_store.
    rewrite bool_decide_eq_true_2 by reflexivity. reflexivity. }
  rewrite (get_regular_whole root w' request' _ _ _ Hfile Hrange).
  rewrite Hjoin, Hw'. reflexivity.
Qed.

Lemma upload_then_download_witness :
  get sample_root
      (snd (post sample_root sample_world (upload_request "my file.txt" [x41; x42])
                 "docs"))
      plain_request "docs/my_file.txt"
  = Ok {| status := 200; body := BBytes [x41; x42];
          mimetype := None; direct_passthrough := true;
          resp_headers := [("Content-Disposition", "attachment")];
          resp_cookies := [] |}.
Proof.
  apply (upload_then_download sample_root sample_world "docs"
           (upload_request "my file.txt" [x41; x42]) plain_request
           {| filename := "my file.txt"; stream := [x41; x42] |}
           ["srv"; "files"; "docs"]).
  - reflexivity.
  - reflexivity.
  - reflexivity.
  - vm_compute. discriminate.
  - reflexivity.
  - reflexivity.
  - reflexivity.
  - reflexivity.
  - reflexivity.
Defined.
(** ** Links to listed entries *)

Lemma plain_name_spec (c : string) :
  plain_name c = true ->
  c <> EmptyString /\ c <> "." /\ c <> ".." /\ contains_char sep c = false.
Proof.
  unfold plain_name. intros H.
  apply andb_prop in H as [H H4]. apply andb_prop in H as [H H3].
  apply andb_prop in H as [H1 H2].
  apply negb_true_iff in H1, H2, H3, H4.
  apply bool_decide_eq_false in H1, H2, H3. auto.
Qed.

Lemma sep_join_cons (c : string) (cs : list string) :
  cs <> [] -> sep_join (c :: cs) = c +:+ String sep (sep_join cs).
Proof. destruct cs; [contradiction | reflexivity]. Qed.

Lemma sep_join_snoc_append (cs : list string) (c : string) :
  cs <> [] -> sep_join (cs ++ [c]) = sep_join cs +:+ String sep c.
Proof.
  induction cs as [|x cs IH]; [contradiction|]. intros _.
  destruct cs as [|y cs]; [reflexivity|].
  change ((x :: y :: cs) ++ [c]) with (x :: ((y :: cs) ++ [c])).
  rewrite (sep_join_cons x ((y :: cs) ++ [c])) by (simpl; discriminate).
  rewrite IH by discriminate.
  rewrite (sep_join_cons x (y :: cs)) by discriminate.
  rewrite append_assoc. reflexivity.
Qed.

Lemma endswith_char_plain (c : string) :
  c <> EmptyString -> contains_char sep c = false -> endswith_char c sep = false.
Proof.
  induction c as [|a c IH]; [contradiction|]. intros _ H.
  simpl in H. apply orb_false_elim in H as [Ha Hc].
  simpl. destruct c as [|b c]; [exact Ha|]. apply IH; [discriminate | exact Hc].
Qed.

Lemma endswith_char_cons (a : ascii) (s : string) (c : ascii) :
  s <> EmptyString -> endswith_char (String a s) c = endswith_char s c.
Proof. destruct s; [contradiction | reflexivity]. Qed.

(** Joined plain names neither begin nor end with a separator. *)
Lemma sep_join_plain (cs : list string) :
  cs <> [] -> forallb plain_name cs = true ->
  sep_join cs <> EmptyString
  /\ startswith (sep_join cs) (str1 sep) = false
  /\ endswith_char (sep_join cs) sep = false.
Proof.
  induction cs as [|c cs IH]; [contradiction|]. intros _ H.
  simpl in H. apply andb_prop in H as [Hc Hcs].
  destruct (plain_name_spec c Hc) as (Hne & _ & _ & Hsep).
  destruct cs as [|d cs].
  - simpl. repeat split; [exact Hne | apply no_sep_relative, Hsep
                          | apply endswith_char_plain; assumption].
  - rewrite sep_join_cons by discriminate.
    destruct (IH ltac:(discriminate) Hcs) as (Hn & _ & He).
    repeat split.
    + destruct c; [contradiction | discriminate].
    + rewrite startswith_app by exact Hne. apply no_sep_relative, Hsep.
    + rewrite endswith_char_append by discriminate.
      rewrite endswith_char_cons by exact Hn. exact He.
Qed.

(** [os.path.join] adds one plain name to an absolute path. *)
Lemma join2_abs_of (cs : list string) (c : string) :
  forallb plain_name cs = true -> plain_name c = true ->
  join2 (abs_of cs) c = abs_of (cs ++ [c]).
Proof.
  intros Hcs Hc. destruct (plain_name_spec c Hc) as (Hne & _ & _ & Hsep).
  unfold join2. rewrite (no_sep_relative _ Hsep).
  destruct cs as [|x cs]; [reflexivity|].
  destruct (sep_join_plain (x :: cs) ltac:(discriminate) Hcs) as (Hn & _ & He).
  assert (Hend : endswith_char (abs_of (x :: cs)) sep = false)
    by (unfold abs_of; rewrite endswith_char_append by exact Hn; exact He).
  rewrite Hend, bool_decide_eq_false_2 by discriminate. cbn [orb].
  unfold abs_of. rewrite sep_join_snoc_append by discriminate.
  rewrite append_assoc. reflexivity.
Qed.

(** ... and what it makes of a relative path of plain names. *)
Lemma sep_join_snoc (cs : list string) (c : string) :
  forallb plain_name cs = true -> plain_name c = true ->
  sep_join (cs ++ [c]) = join2 (sep_join cs) c.
Proof.
  intros Hcs Hc. destruct (plain_name_spec c Hc) as (Hne & _ & _ & Hsep).
  unfold join2. rewrite (no_sep_relative _ Hsep).
  destruct cs as [|x cs]; [reflexivity|].
  destruct (sep_join_plain (x :: cs) ltac:(discriminate) Hcs) as (Hn & _ & He).
  rewrite (bool_decide_eq_false_2 _ Hn), He.
  apply sep_join_snoc_append. discriminate.
Qed.

Lemma forallb_snoc {A} (f : A -> bool) (l : list A) (x : A) :
  forallb f (l ++ [x]) = forallb f l && f x.
Proof. rewrite forallb_app. simpl. rewrite andb_true_r. reflexivity. Qed.

Lemma join2_abs_of_path (rs ps : list string) :
  forallb plain_name rs = true -> forallb plain_name ps = true -> ps <> [] ->
  join2 (abs_of rs) (sep_join ps) = abs_of (rs ++ ps).
Proof.
  intros Hrs. induction ps as [|c ps IH] using rev_ind; [contradiction|].
  intros Hps _. rewrite forallb_snoc in Hps. apply andb_prop in Hps as [Hps Hc].
  destruct (plain_name_spec c Hc) as (_ & _ & _ & Hsep).
  destruct ps as [|x ps].
  - apply (join2_abs_of rs c Hrs Hc).
  - rewrite (sep_join_snoc (x :: ps) c Hps Hc).
    rewrite <- join2_assoc by (apply no_sep_relative, Hsep).
    rewrite (IH Hps ltac:(discriminate)).
    rewrite join2_abs_of; [rewrite app_assoc; reflexivity | | exact Hc].
    rewrite forallb_app, Hrs, Hps. reflexivity.
Qed.

Lemma fold_join_plain (c : string) (rest : list string) :
  forallb plain_name (c :: rest) = true ->
  os_path_join c rest = sep_join (c :: rest).
Proof.
  unfold os_path_join. induction rest as [|x rest IH] using rev_ind; [reflexivity|].
  intros H. change (c :: rest ++ [x]) with ((c :: rest) ++ [x]) in *.
  rewrite forallb_snoc in H. apply andb_prop in H as [Hrest Hx].
  rewrite fold_left_app. cbn [fold_left]. rewrite (IH Hrest).
  symmetry. apply (sep_join_snoc (c :: rest) x Hrest Hx).
Qed.

Lemma split_sep_join (cs : list string) :
  cs <> [] -> forallb plain_name cs = true -> split_char sep (sep_join cs) = cs.
Proof.
  induction cs as [|c cs IH]; [contradiction|]. intros _ H.
  simpl in H. apply andb_prop in H as [Hc Hcs].
  destruct (plain_name_spec c Hc) as (_ & _ & _ & Hsep).
  destruct cs as [|d cs]; [apply split_char_no_sep, Hsep|].
  rewrite sep_join_cons, split_char_app, (split_char_no_sep _ _ Hsep) by discriminate.
  rewrite IH by (try discriminate; exact Hcs). reflexivity.
Qed.

Lemma normpath_steps_plain (k : nat) (cs acc : list string) :
  forallb plain_name cs = true ->
  fold_left (normpath_step k) cs acc = acc ++ cs.
Proof.
  revert acc. induction cs as [|c cs IH]; intros acc H; simpl.
  - rewrite app_nil_r. reflexivity.
  - simpl in H. apply andb_prop in H as [Hc Hcs].
    destruct (plain_name_spec c Hc) as (H1 & H2 & H3 & _).
    unfold normpath_step at 2.
    rewrite !bool_decide_eq_false_2 by assumption. simpl.
    rewrite (IH _ Hcs), <- app_assoc. reflexivity.
Qed.

Lemma filter_plain (cs : list string) :
  forallb plain_name cs = true ->
  List.filter (fun x : string => negb (bool_decide (x = EmptyString))) cs = cs.
Proof.
  induction cs as [|c cs IH]; [reflexivity|]. intros H.
  simpl in H. apply andb_prop in H as [Hc Hcs].
  destruct (plain_name_spec c Hc) as (H1 & _). simpl.
  rewrite (bool_decide_eq_false_2 _ H1). simpl. rewrite (IH Hcs). reflexivity.
Qed.

(** The components of a normalised absolute path. *)
Lemma split_abs_of (cs : list string) :
  forallb plain_name cs = true ->
  split_char sep (abs_of cs) = EmptyString :: (if cs is [] then [EmptyString] else cs).
Proof.
  intros H.
  change (abs_of cs) with (EmptyString +:+ String sep (sep_join cs)).
  rewrite split_char_app. cbn [split_char app]. f_equal.
  destruct cs as [|c cs]; [reflexivity|]. apply split_sep_join; [discriminate | exact H].
Qed.

Lemma startswith_two (s : string) :
  startswith (String sep s) "//" = startswith s (str1 sep).
Proof. reflexivity. Qed.

Lemma abspath_abs_of (w : World) (cs : list string) :
  forallb plain_name cs = true -> os_path_abspath w (abs_of cs) = abs_of cs.
Proof.
  intros H. unfold os_path_abspath, os_path_isabs.
  assert (Habs : startswith (abs_of cs) (str1 sep) = true) by apply startswith_head.
  rewrite Habs. unfold normpath. rewrite Habs.
  rewrite bool_decide_eq_false_2 by discriminate.
  assert (Hone : startswith (abs_of cs) "//" = false).
  { change (abs_of cs) with (String sep (sep_join cs)).
    rewrite startswith_two. destruct cs as [|c cs]; [reflexivity|].
    apply (sep_join_plain (c :: cs)); [discriminate | exact H]. }
  rewrite Hone. simpl andb. cbv iota.
  rewrite (split_abs_of cs H).
  assert (Hfold : fold_left (normpath_step 1) (EmptyString :: (if cs is [] then [EmptyString] else cs)) []
                  = cs).
  { destruct cs as [|c cs]; [reflexivity|].
    change (fold_left (normpath_step 1) (EmptyString :: c :: cs) [])
      with (fold_left (normpath_step 1) (c :: cs) []).
    apply (normpath_steps_plain 1 (c :: cs) [] H). }
  rewrite Hfold.
  change (string_of_list_ascii (repeat sep 1) +:+ sep_join cs) with (abs_of cs).
  rewrite bool_decide_eq_false_2 by discriminate. reflexivity.
Qed.

Lemma comps_abs_of (cs : list string) :
  forallb plain_name cs = true ->
  List.filter (fun x : string => negb (bool_decide (x = EmptyString)))
              (split_char sep (abs_of cs)) = cs.
Proof.
  intros H. rewrite (split_abs_of cs H). simpl.
  destruct cs as [|c cs]; [reflexivity|]. apply (filter_plain (c :: cs) H).
Qed.

Lemma commonprefix_app (a b : list string) : commonprefix a (a ++ b) = a.
Proof.
  induction a as [|x a IH]; [reflexivity|].
  simpl. rewrite bool_decide_eq_true_2 by reflexivity. rewrite IH. reflexivity.
Qed.

(** [relpath] between two normalised absolute paths, one below the other. *)
Lemma relpath_below (w : World) (rs cs : list string) :
  forallb plain_name rs = true -> forallb plain_name cs = true -> cs <> [] ->
  os_path_relpath w (abs_of (rs ++ cs)) (abs_of rs) = Ok (sep_join cs).
Proof.
  intros Hrs Hcs Hne.
  assert (Hall : forallb plain_name (rs ++ cs) = true)
    by (rewrite forallb_app, Hrs, Hcs; reflexivity).
  unfold os_path_relpath. rewrite bool_decide_eq_false_2 by discriminate.
  rewrite (abspath_abs_of w rs Hrs), (abspath_abs_of w _ Hall).
  rewrite (comps_abs_of rs Hrs), (comps_abs_of _ Hall).
  rewrite commonprefix_app, Nat.sub_diag, drop_app_length. simpl.
  destruct cs as [|c cs]; [contradiction|].
  rewrite (fold_join_plain c cs Hcs). reflexivity.
Qed.

(** X20. The URL of a listed entry leads back to it.  For a normalised
    absolute root, a request path [p] of plain names and a plain entry name
    [n], [get_absolute_url] of the entry that the listing of [p] yields for
    [n] is [p/n] (just [n] when [p] is empty), and joining the root with that
    URL, as [get] does, gives the path of the entry again. *)
Theorem entry_url_leads_back (w : World) (rs ps : list string) (n : string) :
  let root := abs_of rs in
  let p := sep_join ps in
  let dir := os_path_join root [p] in
  let f := File_init w (os_path_join dir [n]) dir in
  forallb plain_name (rs ++ ps ++ [n]) = true ->
  File_get_absolute_url root w f = Ok (sep_join (ps ++ [n]))
  /\ os_path_join root [sep_join (ps ++ [n])] = path f.
Proof.
  intros root p dir f Hall.
  rewrite forallb_app in Hall. apply andb_prop in Hall as [Hrs Hpn].
  pose proof Hpn as Hpn'. rewrite forallb_snoc in Hpn'.
  apply andb_prop in Hpn' as [Hps Hn].
  destruct (plain_name_spec n Hn) as (_ & _ & _ & Hsep).
  assert (Hurl : os_path_join root [sep_join (ps ++ [n])] = abs_of (rs ++ ps ++ [n])).
  { apply (join2_abs_of_path rs (ps ++ [n]) Hrs Hpn). destruct ps; discriminate. }
  assert (Hpath : path f = abs_of (rs ++ ps ++ [n])).
  { rewrite <- Hurl. unfold f, dir, p. cbn [path File_init os_path_join fold_left].
    rewrite (sep_join_snoc ps n Hps Hn).
    apply join2_assoc, no_sep_relative, Hsep. }
  split.
  - unfold File_get_absolute_url. rewrite Hpath.
    apply relpath_below; [exact Hrs | exact Hpn | destruct ps; discriminate].
  - rewrite Hurl, Hpath. reflexivity.
Qed.

Lemma entry_url_leads_back_witness :
  File_get_absolute_url sample_root sample_world
    (File_init sample_world "/srv/files/docs/a.txt" "/srv/files/docs")
  = Ok "docs/a.txt"
  /\ os_path_join sample_root ["docs/a.txt"] = "/srv/files/docs/a.txt".
Proof.
  apply (entry_url_leads_back sample_world ["srv"; "files"] ["docs"] "a.txt").
  reflexivity.
Defined.
